(** * CipherCourt: temporal-leakage detection and status aggregation

    A shallow embedding of the decision logic of the CipherCourt audit
    framework (ciphercourt/connectors/base.py, ciphercourt/audit.py and the
    two CSV-backed connectors, with the exit code of ciphercourt/cli.py, the
    CSV report of ciphercourt/reports and [merge_configs] of
    ciphercourt/utils/config.py), together with the properties its
    specification states about it and further properties of the code.

    Python dictionaries that are iterated (the [results] mapping) are
    insertion-ordered association lists; dictionaries that are only looked
    up by key (a CSV row, the [checks] of a result, a report) are [gmap]s.
    Exceptions are explicit: a function that can raise returns a
    [pyresult].  Wall-clock readings ([audit_timestamp], durations) carry no
    decision and are left out of the reports. *)

From Stdlib Require Import ZArith QArith List String Ascii Bool Lia.
From stdpp Require Import base option list strings gmap pretty.

Local Open Scope string_scope.
Local Open Scope list_scope.

(** ** Python values, exceptions *)

Inductive pyexn : Type := ValueError | TypeError | ZeroDivisionError.

Inductive pyresult (A : Type) : Type :=
  | Ok (a : A)
  | Raise (e : pyexn).
Arguments Ok {A} a.
Arguments Raise {A} e.

#[global] Instance pyresult_ret : MRet pyresult := @Ok.
#[global] Instance pyresult_bind : MBind pyresult :=
  fun A B f m => match m with Ok a => f a | Raise e => Raise e end.

(** A cell of a [csv.DictReader] row: a string, or [None] when the line was
    shorter than the header. *)
Inductive pyval : Type := PNone | PStr (s : string).

#[global] Instance pyval_eq_dec : EqDecision pyval.
Proof. solve_decision. Defined.

(** Truthiness of a cell: [None] and the empty string are falsy. *)
Definition truthy (v : pyval) : bool :=
  match v with
  | PNone => false
  | PStr s => negb (bool_decide (s = ""))
  end.

(** [str(v)], as an f-string renders the cell. *)
Definition py_str (v : pyval) : string :=
  match v with PNone => "None" | PStr s => s end.

(** [row.get(k)] on a row. *)
Definition get (row : gmap string pyval) (k : string) : pyval :=
  default PNone (row !! k).

(** ** base.py: AuditStatus *)

Inductive AuditStatus : Type := PASS | FAIL | WARNING | NOT_AVAILABLE.

Definition value (s : AuditStatus) : string :=
  match s with
  | PASS => "pass"
  | FAIL => "fail"
  | WARNING => "warning"
  | NOT_AVAILABLE => "not_available"
  end.

(** The payload of one entry of a result's [checks] / [details] mapping. *)
Record violation : Type := {
  v_match_id : pyval;
  v_available_at : string;
  v_match_start_time : string;
  v_snapshot_timestamp : pyval;
  v_delay_seconds : Q
}.

Record late_snapshot : Type := {
  l_match_id : pyval;
  l_snapshot_timestamp : string;
  l_match_start_time : string
}.

Inductive detail : Type :=
  | DStr (s : string)
  | DNat (n : nat)
  | DRequiredFields (expected missing : list string) (st : string)
  | DCompleteness (total complete incomplete : nat) (rate : Q)
  | DDuplicates (total unique duplicate_count : nat)
  | DInvalid (invalid_count : nat) (examples : list string)
  | DOrdering (out_of_order_count : nat) (examples : list string)
  | DFuture (future_count : nat) (examples : list pyval)
  | DPostMatch (post_match_count : nat) (violations : list violation)
  | DLate (late_count : nat) (examples : list late_snapshot).

(** The dictionary every check returns: ["status"], ["issues"] and the
    ["checks"] (or ["details"]) mapping. *)
Record check_result : Type := {
  status : string;
  issues : list string;
  checks : gmap string detail
}.

(** ** base.py: DataConnector and run_full_audit *)

Record DataConnector : Type := {
  get_source_name : string;
  check_availability : pyresult check_result;
  audit_data_quality : pyresult check_result;
  check_timestamps : pyresult check_result;
  detect_leakage : pyresult check_result
}.

(** The report of one source.  [r_checks] holds the check results under
    their keys; [overall_status] is [None] when the key is absent. *)
Record report : Type := {
  source : string;
  r_checks : gmap string check_result;
  overall_status : option string
}.

(** [x in statuses] *)
Definition py_in (x : string) (l : list string) : bool := bool_decide (x ∈ l).

(** The if/elif chain that closes [run_full_audit]. *)
Definition determine_overall_status (statuses : list string) : string :=
  if py_in (value FAIL) statuses then value FAIL
  else if py_in (value WARNING) statuses then value WARNING
  else if py_in (value NOT_AVAILABLE) statuses then value NOT_AVAILABLE
  else value PASS.

Definition run_full_audit (c : DataConnector) : pyresult report :=
  a ← check_availability c;
  q ← audit_data_quality c;
  t ← check_timestamps c;
  l ← detect_leakage c;
  let statuses := [status a; status q; status t; status l] in
  Ok {| source := get_source_name c;
        r_checks := <["leakage_check" := l]> (<["timestamps" := t]>
                    (<["data_quality" := q]> (<["availability" := a]> ∅)));
        overall_status := Some (determine_overall_status statuses) |}.

(** ** audit.py: AuditFramework *)

Record summary_t : Type := {
  total_connectors : nat;
  passed : nat;
  failed : nat;
  warnings : nat;
  not_available : nat;
  critical_issues : list string;
  all_issues : list string
}.

(** The literal list both issue-collecting loops iterate over. *)
Definition check_types : list string :=
  ["availability"; "data_quality"; "timestamps"; "leakage_check"].

(** [for check_type in [...]: if check_type in result: for issue in
    result[check_type].get("issues", []): target.append(fmt)] *)
Definition append_issues (fmt : string -> string -> string) (result : report)
    (target : list string) : list string :=
  fold_left
    (fun target check_type =>
       match r_checks result !! check_type with
       | Some c =>
           fold_left (fun target issue => target ++ [fmt check_type issue])
                     (issues c) target
       | None => target
       end)
    check_types target.

(** f"{source}: {issue}" *)
Definition critical_entry (source : string) (_ issue : string) : string :=
  source +:+ ": " +:+ issue.

(** f"{source}.{check_type}: {issue}" *)
Definition issue_entry (source check_type issue : string) : string :=
  source +:+ "." +:+ check_type +:+ ": " +:+ issue.

(** One iteration of [for source, result in audit_results.items()]. *)
Definition summary_step (summary : summary_t) (item : string * report) : summary_t :=
  let '(source, result) := item in
  let st := default "unknown" (overall_status result) in
  let summary :=
    if String.eqb st "pass" then
      {| total_connectors := total_connectors summary;
         passed := passed summary + 1; failed := failed summary;
         warnings := warnings summary; not_available := not_available summary;
         critical_issues := critical_issues summary;
         all_issues := all_issues summary |}
    else if String.eqb st "fail" then
      {| total_connectors := total_connectors summary;
         passed := passed summary; failed := failed summary + 1;
         warnings := warnings summary; not_available := not_available summary;
         critical_issues :=
           append_issues (critical_entry source) result (critical_issues summary);
         all_issues := all_issues summary |}
    else if String.eqb st "warning" then
      {| total_connectors := total_connectors summary;
         passed := passed summary; failed := failed summary;
         warnings := warnings summary + 1; not_available := not_available summary;
         critical_issues := critical_issues summary;
         all_issues := all_issues summary |}
    else if String.eqb st "not_available" then
      {| total_connectors := total_connectors summary;
         passed := passed summary; failed := failed summary;
         warnings := warnings summary; not_available := not_available summary + 1;
         critical_issues := critical_issues summary;
         all_issues := all_issues summary |}
    else summary in
  {| total_connectors := total_connectors summary;
     passed := passed summary; failed := failed summary;
     warnings := warnings summary; not_available := not_available summary;
     critical_issues := critical_issues summary;
     all_issues := append_issues (issue_entry source) result (all_issues summary) |}.

Definition _generate_summary (audit_results : list (string * report)) : summary_t :=
  fold_left summary_step audit_results
    {| total_connectors := length audit_results;
       passed := 0; failed := 0; warnings := 0; not_available := 0;
       critical_issues := []; all_issues := [] |}.

(** [d[k] = v] on an insertion-ordered dictionary: an existing key keeps
    its position, a new key goes last. *)
Fixpoint dict_set {V : Type} (k : string) (v : V) (d : list (string * V))
    : list (string * V) :=
  match d with
  | [] => [(k, v)]
  | (k', v') :: d' =>
      if String.eqb k' k then (k, v) :: d' else (k', v') :: dict_set k v d'
  end.

Record audit_output : Type := {
  connectors_audited : list string;
  results : list (string * report);
  summary : summary_t
}.

(** [connectors and source_name not in connectors]: [None] and the empty
    list are both falsy. *)
Definition skip_connector (connectors : option (list string)) (source_name : string)
    : bool :=
  match connectors with
  | None => false
  | Some [] => false
  | Some l => negb (py_in source_name l)
  end.

(** The loop of [run_audit] over [self.connectors], threading
    [connectors_audited] and the [results] mapping. *)
Fixpoint audit_loop (cs : list DataConnector) (connectors : option (list string))
    (audited : list string) (res : list (string * report))
    : pyresult (list string * list (string * report)) :=
  match cs with
  | [] => Ok (audited, res)
  | connector :: cs' =>
      let source_name := get_source_name connector in
      if skip_connector connectors source_name then
        audit_loop cs' connectors audited res
      else
        r ← run_full_audit connector;
        audit_loop cs' connectors (audited ++ [source_name]) (dict_set source_name r res)
  end.

(** [AuditFramework.run_audit], for a framework holding [self_connectors]. *)
Definition run_audit (self_connectors : list DataConnector)
    (connectors : option (list string)) : pyresult audit_output :=
  '(audited, res) ← audit_loop self_connectors connectors [] [];
  Ok {| connectors_audited := audited;
        results := res;
        summary := _generate_summary res |}.

(** cli.py: the selection handed to [run_audit] by the [audit] command. *)
Definition cli_selection (connectors : list string) : option (list string) :=
  match connectors with
  | [] => None
  | _ => Some connectors
  end.

(** ** datetime, as the connectors use it

    A [datetime] is its wall-clock reading in microseconds since
    0001-01-01T00:00:00 together with its UTC offset (also in microseconds)
    when it is timezone-aware.  Ordering and subtraction between a naive and
    an aware value raise [TypeError], as in Python. *)

Record datetime : Type := {
  dt_wall : Z;
  dt_utcoffset : option Z
}.

Definition dt_compare (a b : datetime) : pyresult comparison :=
  match dt_utcoffset a, dt_utcoffset b with
  | None, None => Ok (dt_wall a ?= dt_wall b)%Z
  | Some oa, Some ob => Ok (dt_wall a - oa ?= dt_wall b - ob)%Z
  | _, _ => Raise TypeError
  end.

(** [a >= b] *)
Definition dt_ge (a b : datetime) : pyresult bool :=
  c ← dt_compare a b;
  Ok (match c with Lt => false | _ => true end).

(** [a > b] *)
Definition dt_gt (a b : datetime) : pyresult bool :=
  c ← dt_compare a b;
  Ok (match c with Gt => true | _ => false end).

(** [a - b], a timedelta in microseconds. *)
Definition dt_sub (a b : datetime) : pyresult Z :=
  match dt_utcoffset a, dt_utcoffset b with
  | None, None => Ok (dt_wall a - dt_wall b)%Z
  | Some oa, Some ob => Ok ((dt_wall a - oa) - (dt_wall b - ob))%Z
  | _, _ => Raise TypeError
  end.

(** [timedelta.total_seconds()].  Python returns the double nearest to
    microseconds / 10^6; the model keeps that quotient itself, unreduced.
    The two are the same number when the quotient is a double, as for a
    whole number of seconds below 2^53; in general a statement about
    [total_seconds d] speaks of the quotient the double is nearest to. *)
Definition total_seconds (td : Z) : Q := Qmake td 1000000.

(** [s.replace('Z', '+00:00')] *)
Fixpoint replace_Z (s : string) : string :=
  match s with
  | EmptyString => EmptyString
  | String c s' =>
      if Ascii.eqb c "Z" then "+00:00" +:+ replace_Z s'
      else String c (replace_Z s')
  end.

(** The text of a truthy cell: what an [if value:] guard lets through. *)
Definition as_text (v : pyval) : option string :=
  match v with
  | PStr s => if truthy v then Some s else None
  | PNone => None
  end.

(** [a / b] on integers.  Python returns the double nearest to the
    quotient; the model keeps the quotient itself, unreduced, and nothing is
    stated about its value. *)
Definition py_div (a b : nat) : pyresult Q :=
  match b with
  | O => Raise ZeroDivisionError
  | S _ => Ok (Qmake (Z.of_nat a) (Pos.of_nat b))
  end.

(** [', '.join(l)] *)
Definition join (sep : string) (l : list string) : string := String.concat sep l.

(** [bool(l)] for a list. *)
Definition nonempty {A : Type} (l : list A) : bool :=
  match l with [] => false | _ => true end.

(** ** The file system seen by the CSV connectors *)

Record csv_file : Type := {
  st_size : nat;
  rows : list (gmap string pyval)
}.

(** A connector instance: [self.csv_path] and [self.data]. *)
Record csv_connector : Type := {
  csv_path : pyval;
  data : list (gmap string pyval)
}.

(** [_load_data]: the rows of the file, or nothing when no path is
    configured or the file does not exist. *)
Definition _load_data (fs : string -> option csv_file) (path : pyval)
    : list (gmap string pyval) :=
  match as_text path with
  | None => []
  | Some p =>
      match fs p with
      | None => []
      | Some f => rows f
      end
  end.

(** [__init__]: [config.get("csv_path") if config else None], then load. *)
Definition __init__ (fs : string -> option csv_file) (path : pyval) : csv_connector :=
  {| csv_path := path; data := _load_data fs path |}.

(** ** connectors/local_csv_match_results.py *)

Module LocalCSVMatchResults.
Section Connector.

(** [datetime.fromisoformat]: [None] stands for [ValueError]. *)
Variable fromisoformat : string -> option datetime.
(** [datetime.utcnow()], a naive wall-clock reading. *)
Variable now : Z.
(** [str(set(l))], whose element order Python leaves to the hash seed. *)
Variable repr_set : list string -> string.
(** The files present when the connector is asked. *)
Variable fs : string -> option csv_file.

Definition get_source_name : string := "local_csv_match_results".

Definition check_availability (self : csv_connector) : pyresult check_result :=
  match as_text (csv_path self) with
  | None =>
      Ok {| status := value NOT_AVAILABLE;
            issues := ["No CSV path configured"];
            checks := ∅ |}
  | Some p =>
      match fs p with
      | None =>
          Ok {| status := value NOT_AVAILABLE;
                issues := ["CSV file not found: " +:+ p];
                checks := ∅ |}
      | Some f =>
          Ok {| status := value PASS;
                issues := [];
                checks := <["file_size_bytes" := DNat (st_size f)]>
                          (<["records_loaded" := DNat (length (data self))]>
                          (<["csv_path" := DStr p]> ∅)) |}
      end
  end.

Definition required_fields : list string :=
  ["match_id"; "date"; "tournament"; "circuit";
   "player1"; "player2"; "score"; "winner";
   "match_start_time"; "available_at"].

Definition valid_circuits : list string := ["ATP"; "Challenger"; "ITF"].

(** [any(not row.get(field) for field in required_fields)] *)
Definition incomplete (fields : list string) (row : gmap string pyval) : bool :=
  existsb (fun field => negb (truthy (get row field))) fields.

(** [[f for f in required_fields if f not in first_row]] *)
Definition missing_in (fields : list string) (first_row : gmap string pyval)
    : list string :=
  List.filter (fun f => negb (bool_decide (is_Some (first_row !! f)))) fields.

(** The circuit a row contributes to [invalid_circuits], if any. *)
Definition invalid_circuit (row : gmap string pyval) : option string :=
  match default (PStr "") (row !! "circuit") with
  | PStr circuit =>
      if truthy (PStr circuit) && negb (py_in circuit valid_circuits)
      then Some circuit else None
  | PNone => None
  end.

Definition audit_data_quality (self : csv_connector) : pyresult check_result :=
  if negb (nonempty (data self)) then
    Ok {| status := value NOT_AVAILABLE;
          issues := ["No data loaded"];
          checks := ∅ |}
  else
    let missing_fields :=
      match data self with
      | first_row :: _ => missing_in required_fields first_row
      | [] => []
      end in
    let checks1 : gmap string detail :=
      <["required_fields" :=
          DRequiredFields required_fields missing_fields
            (if nonempty missing_fields then "fail" else "pass")]> ∅ in
    if nonempty missing_fields then
      Ok {| status := value FAIL;
            issues := ["Missing required fields: " +:+ join ", " missing_fields];
            checks := checks1 |}
    else
      (* completeness *)
      let incomplete_count :=
        length (List.filter (incomplete required_fields) (data self)) in
      rate ← py_div (length (data self) - incomplete_count) (length (data self));
      let checks2 :=
        <["completeness" :=
            DCompleteness (length (data self))
              (length (data self) - incomplete_count) incomplete_count rate]>
          checks1 in
      let st1 := if (0 <? incomplete_count)%nat then value WARNING else value PASS in
      let issues1 :=
        if (0 <? incomplete_count)%nat
        then ["Found " +:+ pretty incomplete_count +:+ " incomplete records"]
        else [] in
      (* duplicates *)
      let match_ids := map (fun row => get row "match_id") (data self) in
      let unique_ids := remove_dups match_ids in
      let duplicate_count := (length match_ids - length unique_ids)%nat in
      let checks3 :=
        <["duplicates" :=
            DDuplicates (length (data self)) (length unique_ids) duplicate_count]>
          checks2 in
      let st2 := if (0 <? duplicate_count)%nat then value WARNING else st1 in
      let issues2 :=
        if (0 <? duplicate_count)%nat
        then issues1 ++ ["Found " +:+ pretty duplicate_count +:+ " duplicate match IDs"]
        else issues1 in
      (* circuit values *)
      let invalid_circuits := omap invalid_circuit (data self) in
      let st3 := if nonempty invalid_circuits then value WARNING else st2 in
      let issues3 :=
        if nonempty invalid_circuits
        then issues2 ++ ["Found invalid circuit values: " +:+ repr_set invalid_circuits]
        else issues2 in
      Ok {| status := st3; issues := issues3; checks := checks3 |}.

(** [datetime.fromisoformat(s.replace('Z', '+00:00'))] *)
Definition parse (s : string) : option datetime := fromisoformat (replace_Z s).

(** The format check of one field: the entry appended to
    [invalid_timestamps] when a truthy cell does not parse. *)
Definition format_error (match_id : pyval) (field : string) (v : pyval)
    : list string :=
  match as_text v with
  | Some s =>
      match parse s with
      | Some _ => []
      | None => [py_str match_id +:+ ": invalid " +:+ field]
      end
  | None => []
  end.

(** The ordering check of one row; [ValueError] is swallowed, so an
    unparsable cell yields no entry. *)
Definition ordering_error (match_id match_start available_at : pyval)
    : pyresult (list string) :=
  match as_text match_start, as_text available_at with
  | Some ms, Some av =>
      match parse ms with
      | None => Ok []
      | Some start_dt =>
          match parse av with
          | None => Ok []
          | Some avail_dt =>
              later ← dt_gt avail_dt start_dt;
              Ok (if later : bool
                  then [py_str match_id +:+ ": available_at after match_start_time"]
                  else [])
          end
      end
  | _, _ => Ok []
  end.

(** The body of [for row in self.data] in [check_timestamps]. *)
Definition timestamps_row (acc : list string * list string)
    (row : gmap string pyval) : pyresult (list string * list string) :=
  let '(invalid_timestamps, out_of_order) := acc in
  let match_id := get row "match_id" in
  let match_start := get row "match_start_time" in
  let available_at := get row "available_at" in
  let invalid_timestamps :=
    invalid_timestamps ++ format_error match_id "match_start_time" match_start in
  let invalid_timestamps :=
    invalid_timestamps ++ format_error match_id "available_at" available_at in
  late ← ordering_error match_id match_start available_at;
  Ok (invalid_timestamps, out_of_order ++ late).

Fixpoint timestamps_loop (rows : list (gmap string pyval))
    (acc : list string * list string) : pyresult (list string * list string) :=
  match rows with
  | [] => Ok acc
  | row :: rows' =>
      acc' ← timestamps_row acc row;
      timestamps_loop rows' acc'
  end.

Definition check_timestamps (self : csv_connector) : pyresult check_result :=
  if negb (nonempty (data self)) then
    Ok {| status := value NOT_AVAILABLE;
          issues := ["No data loaded"];
          checks := ∅ |}
  else
    '(invalid_timestamps, out_of_order) ← timestamps_loop (data self) ([], []);
    let checks2 : gmap string detail :=
      <["temporal_ordering" :=
          DOrdering (length out_of_order) (take 5 out_of_order)]>
      (<["timestamp_format" :=
          DInvalid (length invalid_timestamps) (take 5 invalid_timestamps)]> ∅) in
    let st1 := if nonempty invalid_timestamps then value FAIL else value PASS in
    let issues1 :=
      if nonempty invalid_timestamps
      then ["Found " +:+ pretty (length invalid_timestamps) +:+ " invalid timestamps"]
      else [] in
    let st2 := if nonempty out_of_order then value WARNING else st1 in
    let issues2 :=
      if nonempty out_of_order
      then issues1 ++ ["Found " +:+ pretty (length out_of_order)
                       +:+ " records with temporal ordering issues"]
      else issues1 in
    Ok {| status := st2; issues := issues2; checks := checks2 |}.

(** The match id a row contributes to [future_dates], if any. *)
Definition future_row (row : gmap string pyval) : option pyval :=
  match as_text (get row "match_start_time") with
  | Some ms =>
      match parse ms with
      | Some start_dt =>
          if (now <? dt_wall start_dt)%Z then Some (get row "match_id") else None
      | None => None
      end
  | None => None
  end.

Definition detect_leakage (self : csv_connector) : pyresult check_result :=
  if negb (nonempty (data self)) then
    Ok {| status := value NOT_AVAILABLE;
          issues := ["No data loaded"];
          checks := ∅ |}
  else
    let future_dates := omap future_row (data self) in
    let checks1 : gmap string detail :=
      <["future_dates" := DFuture (length future_dates) (take 5 future_dates)]> ∅ in
    if nonempty future_dates then
      Ok {| status := value FAIL;
            issues := ["CRITICAL: Found " +:+ pretty (length future_dates)
                       +:+ " future-dated matches"];
            checks := checks1 |}
    else
      Ok {| status := value PASS; issues := []; checks := checks1 |}.

End Connector.
End LocalCSVMatchResults.

(** ** connectors/local_csv_odds.py *)

Module LocalCSVOdds.
Section Connector.

(** [datetime.fromisoformat]: [None] stands for [ValueError]. *)
Variable fromisoformat : string -> option datetime.
(** [float(s) < 1.0]: [None] stands for the [ValueError] of [float(s)]. *)
Variable float_lt_one : string -> option bool.
(** The files present when the connector is asked. *)
Variable fs : string -> option csv_file.

Definition get_source_name : string := "local_csv_odds".

(** [len(set(row.get("match_id") for row in self.data if row.get("match_id")))] *)
Definition unique_matches (rows : list (gmap string pyval)) : nat :=
  length (remove_dups
    (map (fun row => get row "match_id")
         (List.filter (fun row => truthy (get row "match_id")) rows))).

Definition check_availability (self : csv_connector) : pyresult check_result :=
  match as_text (csv_path self) with
  | None =>
      Ok {| status := value NOT_AVAILABLE;
            issues := ["No CSV path configured"];
            checks := ∅ |}
  | Some p =>
      match fs p with
      | None =>
          Ok {| status := value NOT_AVAILABLE;
                issues := ["CSV file not found: " +:+ p];
                checks := ∅ |}
      | Some f =>
          Ok {| status := value PASS;
                issues := [];
                checks := <["unique_matches" := DNat (unique_matches (data self))]>
                          (<["file_size_bytes" := DNat (st_size f)]>
                          (<["records_loaded" := DNat (length (data self))]>
                          (<["csv_path" := DStr p]> ∅))) |}
      end
  end.

Definition required_fields : list string :=
  ["match_id"; "snapshot_timestamp"; "player1_odds"; "player2_odds";
   "bookmaker"; "available_at"; "match_start_time"].

Definition incomplete (fields : list string) (row : gmap string pyval) : bool :=
  existsb (fun field => negb (truthy (get row field))) fields.

Definition missing_in (fields : list string) (first_row : gmap string pyval)
    : list string :=
  List.filter (fun f => negb (bool_decide (is_Some (first_row !! f)))) fields.

(** [float(row.get(k, 0)) < 1.0]: an absent key gives [float(0)], a [None]
    cell raises [TypeError] and a bad numeral [ValueError]; both are
    caught together, hence one [None]. *)
Definition odds_lt_one (row : gmap string pyval) (k : string) : option bool :=
  match row !! k with
  | None => Some true
  | Some PNone => None
  | Some (PStr s) => float_lt_one s
  end.

(** What one row appends to [invalid_odds]. *)
Definition invalid_odds_row (row : gmap string pyval) : list string :=
  let match_id := get row "match_id" in
  match odds_lt_one row "player1_odds", odds_lt_one row "player2_odds" with
  | Some p1, Some p2 =>
      (if p1 : bool then [py_str match_id +:+ ": player1_odds < 1.0"] else [])
      ++ (if p2 : bool then [py_str match_id +:+ ": player2_odds < 1.0"] else [])
  | _, _ => [py_str match_id +:+ ": invalid odds format"]
  end.

Definition audit_data_quality (self : csv_connector) : pyresult check_result :=
  if negb (nonempty (data self)) then
    Ok {| status := value NOT_AVAILABLE;
          issues := ["No data loaded"];
          checks := ∅ |}
  else
    let missing_fields :=
      match data self with
      | first_row :: _ => missing_in required_fields first_row
      | [] => []
      end in
    let checks1 : gmap string detail :=
      <["required_fields" :=
          DRequiredFields required_fields missing_fields
            (if nonempty missing_fields then "fail" else "pass")]> ∅ in
    if nonempty missing_fields then
      Ok {| status := value FAIL;
            issues := ["Missing required fields: " +:+ join ", " missing_fields];
            checks := checks1 |}
    else
      (* completeness *)
      let incomplete_count :=
        length (List.filter (incomplete required_fields) (data self)) in
      rate ← (if nonempty (data self)
              then py_div (length (data self) - incomplete_count) (length (data self))
              else Ok (Qmake 0 1));
      let checks2 :=
        <["completeness" :=
            DCompleteness (length (data self))
              (length (data self) - incomplete_count) incomplete_count rate]>
          checks1 in
      let st1 := if (0 <? incomplete_count)%nat then value WARNING else value PASS in
      let issues1 :=
        if (0 <? incomplete_count)%nat
        then ["Found " +:+ pretty incomplete_count +:+ " incomplete snapshots"]
        else [] in
      (* odds values *)
      let invalid_odds := concat (map invalid_odds_row (data self)) in
      let checks3 :=
        <["odds_validity" := DInvalid (length invalid_odds) (take 5 invalid_odds)]>
          checks2 in
      let st2 := if nonempty invalid_odds then value WARNING else st1 in
      let issues2 :=
        if nonempty invalid_odds
        then issues1 ++ ["Found " +:+ pretty (length invalid_odds)
                         +:+ " invalid odds values"]
        else issues1 in
      Ok {| status := st2; issues := issues2; checks := checks3 |}.

(** [datetime.fromisoformat(s.replace('Z', '+00:00'))], raising. *)
Definition parse (s : string) : pyresult datetime :=
  match fromisoformat (replace_Z s) with
  | Some d => Ok d
  | None => Raise ValueError
  end.

(** What one row appends to [invalid_timestamps]. *)
Definition format_errors (row : gmap string pyval) : list string :=
  let match_id := get row "match_id" in
  concat (map (fun '(field, v) =>
                 match as_text v with
                 | Some s =>
                     match parse s with
                     | Ok _ => []
                     | Raise _ => [py_str match_id +:+ ": invalid " +:+ field]
                     end
                 | None => []
                 end)
              [("snapshot_timestamp", get row "snapshot_timestamp");
               ("available_at", get row "available_at");
               ("match_start_time", get row "match_start_time")]).

Definition check_timestamps (self : csv_connector) : pyresult check_result :=
  if negb (nonempty (data self)) then
    Ok {| status := value NOT_AVAILABLE;
          issues := ["No data loaded"];
          checks := ∅ |}
  else
    let invalid_timestamps := concat (map format_errors (data self)) in
    let checks1 : gmap string detail :=
      <["timestamp_format" :=
          DInvalid (length invalid_timestamps) (take 5 invalid_timestamps)]> ∅ in
    if nonempty invalid_timestamps then
      Ok {| status := value FAIL;
            issues := ["Found " +:+ pretty (length invalid_timestamps)
                       +:+ " invalid timestamps"];
            checks := checks1 |}
    else
      Ok {| status := value PASS; issues := []; checks := checks1 |}.

(** First half of the [try] body: the [post_match_odds] entry of a row. *)
Definition post_match_entry (row : gmap string pyval) : pyresult (list violation) :=
  let match_id := get row "match_id" in
  let snapshot_ts := get row "snapshot_timestamp" in
  match as_text (get row "available_at"), as_text (get row "match_start_time") with
  | Some available_at, Some match_start =>
      avail_dt ← parse available_at;
      start_dt ← parse match_start;
      leaked ← dt_ge avail_dt start_dt;
      if leaked : bool then
        delay ← dt_sub avail_dt start_dt;
        Ok [ {| v_match_id := match_id;
                v_available_at := available_at;
                v_match_start_time := match_start;
                v_snapshot_timestamp := snapshot_ts;
                v_delay_seconds := total_seconds delay |} ]
      else Ok []
  | _, _ => Ok []
  end.

(** Second half of the [try] body: the [late_snapshots] entry of a row. *)
Definition late_entry (row : gmap string pyval) : pyresult (list late_snapshot) :=
  let match_id := get row "match_id" in
  match as_text (get row "snapshot_timestamp"), as_text (get row "match_start_time") with
  | Some snapshot_ts, Some match_start =>
      snap_dt ← parse snapshot_ts;
      start_dt ← parse match_start;
      late ← dt_ge snap_dt start_dt;
      Ok (if late : bool
          then [ {| l_match_id := match_id;
                    l_snapshot_timestamp := snapshot_ts;
                    l_match_start_time := match_start |} ]
          else [])
  | _, _ => Ok []
  end.

(** The body of [for row in self.data]: the two halves run in one [try]
    whose handler swallows [ValueError] only; what the first half appended
    stays appended when the second one raises. *)
Definition leakage_row (acc : list violation * list late_snapshot)
    (row : gmap string pyval) : pyresult (list violation * list late_snapshot) :=
  let '(post_match_odds, late_snapshots) := acc in
  match post_match_entry row with
  | Raise ValueError => Ok (post_match_odds, late_snapshots)
  | Raise e => Raise e
  | Ok vs =>
      let post_match_odds := post_match_odds ++ vs in
      match late_entry row with
      | Raise ValueError => Ok (post_match_odds, late_snapshots)
      | Raise e => Raise e
      | Ok ls => Ok (post_match_odds, late_snapshots ++ ls)
      end
  end.

Fixpoint leakage_loop (rows : list (gmap string pyval))
    (acc : list violation * list late_snapshot)
    : pyresult (list violation * list late_snapshot) :=
  match rows with
  | [] => Ok acc
  | row :: rows' =>
      acc' ← leakage_row acc row;
      leakage_loop rows' acc'
  end.

Definition detect_leakage (self : csv_connector) : pyresult check_result :=
  if negb (nonempty (data self)) then
    Ok {| status := value NOT_AVAILABLE;
          issues := ["No data loaded"];
          checks := ∅ |}
  else
    '(post_match_odds, late_snapshots) ← leakage_loop (data self) ([], []);
    let checks2 : gmap string detail :=
      <["late_snapshots" :=
          DLate (length late_snapshots) (take 5 late_snapshots)]>
      (<["post_match_odds" :=
          DPostMatch (length post_match_odds) post_match_odds]> ∅) in
    let st1 := if nonempty post_match_odds then value FAIL else value PASS in
    let issues1 :=
      if nonempty post_match_odds
      then ["CRITICAL LEAKAGE DETECTED: " +:+ pretty (length post_match_odds)
            +:+ " odds snapshots have available_at >= match_start_time (look-ahead bias)"]
      else [] in
    let st2 :=
      if nonempty late_snapshots
      then (if negb (String.eqb st1 (value FAIL)) then value FAIL else st1)
      else st1 in
    let issues2 :=
      if nonempty late_snapshots
      then issues1 ++ ["CRITICAL LEAKAGE DETECTED: " +:+ pretty (length late_snapshots)
                       +:+ " odds snapshots have snapshot_timestamp >= match_start_time"]
      else issues1 in
    Ok {| status := st2; issues := issues2; checks := checks2 |}.

End Connector.
End LocalCSVOdds.

(** ** A reference reading of [datetime.fromisoformat]

    The fragment [YYYY-MM-DD?HH:MM:SS] with an optional [+HH:MM] / [-HH:MM]
    offset, [?] being any one character; every other string is refused.
    Python accepts more (a date alone, fractional seconds): such strings
    are outside the fragment and no written-out input uses them.  It serves
    to run the connectors on written-out timestamps; the general theorems
    hold for any [fromisoformat]. *)

Definition digit (c : ascii) : option Z :=
  let n := Z.of_nat (nat_of_ascii c) in
  if ((48 <=? n) && (n <=? 57))%Z then Some (n - 48)%Z else None.

Definition number (cs : list ascii) : option Z :=
  foldl (fun acc c => n ← acc; d ← digit c; Some (10 * n + d)%Z) (Some 0%Z) cs.

Definition is_leap (y : Z) : bool :=
  ((y mod 4 =? 0) && (negb (y mod 100 =? 0) || (y mod 400 =? 0)))%Z.

Definition days_in_month (y m : Z) : Z :=
  if (m =? 2)%Z then (if is_leap y then 29 else 28)%Z
  else if ((m =? 4) || (m =? 6) || (m =? 9) || (m =? 11))%Z then 30%Z
  else 31%Z.

Definition days_before_month (y m : Z) : Z :=
  foldl (fun acc k => (acc + days_in_month y (Z.of_nat k))%Z) 0%Z (seq 1 (Z.to_nat m - 1)).

Definition days_before_year (y : Z) : Z :=
  let p := (y - 1)%Z in (p * 365 + p / 4 - p / 100 + p / 400)%Z.

(** Microseconds from 0001-01-01T00:00:00 to the given wall-clock reading. *)
Definition wall_clock (y m d hh mm ss : Z) : Z :=
  ((((days_before_year y + days_before_month y m + (d - 1)) * 24 + hh) * 60 + mm)
     * 60 + ss) * 1000000.

Definition utc_offset (cs : list ascii) : option (option Z) :=
  match cs with
  | [] => Some None
  | [sg; h1; h2; col; m1; m2] =>
      h ← number [h1; h2];
      m ← number [m1; m2];
      sign ← (if Ascii.eqb sg "+" then Some 1%Z
              else if Ascii.eqb sg "-" then Some (-1)%Z else None);
      if (Ascii.eqb col ":" && (h <? 24) && (m <? 60))%Z
      then Some (Some (sign * ((h * 60 + m) * 60 * 1000000))%Z)
      else None
  | _ => None
  end.

Definition fromisoformat_model (s : string) : option datetime :=
  match list_ascii_of_string s with
  | y1 :: y2 :: y3 :: y4 :: da1 :: m1 :: m2 :: da2 :: d1 :: d2 :: _ ::
    h1 :: h2 :: c1 :: mi1 :: mi2 :: c2 :: s1 :: s2 :: tz =>
      y ← number [y1; y2; y3; y4];
      m ← number [m1; m2];
      d ← number [d1; d2];
      hh ← number [h1; h2];
      mm ← number [mi1; mi2];
      ss ← number [s1; s2];
      off ← utc_offset tz;
      if (Ascii.eqb da1 "-" && Ascii.eqb da2 "-" && Ascii.eqb c1 ":" && Ascii.eqb c2 ":"
          && (1 <=? y) && (1 <=? m) && (m <=? 12) && (1 <=? d)
          && (d <=? days_in_month y m) && (hh <? 24) && (mm <? 60) && (ss <? 60))%Z
      then Some {| dt_wall := wall_clock y m d hh mm ss; dt_utcoffset := off |}
      else None
  | _ => None
  end.

(** ** The two CSV connectors as [DataConnector]s *)

Definition local_csv_match_results (fromisoformat : string -> option datetime)
    (now : Z) (repr_set : list string -> string) (fs : string -> option csv_file)
    (self : csv_connector) : DataConnector :=
  Build_DataConnector
    LocalCSVMatchResults.get_source_name
    (LocalCSVMatchResults.check_availability fs self)
    (LocalCSVMatchResults.audit_data_quality repr_set self)
    (LocalCSVMatchResults.check_timestamps fromisoformat self)
    (LocalCSVMatchResults.detect_leakage fromisoformat now self).

Definition local_csv_odds (fromisoformat : string -> option datetime)
    (float_lt_one : string -> option bool) (fs : string -> option csv_file)
    (self : csv_connector) : DataConnector :=
  Build_DataConnector
    LocalCSVOdds.get_source_name
    (LocalCSVOdds.check_availability fs self)
    (LocalCSVOdds.audit_data_quality float_lt_one self)
    (LocalCSVOdds.check_timestamps fromisoformat self)
    (LocalCSVOdds.detect_leakage fromisoformat self).

(** ** The specification's vocabulary *)

(** Severity under the precedence FAIL > WARNING > NOT_AVAILABLE > PASS. *)
Definition severity (s : AuditStatus) : nat :=
  match s with
  | PASS => 0
  | NOT_AVAILABLE => 1
  | WARNING => 2
  | FAIL => 3
  end.

Definition worse (a b : AuditStatus) : AuditStatus :=
  if (severity a <? severity b)%nat then b else a.

(** The maximum of four statuses under the precedence. *)
Definition worst4 (a b c d : AuditStatus) : AuditStatus :=
  worse (worse (worse a b) c) d.

(** The conditions under which each of the four branches of the rollup is
    the one taken, in the order of the chain. *)
Definition branch_taken (statuses : list string) : list bool :=
  let f := py_in (value FAIL) statuses in
  let w := py_in (value WARNING) statuses in
  let n := py_in (value NOT_AVAILABLE) statuses in
  [f; negb f && w; negb f && negb w && n; negb f && negb w && negb n].

Definition branch_status : list AuditStatus := [FAIL; WARNING; NOT_AVAILABLE; PASS].

(** A connector whose four checks return the given statuses. *)
Definition connector_with (name : string) (a q t l : check_result) : DataConnector :=
  Build_DataConnector name (Ok a) (Ok q) (Ok t) (Ok l).

(** The issues of one report in check-type order, rendered by [fmt]. *)
Definition issues_of (fmt : string -> string -> string) (result : report) : list string :=
  flat_map (fun check_type =>
              match r_checks result !! check_type with
              | Some c => map (fmt check_type) (issues c)
              | None => []
              end) check_types.

Definition is_failed (result : report) : bool :=
  String.eqb (default "unknown" (overall_status result)) "fail".

(** [all_issues] as the specification words it: sources in iteration
    order, then check types in the fixed order, then issues in order. *)
Definition expected_all_issues (audit_results : list (string * report)) : list string :=
  flat_map (fun item => issues_of (issue_entry item.1) item.2) audit_results.

(** [critical_issues] as the specification words it: the same order,
    restricted to the sources whose overall status is FAIL. *)
Definition expected_critical_issues (audit_results : list (string * report))
    : list string :=
  flat_map (fun item =>
              if is_failed item.2 then issues_of (critical_entry item.1) item.2 else [])
           audit_results.

(** The number of issues a report carries over its four checks. *)
Definition issue_count (result : report) : nat :=
  length (issues_of (fun _ issue => issue) result).

(** The reports of a list of connectors, in order; the first exception
    wins. *)
Fixpoint reports_of (cs : list DataConnector) : pyresult (list (string * report)) :=
  match cs with
  | [] => Ok []
  | c :: cs' =>
      r ← run_full_audit c;
      rs ← reports_of cs';
      Ok ((get_source_name c, r) :: rs)
  end.

(** Storing a sequence of items into a dictionary, one after the other. *)
Definition dict_store {V : Type} (d : list (string * V)) (items : list (string * V))
    : list (string * V) :=
  foldl (fun d item => dict_set item.1 item.2 d) d items.

(** The connectors a selection keeps. *)
Definition kept (connectors : option (list string)) (cs : list DataConnector)
    : list DataConnector :=
  List.filter (fun c => negb (skip_connector connectors (get_source_name c))) cs.

(** The post-match violations and the late snapshots a leakage result
    reports. *)
Definition post_match_violations (r : check_result) : list violation :=
  match checks r !! "post_match_odds" with
  | Some (DPostMatch _ vs) => vs
  | _ => []
  end.

Definition late_snapshot_count (r : check_result) : nat :=
  match checks r !! "late_snapshots" with
  | Some (DLate n _) => n
  | _ => 0%nat
  end.

(** What one row adds to [post_match_odds] and to [late_snapshots] when the
    loop goes past it. *)
Definition row_post (fromisoformat : string -> option datetime)
    (row : gmap string pyval) : list violation :=
  match LocalCSVOdds.post_match_entry fromisoformat row with
  | Ok vs => vs
  | Raise _ => []
  end.

Definition row_late (fromisoformat : string -> option datetime)
    (row : gmap string pyval) : list late_snapshot :=
  match LocalCSVOdds.post_match_entry fromisoformat row with
  | Ok _ =>
      match LocalCSVOdds.late_entry fromisoformat row with
      | Ok ls => ls
      | Raise _ => []
      end
  | Raise _ => []
  end.

(** A cell that holds text [datetime.fromisoformat] refuses. *)
Definition malformed (fromisoformat : string -> option datetime) (v : pyval) : Prop :=
  exists s, as_text v = Some s /\ fromisoformat (replace_Z s) = None.

(** Every timestamp of the rows that parses is timezone-aware, or every one
    is naive: no comparison mixes the two kinds. *)
Definition uniform_awareness (fromisoformat : string -> option datetime)
    (rows : list (gmap string pyval)) : Prop :=
  exists aware : bool,
    forall row field s d,
      row ∈ rows -> as_text (get row field) = Some s ->
      fromisoformat (replace_Z s) = Some d ->
      bool_decide (is_Some (dt_utcoffset d)) = aware.

(** ** Written-out inputs *)

(** A check that found nothing to report. *)
Definition passing : check_result :=
  {| status := value PASS; issues := []; checks := ∅ |}.

(** Two sources that audit cleanly, under the names of two of the
    framework's connectors. *)
Definition two_connectors : list DataConnector :=
  [connector_with "match_results" passing passing passing passing;
   connector_with "pre_match_odds" passing passing passing passing].

(** The two records of the end-to-end scenario. *)
Definition R1 : gmap string pyval :=
  <["match_id" := PStr "R1"]>
  (<["available_at" := PStr "2024-01-01T10:00:00Z"]>
  (<["match_start_time" := PStr "2024-01-01T12:00:00Z"]> ∅)).

Definition R2 : gmap string pyval :=
  <["match_id" := PStr "R2"]>
  (<["available_at" := PStr "2024-01-01T13:00:00Z"]>
  (<["match_start_time" := PStr "2024-01-01T12:00:00Z"]> ∅)).

(** A record that leaked and whose snapshot timestamp is not a timestamp. *)
Definition R3 : gmap string pyval :=
  <["match_id" := PStr "R3"]>
  (<["snapshot_timestamp" := PStr "not-a-time"]>
  (<["available_at" := PStr "2024-01-01T13:00:00Z"]>
  (<["match_start_time" := PStr "2024-01-01T12:00:00Z"]> ∅))).

(** A record available at the very second its match starts, and one
    available a second earlier. *)
Definition on_the_start : gmap string pyval :=
  <["match_id" := PStr "B0"]>
  (<["available_at" := PStr "2024-01-01T12:00:00Z"]>
  (<["match_start_time" := PStr "2024-01-01T12:00:00Z"]> ∅)).

Definition one_second_early : gmap string pyval :=
  <["match_id" := PStr "B1"]>
  (<["available_at" := PStr "2024-01-01T11:59:59Z"]>
  (<["match_start_time" := PStr "2024-01-01T12:00:00Z"]> ∅)).

(** Match results: one row with an unreadable availability timestamp, one
    made available an hour after its match started. *)
Definition unreadable_row : gmap string pyval :=
  <["match_id" := PStr "M1"]>
  (<["match_start_time" := PStr "2024-01-01T12:00:00Z"]>
  (<["available_at" := PStr "yesterday"]> ∅)).

Definition late_row : gmap string pyval :=
  <["match_id" := PStr "M2"]>
  (<["match_start_time" := PStr "2024-01-01T12:00:00Z"]>
  (<["available_at" := PStr "2024-01-01T13:00:00Z"]> ∅)).

(** A connector over given rows, whatever its path. *)
Definition with_rows (rows : list (gmap string pyval)) : csv_connector :=
  {| csv_path := PStr "data.csv"; data := rows |}.

(** A file system holding one CSV file that has a header and no record. *)
Definition header_only_fs (p : string) : option csv_file :=
  if String.eqb p "data/empty.csv" then Some {| st_size := 64; rows := [] |} else None.

(** A row that lacks most of the required columns. *)
Definition short_row : gmap string pyval :=
  <["match_id" := PStr "M1"]> (<["available_at" := PStr "2024-01-01T10:00:00Z"]> ∅).

(** ** audit.py: looking connectors up *)

(** [get_connector]: the first connector that answers to the name. *)
Fixpoint get_connector (self_connectors : list DataConnector) (source_name : string)
    : option DataConnector :=
  match self_connectors with
  | [] => None
  | connector :: rest =>
      if String.eqb (get_source_name connector) source_name then Some connector
      else get_connector rest source_name
  end.

Definition list_connectors (self_connectors : list DataConnector) : list string :=
  map get_source_name self_connectors.

(** ** cli.py: the exit code of the [audit] command *)

(** The closing if/elif of [audit], on the summary of the run. *)
Definition exit_code (summary : summary_t) : nat :=
  if (0 <? failed summary)%nat then 1%nat
  else if (0 <? warnings summary)%nat then 0%nat
  else 0%nat.

(** [audit] from the run on, for a framework that was constructed: an
    exception of [run_audit] or of the report generation is caught and the
    process exits with 1.  The steps before the run are in [audit] below. *)
Definition audit_command (self_connectors : list DataConnector)
    (connectors : list string) (reports_generated : bool) : nat :=
  match run_audit self_connectors (cli_selection connectors) with
  | Raise _ => 1%nat
  | Ok audit_results =>
      if reports_generated then exit_code (summary audit_results) else 1%nat
  end.

(** ** reports: the CSV report *)

Definition csv_header : list string :=
  ["Source"; "Overall Status"; "Availability Status"; "Data Quality Status";
   "Timestamps Status"; "Leakage Check Status"; "Issues"].

(** [for check_type in [...]: if check_type in result:
    issues.extend(result[check_type].get("issues", []))] *)
Definition csv_issues (result : report) : list string :=
  fold_left
    (fun issues_acc check_type =>
       match r_checks result !! check_type with
       | Some c => issues_acc ++ issues c
       | None => issues_acc
       end)
    check_types [].

(** [result.get(check_type, {}).get("status", "unknown")] *)
Definition csv_status (result : report) (check_type : string) : string :=
  match r_checks result !! check_type with
  | Some c => status c
  | None => "unknown"
  end.

(** The row written for one source. *)
Definition csv_row (item : string * report) : list string :=
  let '(src, result) := item in
  let issues_acc := csv_issues result in
  [src;
   default "unknown" (overall_status result);
   csv_status result "availability";
   csv_status result "data_quality";
   csv_status result "timestamps";
   csv_status result "leakage_check";
   if nonempty issues_acc then join "; " issues_acc else "None"].

(** [_write_csv]: the rows handed to the writer, in order. *)
Definition _write_csv (audit_results : audit_output) : list (list string) :=
  fold_left (fun written item => written ++ [csv_row item])
            (results audit_results) [csv_header].

(** [generate_reports]: the mapping from format to the path written, the CSV
    file name carrying the time of the call. *)
Definition generate_reports (output_dir : string) (formats : option (list string))
    (timestamp : string) : list (string * string) :=
  let formats := default ["json"; "csv"; "markdown"] formats in
  fold_left
    (fun generated_reports fmt =>
       if String.eqb fmt "json" then
         dict_set "json" (output_dir +:+ "/audit_summary.json") generated_reports
       else if String.eqb fmt "csv" then
         dict_set "csv" (output_dir +:+ "/audit_report_" +:+ timestamp +:+ ".csv")
                  generated_reports
       else if String.eqb fmt "markdown" then
         dict_set "markdown" (output_dir +:+ "/audit_report.md") generated_reports
       else generated_reports)
    formats [].

(** ** utils/config.py: merge_configs *)

(** A configuration value: a dictionary, or anything else. *)
#[warnings="-register-all"]
Inductive config (A : Type) : Type :=
  | CLeaf (a : A)
  | CDict (items : list (string * config A)).
Arguments CLeaf {A} a.
Arguments CDict {A} items.

(** [d.get(k)] on an insertion-ordered dictionary. *)
Fixpoint dict_get {V : Type} (k : string) (d : list (string * V)) : option V :=
  match d with
  | [] => None
  | (k', v) :: d' => if String.eqb k' k then Some v else dict_get k d'
  end.

(** The recursion of [merge_configs], arranged on the value being merged in
    so that it is structural: [merge_value sub value] is
    [merge_configs(sub, value)] for a dictionary [value], the inner loop being
    [for key, value in override_config.items()] over [merged]. *)
Fixpoint merge_value {A : Type} (sub : list (string * config A)) (value : config A)
    {struct value} : config A :=
  match value with
  | CLeaf a => CLeaf a
  | CDict value_items =>
      CDict
        ((fix loop (merged override_config : list (string * config A))
              {struct override_config} : list (string * config A) :=
            match override_config with
            | [] => merged
            | (key, v) :: rest =>
                loop
                  match dict_get key merged, v with
                  | Some (CDict s), CDict _ => dict_set key (merge_value s v) merged
                  | _, _ => dict_set key v merged
                  end
                  rest
            end) sub value_items)
  end.

(** [merge_configs]: [merged] starts as the copy of the base and takes the
    items of the override one by one, merging dictionary into dictionary. *)
Definition merge_configs {A : Type} (base_config override_config : list (string * config A))
    : list (string * config A) :=
  match merge_value base_config (CDict override_config) with
  | CDict merged => merged
  | CLeaf _ => []
  end.

(** The keys of a dictionary, in order. *)
Definition keys {V : Type} (d : list (string * V)) : list string := map fst d.

(** The overall status the summary reads off a report. *)
Definition read_status (result : report) : string :=
  default "unknown" (overall_status result).

(** How many sources carry the given overall status. *)
Definition count_status (s : string) (audit_results : list (string * report)) : nat :=
  length (List.filter (fun item : string * report => String.eqb (read_status item.2) s)
                      audit_results).

(** How many sources carry none of the four statuses. *)
Definition count_unknown (audit_results : list (string * report)) : nat :=
  length (List.filter
            (fun item : string * report =>
               negb (py_in (read_status item.2)
                           [value PASS; value FAIL; value WARNING; value NOT_AVAILABLE]))
            audit_results).

(** The file a report format is written to. *)
Definition report_path (output_dir timestamp fmt : string) : string :=
  if String.eqb fmt "json" then output_dir +:+ "/audit_summary.json"
  else if String.eqb fmt "csv" then output_dir +:+ "/audit_report_" +:+ timestamp +:+ ".csv"
  else output_dir +:+ "/audit_report.md".

Definition known_formats : list string := ["json"; "csv"; "markdown"].

(** The scalar values the configuration files of the project hold. *)
Inductive yaml_leaf : Type :=
  | YNone
  | YStr (s : string)
  | YList (l : list string).

(** The two configurations of the project's own merge test. *)
Definition test_base : list (string * config yaml_leaf) :=
  [("match_results", CDict [("circuits", CLeaf (YList ["ATP"]));
                            ("data_path", CLeaf YNone)]);
   ("odds", CDict [("bookmakers", CLeaf (YList []))])].

Definition test_override : list (string * config yaml_leaf) :=
  [("match_results", CDict [("circuits", CLeaf (YList ["ATP"; "Challenger"]))]);
   ("venue", CDict [("data_path", CLeaf (YStr "/new/path"))])].

(** What [merge_configs] stores under a key the override holds. *)
Definition merged_value {A : Type} (old : option (config A)) (value : config A)
    : config A :=
  match old, value with
  | Some (CDict sub), CDict value_items => CDict (merge_configs sub value_items)
  | _, _ => value
  end.

(** A configuration whose dictionaries, at every level, have distinct
    keys: what a Python dictionary is. *)
#[warnings="-register-all"]
Inductive wf_config {A : Type} : config A -> Prop :=
  | wf_leaf (a : A) : wf_config (CLeaf a)
  | wf_dict (items : list (string * config A)) :
      NoDup (keys items) ->
      Forall (fun p : string * config A => wf_config p.2) items ->
      wf_config (CDict items).

(** The nesting depth of a configuration. *)
Fixpoint depth {A : Type} (c : config A) : nat :=
  match c with
  | CLeaf _ => 0
  | CDict items =>
      S (fold_right (fun (p : string * config A) acc => Nat.max (depth p.2) acc) 0 items)
  end.

(** The eight checks of the two CSV connectors on one connector state. *)
Definition csv_checks (fromisoformat : string -> option datetime) (now : Z)
    (repr_set : list string -> string) (float_lt_one : string -> option bool)
    (fs : string -> option csv_file) (self : csv_connector)
    : list (pyresult check_result) :=
  [LocalCSVMatchResults.check_availability fs self;
   LocalCSVMatchResults.audit_data_quality repr_set self;
   LocalCSVMatchResults.check_timestamps fromisoformat self;
   LocalCSVMatchResults.detect_leakage fromisoformat now self;
   LocalCSVOdds.check_availability fs self;
   LocalCSVOdds.audit_data_quality float_lt_one self;
   LocalCSVOdds.check_timestamps fromisoformat self;
   LocalCSVOdds.detect_leakage fromisoformat self].

(** A property of the result of a check, when the check returns. *)
Definition when_returned (P : check_result -> Prop) (check : pyresult check_result)
    : Prop :=
  match check with
  | Ok r => P r
  | Raise _ => True
  end.

(** A match-results record with every required column filled in. *)
Definition full_row : gmap string pyval :=
  <["match_id" := PStr "M1"]> (<["date" := PStr "2024-01-01"]>
  (<["tournament" := PStr "Open"]> (<["circuit" := PStr "ATP"]>
  (<["player1" := PStr "A"]> (<["player2" := PStr "B"]>
  (<["score" := PStr "6-4 6-4"]> (<["winner" := PStr "A"]>
  (<["match_start_time" := PStr "2024-01-01T12:00:00Z"]>
  (<["available_at" := PStr "2024-01-01T10:00:00Z"]> ∅))))))))).

(** ** Written-out inputs: a naive timestamp beside an aware one *)

(** A record whose availability timestamp carries no UTC offset while its
    reference time carries one. *)
Definition mixed_row : gmap string pyval :=
  <["match_id" := PStr "R4"]>
  (<["available_at" := PStr "2024-01-01T10:00:00"]>
  (<["match_start_time" := PStr "2024-01-01T12:00:00Z"]> ∅)).

(** The same record with a snapshot timestamp that is not a timestamp. *)
Definition mixed_malformed_row : gmap string pyval :=
  <["snapshot_timestamp" := PStr "not-a-time"]> mixed_row.

(** A record whose availability timestamp is not a timestamp while its
    snapshot was taken an hour after the match started. *)
Definition unreadable_availability_row : gmap string pyval :=
  <["match_id" := PStr "R5"]>
  (<["snapshot_timestamp" := PStr "2024-01-01T13:00:00Z"]>
  (<["available_at" := PStr "not-a-time"]>
  (<["match_start_time" := PStr "2024-01-01T12:00:00Z"]> ∅))).

(** ** Words of the specification about issues and cells *)

(** The issues a report holds for one check type; none when the report has
    no such check. *)
Definition issues_at (result : report) (check_type : string) : list string :=
  match r_checks result !! check_type with
  | Some c => issues c
  | None => []
  end.

(** A cell without a value: the column is absent, or the cell is [None] or
    the empty string. *)
Definition blank (row : gmap string pyval) (field : string) : bool :=
  match row !! field with
  | Some (PStr s) => String.eqb s ""
  | Some PNone => true
  | None => true
  end.

(** ** cli.py: the [audit] command in full

    The steps around the run can end the command as well.  [load_config]
    is tried when a configuration file is named and the construction of the
    framework is tried in any case, each under a handler that exits with 1:
    [config_loaded] is [false] when the former raised, [framework] is
    [None] when the latter did.  The lookup of the report formats in the
    configuration, with their display under [--verbose], stands outside
    every handler: [report_formats_read] is [false] when it raised, and the
    exception then ends the process, with exit status 1 as for any uncaught
    exception.  [reports_generated] is
    [false] when [generate_reports] raised. *)
Definition audit (config_loaded : bool) (framework : option (list DataConnector))
    (connectors : list string) (report_formats_read reports_generated : bool) : nat :=
  if config_loaded then
    match framework with
    | None => 1%nat
    | Some self_connectors =>
        match run_audit self_connectors (cli_selection connectors) with
        | Raise _ => 1%nat
        | Ok audit_results =>
            if report_formats_read then
              if reports_generated then exit_code (summary audit_results) else 1%nat
            else 1%nat
        end
    end
  else 1%nat.

(** * Properties *)

(** ** Source-level rollup (base.py) *)

Section Rollup.

Lemma py_in_spec (x : string) (l : list string) : py_in x l = true <-> x ∈ l.
Proof. unfold py_in. apply bool_decide_eq_true. Qed.

(** Whatever the statuses are (also strings outside the enumeration),
    one and only one branch of the chain is taken. *)
Lemma exactly_one_branch (statuses : list string) :
  exists i, branch_taken statuses !! i = Some true
    /\ forall j, branch_taken statuses !! j = Some true -> j = i.
Proof.
  unfold branch_taken.
  destruct (py_in (value FAIL) statuses),
           (py_in (value WARNING) statuses),
           (py_in (value NOT_AVAILABLE) statuses); simpl;
    first [ exists 0%nat; split; [reflexivity|]
          | exists 1%nat; split; [reflexivity|]
          | exists 2%nat; split; [reflexivity|]
          | exists 3%nat; split; [reflexivity|] ];
    intros [|[|[|[|j]]]] Hj; simpl in Hj;
    try rewrite lookup_nil in Hj; congruence.
Qed.

(** The branch taken is the one whose status is returned. *)
Lemma branch_decides (statuses : list string) (i : nat) :
  branch_taken statuses !! i = Some true ->
  value <$> (branch_status !! i) = Some (determine_overall_status statuses).
Proof.
  unfold branch_taken, determine_overall_status.
  destruct (py_in (value FAIL) statuses),
           (py_in (value WARNING) statuses),
           (py_in (value NOT_AVAILABLE) statuses);
    destruct i as [|[|[|[|i]]]]; simpl;
    try rewrite lookup_nil; congruence.
Qed.

Lemma value_inj (a b : AuditStatus) : value a = value b -> a = b.
Proof. destruct a, b; simpl; congruence. Qed.

Lemma worst4_upper (a b c d x : AuditStatus) :
  x ∈ [a; b; c; d] -> (severity x <= severity (worst4 a b c d))%nat.
Proof.
  intros Hx. repeat (apply elem_of_cons in Hx as [->|Hx]);
    try (by apply elem_of_nil in Hx);
    destruct a, b, c, d; vm_compute; lia.
Qed.

Lemma worst4_member (a b c d : AuditStatus) : worst4 a b c d ∈ [a; b; c; d].
Proof.
  destruct a, b, c, d; vm_compute;
    repeat first [ apply list_elem_of_here | apply list_elem_of_further ].
Qed.

Lemma rollup_worst4 (a b c d : AuditStatus) :
  determine_overall_status [value a; value b; value c; value d]
  = value (worst4 a b c d).
Proof. destruct a, b, c, d; vm_compute; reflexivity. Qed.

End Rollup.

(** C2. For each of the 256 combinations of four check statuses, the
    overall status computed by [run_full_audit] is the maximum of the four
    under FAIL > WARNING > NOT_AVAILABLE > PASS (it is one of the four and
    no other is more severe), and exactly one branch of the if/elif chain
    is taken, namely the one carrying that status. *)
Theorem rollup_is_maximum :
  forall a b c d : AuditStatus,
    let statuses := [value a; value b; value c; value d] in
    determine_overall_status statuses = value (worst4 a b c d)
    /\ worst4 a b c d ∈ [a; b; c; d]
    /\ (forall x, x ∈ [a; b; c; d] -> (severity x <= severity (worst4 a b c d))%nat)
    /\ (exists i, branch_taken statuses !! i = Some true
          /\ (forall j, branch_taken statuses !! j = Some true -> j = i)
          /\ branch_status !! i = Some (worst4 a b c d))
    /\ (forall name ia iq it il ka kq kt kl,
          overall_status <$>
            (match run_full_audit
                     (connector_with name
                        {| status := value a; issues := ia; checks := ka |}
                        {| status := value b; issues := iq; checks := kq |}
                        {| status := value c; issues := it; checks := kt |}
                        {| status := value d; issues := il; checks := kl |})
             with Ok r => Some r | Raise _ => None end)
          = Some (Some (value (worst4 a b c d)))).
Proof.
  intros a b c d statuses.
  split; [apply rollup_worst4|].
  split; [apply worst4_member|].
  split; [intros x; apply worst4_upper|].
  split.
  - destruct (exactly_one_branch statuses) as (i & Hi & Huniq).
    exists i. split; [exact Hi|]. split; [exact Huniq|].
    pose proof (branch_decides statuses i Hi) as Hd.
    unfold statuses in Hd. rewrite rollup_worst4 in Hd.
    destruct (branch_status !! i) as [s|]; simpl in Hd; [|discriminate].
    injection Hd as Hd. apply value_inj in Hd. by subst.
  - intros. simpl. by rewrite rollup_worst4.
Qed.

(** ** Run-level summary (audit.py) *)

Section Summary.

Lemma append_each {A : Type} (f : A -> string) (l : list A) (target : list string) :
  fold_left (fun target x => target ++ [f x]) l target = target ++ map f l.
Proof.
  revert target. induction l as [|x l IH]; intros target; simpl.
  - by rewrite app_nil_r.
  - rewrite IH. by rewrite <- app_assoc.
Qed.

Lemma append_issues_spec (fmt : string -> string -> string) (result : report)
    (target : list string) :
  append_issues fmt result target = target ++ issues_of fmt result.
Proof.
  unfold append_issues, issues_of.
  generalize check_types as cts. intros cts. revert target.
  induction cts as [|ct cts IH]; intros target; simpl.
  - by rewrite app_nil_r.
  - rewrite IH. destruct (r_checks result !! ct) as [c|].
    + rewrite append_each. by rewrite <- app_assoc.
    + reflexivity.
Qed.

Lemma step_all_issues (s : summary_t) (src : string) (r : report) :
  all_issues (summary_step s (src, r))
  = all_issues s ++ issues_of (issue_entry src) r.
Proof.
  unfold summary_step. simpl. rewrite append_issues_spec. f_equal.
  repeat (match goal with |- context [if ?b then _ else _] => destruct b end);
    reflexivity.
Qed.

Lemma step_critical_issues (s : summary_t) (src : string) (r : report) :
  critical_issues (summary_step s (src, r))
  = critical_issues s
    ++ (if is_failed r then issues_of (critical_entry src) r else []).
Proof.
  unfold summary_step, is_failed. simpl.
  destruct (String.eqb_spec (default "unknown" (overall_status r)) "pass") as [Hp|Hp].
  - rewrite Hp. simpl. by rewrite app_nil_r.
  - destruct (String.eqb (default "unknown" (overall_status r)) "fail"); simpl.
    + by rewrite append_issues_spec.
    + repeat (match goal with |- context [if ?b then _ else _] => destruct b end);
        simpl; by rewrite app_nil_r.
Qed.

Lemma fold_all_issues (l : list (string * report)) (s : summary_t) :
  all_issues (fold_left summary_step l s) = all_issues s ++ expected_all_issues l.
Proof.
  revert s. induction l as [|[src r] l IH]; intros s.
  - simpl. by rewrite app_nil_r.
  - cbn [fold_left]. rewrite IH, step_all_issues.
    unfold expected_all_issues. cbn [flat_map fst snd]. by rewrite <- app_assoc.
Qed.

Lemma fold_critical_issues (l : list (string * report)) (s : summary_t) :
  critical_issues (fold_left summary_step l s)
  = critical_issues s ++ expected_critical_issues l.
Proof.
  revert s. induction l as [|[src r] l IH]; intros s.
  - simpl. by rewrite app_nil_r.
  - cbn [fold_left]. rewrite IH, step_critical_issues.
    unfold expected_critical_issues. cbn [flat_map fst snd]. by rewrite <- app_assoc.
Qed.

Lemma summary_all_issues (audit_results : list (string * report)) :
  all_issues (_generate_summary audit_results) = expected_all_issues audit_results.
Proof. unfold _generate_summary. by rewrite fold_all_issues. Qed.

Lemma summary_critical_issues (audit_results : list (string * report)) :
  critical_issues (_generate_summary audit_results)
  = expected_critical_issues audit_results.
Proof. unfold _generate_summary. by rewrite fold_critical_issues. Qed.

(** Membership in the issues of one report. *)
Lemma elem_of_issues_of (fmt : string -> string -> string) (r : report) (e : string) :
  e ∈ issues_of fmt r <->
  exists check_type c issue,
    check_type ∈ check_types /\ r_checks r !! check_type = Some c
    /\ issue ∈ issues c /\ e = fmt check_type issue.
Proof.
  unfold issues_of. rewrite list_elem_of_In, in_flat_map. split.
  - intros (ct & Hct & He). destruct (r_checks r !! ct) as [c|] eqn:Hc.
    + apply in_map_iff in He as (issue & <- & Hi).
      exists ct, c, issue. rewrite !list_elem_of_In. done.
    + destruct He.
  - intros (ct & c & issue & Hct & Hc & Hi & ->).
    exists ct. split; [by apply list_elem_of_In|].
    rewrite Hc. apply in_map. by apply list_elem_of_In.
Qed.

Lemma is_failed_spec (r : report) :
  is_failed r = true <-> overall_status r = Some "fail".
Proof.
  unfold is_failed. rewrite String.eqb_eq.
  destruct (overall_status r) as [s|]; simpl; split; congruence.
Qed.

Lemma length_issues_of (fmt : string -> string -> string) (r : report) :
  length (issues_of fmt r) = issue_count r.
Proof.
  unfold issue_count, issues_of.
  induction check_types as [|ct cts IH]; simpl; [reflexivity|].
  rewrite !length_app, IH. f_equal.
  destruct (r_checks r !! ct); simpl; [by rewrite !length_map|reflexivity].
Qed.

End Summary.

(** The issues of a report, check type by check type, over the four
    check types written out. *)
Lemma issues_of_four_checks (fmt : string -> string -> string) (r : report) :
  issues_of fmt r
  = flat_map (fun check_type => map (fmt check_type) (issues_at r check_type))
             ["availability"; "data_quality"; "timestamps"; "leakage_check"].
Proof.
  unfold issues_of, check_types, issues_at. cbn [flat_map].
  by repeat (destruct (r_checks r !! _)).
Qed.

Lemma sum_list_flat_map {B C : Type} (f : B -> list C) (l : list B) :
  length (flat_map f l) = sum_list (map (fun x => length (f x)) l).
Proof.
  induction l as [|x l IH]; cbn [flat_map map sum_list]; [reflexivity|].
  by rewrite length_app, IH.
Qed.

(** C6. [critical_issues] holds an entry [source: issue] for every issue
    of every one of the four checks (availability, data_quality,
    timestamps, leakage_check) of every source whose overall status is
    FAIL, and nothing else: every entry comes from an issue one of those
    checks of a failing source reported, so a source that did not fail
    contributes none and a check without issues contributes none.  The
    entries are counted with their multiplicity: the list is the
    concatenation, over the failing sources, of the prefixed issues of their
    four checks. *)
Theorem critical_issues_complete :
  forall audit_results : list (string * report),
    (forall e : string,
        e ∈ critical_issues (_generate_summary audit_results) <->
        exists src result check_type c issue,
          (src, result) ∈ audit_results
          /\ overall_status result = Some (value FAIL)
          /\ check_type ∈ ["availability"; "data_quality"; "timestamps"; "leakage_check"]
          /\ r_checks result !! check_type = Some c
          /\ issue ∈ issues c
          /\ e = src +:+ ": " +:+ issue)
    /\ critical_issues (_generate_summary audit_results)
       = flat_map (fun item : string * report =>
                     if bool_decide (overall_status item.2 = Some (value FAIL))
                     then flat_map (fun check_type =>
                                      map (fun issue => item.1 +:+ ": " +:+ issue)
                                          (issues_at item.2 check_type))
                                   ["availability"; "data_quality"; "timestamps";
                                    "leakage_check"]
                     else [])
                  audit_results
    /\ length (critical_issues (_generate_summary audit_results))
       = sum_list (map (fun item : string * report =>
                          if bool_decide (overall_status item.2 = Some (value FAIL))
                          then (length (issues_at item.2 "availability")
                                + length (issues_at item.2 "data_quality")
                                + length (issues_at item.2 "timestamps")
                                + length (issues_at item.2 "leakage_check"))%nat
                          else 0%nat)
                       audit_results).
Proof.
  intros audit_results.
  assert (Hlist : critical_issues (_generate_summary audit_results)
                  = flat_map (fun item : string * report =>
                       if bool_decide (overall_status item.2 = Some (value FAIL))
                       then flat_map (fun check_type =>
                                        map (fun issue => item.1 +:+ ": " +:+ issue)
                                            (issues_at item.2 check_type))
                                     ["availability"; "data_quality"; "timestamps";
                                      "leakage_check"]
                       else [])
                    audit_results).
  { rewrite summary_critical_issues. unfold expected_critical_issues.
    apply flat_map_ext. intros [src r]. cbn [fst snd].
    rewrite issues_of_four_checks.
    destruct (is_failed r) eqn:Hf.
    - apply is_failed_spec in Hf. by rewrite bool_decide_eq_true_2.
    - rewrite bool_decide_eq_false_2; [reflexivity|].
      intros Hs. apply is_failed_spec in Hs. congruence. }
  split; [|split; [exact Hlist|]].
  - intros e. rewrite Hlist, list_elem_of_In, in_flat_map. split.
    + intros ([src r] & Hin & He). cbn [fst snd] in He.
      destruct (bool_decide_reflect (overall_status r = Some (value FAIL)))
        as [Hf|Hf]; [|destruct He].
      apply in_flat_map in He as (ct & Hct & He).
      apply in_map_iff in He as (issue & <- & Hi).
      unfold issues_at in Hi.
      destruct (r_checks r !! ct) as [c|] eqn:Hc; [|destruct Hi].
      exists src, r, ct, c, issue.
      repeat split; try done; by apply list_elem_of_In.
    + intros (src & r & ct & c & issue & Hin & Hf & Hct & Hc & Hi & ->).
      exists (src, r). split; [by apply list_elem_of_In|]. cbn [fst snd].
      rewrite bool_decide_eq_true_2 by done.
      apply in_flat_map. exists ct. split; [by apply list_elem_of_In|].
      apply in_map_iff. exists issue. split; [reflexivity|].
      unfold issues_at. rewrite Hc. by apply list_elem_of_In.
  - rewrite Hlist, sum_list_flat_map. f_equal. apply map_ext. intros [src r].
    cbn [fst snd]. destruct (bool_decide _); [|reflexivity].
    cbn [flat_map]. rewrite !length_app, !length_map. cbn [length]. lia.
Qed.

(** C7. [all_issues] holds exactly one entry for every issue of every
    check of every source, whatever the statuses, and the entry is the issue
    prefixed with [source.check_type: ].  Both [all_issues] and
    [critical_issues] list their entries by source in iteration order, then
    by check type in the order availability, data_quality, timestamps,
    leakage_check, then by position of the issue within its check; nothing
    is sorted. *)
Theorem issues_in_iteration_order :
  forall audit_results : list (string * report),
    all_issues (_generate_summary audit_results)
    = flat_map (fun item : string * report =>
                  flat_map (fun check_type =>
                              map (fun issue =>
                                     item.1 +:+ "." +:+ check_type +:+ ": " +:+ issue)
                                  (issues_at item.2 check_type))
                           ["availability"; "data_quality"; "timestamps";
                            "leakage_check"])
               audit_results
    /\ critical_issues (_generate_summary audit_results)
       = flat_map (fun item : string * report =>
                     if bool_decide (overall_status item.2 = Some (value FAIL))
                     then flat_map (fun check_type =>
                                      map (fun issue => item.1 +:+ ": " +:+ issue)
                                          (issues_at item.2 check_type))
                                   ["availability"; "data_quality"; "timestamps";
                                    "leakage_check"]
                     else [])
                  audit_results
    /\ length (all_issues (_generate_summary audit_results))
       = sum_list (map (fun item : string * report =>
                          (length (issues_at item.2 "availability")
                           + length (issues_at item.2 "data_quality")
                           + length (issues_at item.2 "timestamps")
                           + length (issues_at item.2 "leakage_check"))%nat)
                       audit_results).
Proof.
  intros audit_results.
  assert (Hall : all_issues (_generate_summary audit_results)
                 = flat_map (fun item : string * report =>
                      flat_map (fun check_type =>
                                  map (fun issue =>
                                         item.1 +:+ "." +:+ check_type +:+ ": " +:+ issue)
                                      (issues_at item.2 check_type))
                               ["availability"; "data_quality"; "timestamps";
                                "leakage_check"])
                   audit_results).
  { rewrite summary_all_issues. unfold expected_all_issues.
    apply flat_map_ext. intros [src r]. cbn [fst snd].
    by rewrite issues_of_four_checks. }
  split; [exact Hall|]. split.
  - rewrite summary_critical_issues. unfold expected_critical_issues.
    apply flat_map_ext. intros [src r]. cbn [fst snd].
    rewrite issues_of_four_checks.
    destruct (is_failed r) eqn:Hf.
    + apply is_failed_spec in Hf. by rewrite bool_decide_eq_true_2.
    + rewrite bool_decide_eq_false_2; [reflexivity|].
      intros Hs. apply is_failed_spec in Hs. congruence.
  - rewrite Hall, sum_list_flat_map. f_equal. apply map_ext. intros [src r].
    cbn [fst snd flat_map]. rewrite !length_app, !length_map. cbn [length]. lia.
Qed.

(** ** Selection of connectors (audit.py, cli.py) *)

Section Selection.

(** Skipping is filtering: the loop over all connectors under a selection
    is the loop over the kept ones without any. *)
Lemma audit_loop_kept (cs : list DataConnector) (connectors : option (list string))
    (audited : list string) (res : list (string * report)) :
  audit_loop cs connectors audited res
  = audit_loop (kept connectors cs) None audited res.
Proof.
  revert audited res. induction cs as [|c cs IH]; intros audited res; [reflexivity|].
  unfold kept. cbn [audit_loop List.filter].
  destruct (skip_connector connectors (get_source_name c)); cbn [negb].
  - apply IH.
  - cbn [audit_loop skip_connector].
    destruct (run_full_audit c) as [r|e]; [|reflexivity]. apply IH.
Qed.

(** Without a selection every connector is audited, in order. *)
Lemma audit_loop_all (cs : list DataConnector) (audited : list string)
    (res : list (string * report)) :
  audit_loop cs None audited res
  = (rs ← reports_of cs; Ok (audited ++ map fst rs, dict_store res rs)).
Proof.
  revert audited res. induction cs as [|c cs IH]; intros audited res.
  - simpl. by rewrite app_nil_r.
  - cbn [audit_loop skip_connector reports_of].
    destruct (run_full_audit c) as [r|e]; [|reflexivity].
    cbn [mbind pyresult_bind]. rewrite IH.
    destruct (reports_of cs) as [rs|e]; [|reflexivity].
    cbn [mbind pyresult_bind map fst]. unfold dict_store. cbn [foldl fst snd].
    by rewrite <- app_assoc.
Qed.

Lemma reports_of_names (cs : list DataConnector) (rs : list (string * report)) :
  reports_of cs = Ok rs -> map fst rs = map get_source_name cs.
Proof.
  revert rs. induction cs as [|c cs IH]; intros rs; cbn [reports_of].
  - intros [= <-]. reflexivity.
  - destruct (run_full_audit c) as [r|e]; [|discriminate].
    cbn [mbind pyresult_bind].
    destruct (reports_of cs) as [rs'|e]; [|discriminate].
    cbn [mbind pyresult_bind]. intros [= <-]. cbn [map fst]. f_equal. by apply IH.
Qed.

Lemma reports_of_total (cs : list DataConnector) :
  (forall c, c ∈ cs -> exists r, run_full_audit c = Ok r) ->
  exists rs, reports_of cs = Ok rs.
Proof.
  induction cs as [|c cs IH]; intros Hall; cbn [reports_of]; [by eexists|].
  destruct (Hall c) as [r ->]; [apply list_elem_of_here|].
  destruct IH as [rs ->]; [|by eexists].
  intros c' Hc'. apply Hall. by apply list_elem_of_further.
Qed.

Lemma dict_set_keys {V : Type} (k k' : string) (v : V) (d : list (string * V)) :
  k ∈ map fst (dict_set k' v d) <-> k = k' \/ k ∈ map fst d.
Proof.
  induction d as [|[k0 v0] d IH]; simpl.
  - rewrite elem_of_cons. rewrite elem_of_nil. tauto.
  - destruct (String.eqb_spec k0 k') as [->|Hne]; simpl;
      rewrite !elem_of_cons; [tauto|]. rewrite IH. tauto.
Qed.

Lemma dict_store_keys {V : Type} (k : string) (items d : list (string * V)) :
  k ∈ map fst (dict_store d items) <-> k ∈ map fst d \/ k ∈ map fst items.
Proof.
  unfold dict_store. revert d.
  induction items as [|[k0 v0] items IH]; intros d; simpl.
  - rewrite elem_of_nil. tauto.
  - rewrite IH, dict_set_keys, elem_of_cons. tauto.
Qed.

(** [run_audit] in terms of the kept connectors. *)
Lemma run_audit_spec (cs : list DataConnector) (connectors : option (list string)) :
  run_audit cs connectors
  = (rs ← reports_of (kept connectors cs);
     Ok {| connectors_audited := map fst rs;
           results := dict_store [] rs;
           summary := _generate_summary (dict_store [] rs) |}).
Proof.
  unfold run_audit. rewrite audit_loop_kept, audit_loop_all.
  destruct (reports_of (kept connectors cs)); reflexivity.
Qed.

Lemma kept_none (cs : list DataConnector) : kept None cs = cs.
Proof.
  unfold kept. induction cs as [|c cs IH]; [reflexivity|].
  cbn [List.filter skip_connector negb]. by f_equal.
Qed.

Lemma kept_empty (cs : list DataConnector) : kept (Some []) cs = cs.
Proof.
  unfold kept. induction cs as [|c cs IH]; [reflexivity|].
  cbn [List.filter skip_connector negb]. by f_equal.
Qed.

Lemma kept_selection (cs : list DataConnector) (sel : list string) :
  sel <> [] ->
  kept (Some sel) cs = List.filter (fun c => py_in (get_source_name c) sel) cs.
Proof.
  intros Hsel. unfold kept. destruct sel as [|x sel]; [done|].
  apply List.filter_ext. intros c. cbn [skip_connector]. apply negb_involutive.
Qed.

Lemma kept_kept (cs : list DataConnector) (connectors : option (list string)) :
  kept None (kept connectors cs) = kept connectors cs.
Proof. apply kept_none. Qed.

Lemma map_filter_names (cs : list DataConnector) (p : string -> bool) :
  map get_source_name (List.filter (fun c => p (get_source_name c)) cs)
  = List.filter p (map get_source_name cs).
Proof.
  induction cs as [|c cs IH]; simpl; [reflexivity|].
  destruct (p (get_source_name c)); simpl; by rewrite IH.
Qed.

End Selection.

(** C8. Under a non-empty selection the run is the run, without a
    selection, of the connectors whose name is selected: no other connector
    is evaluated.  When it returns, [connectors_audited] lists the selected
    names in connector order and the keys of [results] are the selected
    names that exist, so a connector that is not selected has no entry at
    all.  It returns whenever the selected connectors do.  A selection of
    unknown names only gives an empty run, with no audited source, an empty
    [results] mapping and a summary over zero connectors, and no error. *)
Theorem selection_filters_connectors :
  forall (cs : list DataConnector) (sel : list string),
    sel <> [] ->
    run_audit cs (Some sel)
    = run_audit (List.filter (fun c => py_in (get_source_name c) sel) cs) None
    /\ (forall out, run_audit cs (Some sel) = Ok out ->
          connectors_audited out
          = List.filter (fun n => py_in n sel) (map get_source_name cs)
          /\ forall name, name ∈ map fst (results out) <->
                          name ∈ sel /\ name ∈ map get_source_name cs)
    /\ ((forall c, c ∈ cs -> get_source_name c ∈ sel ->
                   exists r, run_full_audit c = Ok r) ->
        exists out, run_audit cs (Some sel) = Ok out)
    /\ ((forall c, c ∈ cs -> get_source_name c ∉ sel) ->
        run_audit cs (Some sel)
        = Ok {| connectors_audited := []; results := [];
                summary := _generate_summary [] |}
        /\ total_connectors (_generate_summary []) = 0%nat).
Proof.
  intros cs sel Hsel.
  assert (Hnames : forall rs,
             reports_of (kept (Some sel) cs) = Ok rs ->
             map fst rs = List.filter (fun n => py_in n sel) (map get_source_name cs)).
  { intros rs Hrs. apply reports_of_names in Hrs. rewrite Hrs.
    rewrite kept_selection by done.
    apply (map_filter_names cs (fun n => py_in n sel)). }
  split; [|split; [|split]].
  - rewrite !run_audit_spec, kept_none. by rewrite kept_selection.
  - intros out. rewrite run_audit_spec.
    destruct (reports_of (kept (Some sel) cs)) as [rs|e] eqn:Hrs; [|discriminate].
    cbn [mbind pyresult_bind]. intros [= <-]. cbn [connectors_audited results].
    split; [by apply Hnames|].
    intros name. rewrite dict_store_keys. cbn [map]. rewrite elem_of_nil.
    rewrite (Hnames rs eq_refl), list_elem_of_In, filter_In.
    rewrite <- list_elem_of_In, py_in_spec. tauto.
  - intros Hall. rewrite run_audit_spec.
    destruct (reports_of_total (kept (Some sel) cs)) as [rs ->]; [|by eexists].
    intros c. rewrite kept_selection by done.
    rewrite list_elem_of_In, filter_In, <- list_elem_of_In, py_in_spec.
    intros [Hc Hin]. by apply Hall.
  - intros Hnone. split; [|reflexivity]. rewrite run_audit_spec.
    replace (kept (Some sel) cs) with (@nil DataConnector); [reflexivity|].
    rewrite kept_selection by done. clear Hnames.
    induction cs as [|c cs IH]; [reflexivity|]. cbn [List.filter].
    destruct (py_in (get_source_name c) sel) eqn:Hc.
    + apply py_in_spec in Hc. exfalso. by apply (Hnone c); [apply list_elem_of_here|].
    + apply IH. intros c' Hc'. apply Hnone. by apply list_elem_of_further.
Qed.

(** A selection naming the first of two connectors. *)
Lemma selection_filters_connectors_witness :
  run_audit two_connectors (Some ["match_results"])
  = run_audit (List.filter (fun c => py_in (get_source_name c) ["match_results"])
                           two_connectors) None.
Proof.
  exact (proj1 (selection_filters_connectors two_connectors ["match_results"]
                  ltac:(discriminate))).
Defined.

(** C10. An empty selection is no selection: [run_audit] with [[]] is
    [run_audit] with [None], so every connector is audited and has its
    entry in [results] (and the command line never passes an empty list: it
    turns it into [None] itself). *)
Theorem empty_selection_audits_all :
  forall cs : list DataConnector,
    run_audit cs (Some []) = run_audit cs None
    /\ cli_selection [] = None
    /\ (forall out, run_audit cs (Some []) = Ok out ->
          connectors_audited out = map get_source_name cs
          /\ forall name, name ∈ map fst (results out) <->
                          name ∈ map get_source_name cs)
    /\ ((forall c, c ∈ cs -> exists r, run_full_audit c = Ok r) ->
        exists out, run_audit cs (Some []) = Ok out).
Proof.
  intros cs. split; [|split; [reflexivity|split]].
  - by rewrite !run_audit_spec, kept_none, kept_empty.
  - intros out. rewrite run_audit_spec, kept_empty.
    destruct (reports_of cs) as [rs|e] eqn:Hrs; [|discriminate].
    cbn [mbind pyresult_bind]. intros [= <-]. cbn [connectors_audited results].
    apply reports_of_names in Hrs. split; [done|].
    intros name. rewrite dict_store_keys, Hrs. cbn [map]. rewrite elem_of_nil. tauto.
  - intros Hall. rewrite run_audit_spec, kept_empty.
    destruct (reports_of_total cs Hall) as [rs ->]. by eexists.
Qed.

(** ** The per-check evaluators of the CSV connectors *)

Lemma filter_nonempty {B : Type} (f : B -> bool) (l : list B) (x : B) :
  x ∈ l -> f x = true -> x ∈ List.filter f l.
Proof.
  intros Hin Hf. apply list_elem_of_In, filter_In. split; [by apply list_elem_of_In|done].
Qed.

Lemma missing_in_absent (fields : list string) (first_row : gmap string pyval) :
  LocalCSVMatchResults.missing_in fields first_row
  = List.filter (fun f => bool_decide (first_row !! f = None)) fields
  /\ LocalCSVOdds.missing_in fields first_row
     = List.filter (fun f => bool_decide (first_row !! f = None)) fields.
Proof.
  unfold LocalCSVMatchResults.missing_in, LocalCSVOdds.missing_in.
  split; apply List.filter_ext; intros f; destruct (first_row !! f) eqn:Hf;
    cbn; by rewrite ?bool_decide_eq_true_2, ?bool_decide_eq_false_2 by (by eexists || done).
Qed.

(** C9. When the first record lacks one of the required fields of a CSV
    connector (the column is absent from the record), the data-quality
    check of that connector returns at once: status FAIL, one issue that
    names the required fields absent from the first record, in their order,
    the field at hand among them, and a [checks] mapping that holds the
    required-fields entry and nothing else: no completeness, duplicate or
    value check is made, whatever the other records are. *)
Theorem missing_required_field_short_circuits :
  forall (repr_set : list string -> string) (float_lt_one : string -> option bool)
         (self : csv_connector) (first_row : gmap string pyval)
         (rest : list (gmap string pyval)) (field : string),
    data self = first_row :: rest ->
    first_row !! field = None ->
    (field ∈ ["match_id"; "date"; "tournament"; "circuit"; "player1"; "player2";
               "score"; "winner"; "match_start_time"; "available_at"] ->
     exists missing r,
       LocalCSVMatchResults.audit_data_quality repr_set self = Ok r
       /\ status r = value FAIL
       /\ issues r = ["Missing required fields: " +:+ join ", " missing]
       /\ missing
          = List.filter (fun f => bool_decide (first_row !! f = None))
              ["match_id"; "date"; "tournament"; "circuit"; "player1"; "player2";
               "score"; "winner"; "match_start_time"; "available_at"]
       /\ field ∈ missing
       /\ checks r
          = <["required_fields" :=
                DRequiredFields
                  ["match_id"; "date"; "tournament"; "circuit"; "player1"; "player2";
                   "score"; "winner"; "match_start_time"; "available_at"]
                  missing "fail"]> ∅
       /\ checks r !! "completeness" = None
       /\ checks r !! "duplicates" = None)
    /\ (field ∈ ["match_id"; "snapshot_timestamp"; "player1_odds"; "player2_odds";
                  "bookmaker"; "available_at"; "match_start_time"] ->
        exists missing r,
          LocalCSVOdds.audit_data_quality float_lt_one self = Ok r
          /\ status r = value FAIL
          /\ issues r = ["Missing required fields: " +:+ join ", " missing]
          /\ missing
             = List.filter (fun f => bool_decide (first_row !! f = None))
                 ["match_id"; "snapshot_timestamp"; "player1_odds"; "player2_odds";
                  "bookmaker"; "available_at"; "match_start_time"]
          /\ field ∈ missing
          /\ checks r
             = <["required_fields" :=
                   DRequiredFields
                     ["match_id"; "snapshot_timestamp"; "player1_odds"; "player2_odds";
                      "bookmaker"; "available_at"; "match_start_time"]
                     missing "fail"]> ∅
          /\ checks r !! "completeness" = None
          /\ checks r !! "odds_validity" = None).
Proof.
  intros repr_set float_lt_one self first_row rest field Hdata Habsent.
  destruct (missing_in_absent LocalCSVMatchResults.required_fields first_row)
    as [Hmr _].
  destruct (missing_in_absent LocalCSVOdds.required_fields first_row) as [_ Hodds].
  split; intros Hfield.
  - assert (Hin : field ∈ LocalCSVMatchResults.missing_in
                             LocalCSVMatchResults.required_fields first_row).
    { rewrite Hmr. apply filter_nonempty; [exact Hfield|].
      by apply bool_decide_eq_true_2. }
    unfold LocalCSVMatchResults.audit_data_quality. rewrite Hdata.
    cbn [nonempty negb].
    destruct (LocalCSVMatchResults.missing_in _ first_row) as [|f fs] eqn:Hm;
      [by apply elem_of_nil in Hin|].
    cbn [nonempty]. eexists (f :: fs), _. split; [reflexivity|].
    cbn [status issues checks]. repeat split; try done.
  - assert (Hin : field ∈ LocalCSVOdds.missing_in LocalCSVOdds.required_fields first_row).
    { rewrite Hodds. apply filter_nonempty; [exact Hfield|].
      by apply bool_decide_eq_true_2. }
    unfold LocalCSVOdds.audit_data_quality. rewrite Hdata.
    cbn [nonempty negb].
    destruct (LocalCSVOdds.missing_in _ first_row) as [|f fs] eqn:Hm;
      [by apply elem_of_nil in Hin|].
    cbn [nonempty]. eexists (f :: fs), _. split; [reflexivity|].
    cbn [status issues checks]. repeat split; try done.
Qed.

(** A file whose only row has two of the columns: [match_start_time],
    required by both connectors, is not among them. *)
Lemma missing_required_field_witness :
  (exists r, LocalCSVMatchResults.audit_data_quality (fun _ => "")
               (with_rows [short_row]) = Ok r
     /\ status r = value FAIL
     /\ issues r = ["Missing required fields: date, tournament, circuit, player1, player2, score, winner, match_start_time"]
     /\ checks r !! "completeness" = None)
  /\ (exists r, LocalCSVOdds.audit_data_quality (fun _ => None)
                  (with_rows [short_row]) = Ok r
        /\ status r = value FAIL
        /\ issues r = ["Missing required fields: snapshot_timestamp, player1_odds, player2_odds, bookmaker, match_start_time"]
        /\ checks r !! "odds_validity" = None).
Proof.
  pose proof (missing_required_field_short_circuits
                (fun _ => "") (fun _ => None) (with_rows [short_row])
                short_row [] "match_start_time" eq_refl eq_refl) as [Hmr Hodds].
  split.
  - destruct Hmr as (missing & r & Hr & Hs & Hi & Hm & _ & _ & Hc & _).
    { repeat first [apply list_elem_of_here | apply list_elem_of_further]. }
    exists r. split; [exact Hr|]. split; [exact Hs|]. split; [|exact Hc].
    rewrite Hi, Hm. vm_compute. reflexivity.
  - destruct Hodds as (missing & r & Hr & Hs & Hi & Hm & _ & _ & _ & Hc).
    { repeat first [apply list_elem_of_here | apply list_elem_of_further]. }
    exists r. split; [exact Hr|]. split; [exact Hs|]. split; [|exact Hc].
    rewrite Hi, Hm. vm_compute. reflexivity.
Defined.

(** C4 (as amended). On a connector that holds no record, the data-quality,
    timestamp and leakage checks of either CSV connector return (they do
    not raise, no division is reached) NOT_AVAILABLE with the issue
    "No data loaded".  The availability check returns as well; it reports
    NOT_AVAILABLE with one issue when no path is configured or the file does
    not exist, and PASS without any issue when the file exists, also when
    it holds no record. *)
Theorem empty_dataset_checks :
  forall (fromisoformat : string -> option datetime) (now : Z)
         (repr_set : list string -> string) (float_lt_one : string -> option bool)
         (fs : string -> option csv_file) (self : csv_connector),
    data self = [] ->
    let no_data := Ok {| status := value NOT_AVAILABLE;
                         issues := ["No data loaded"]; checks := ∅ |} in
    LocalCSVMatchResults.audit_data_quality repr_set self = no_data
    /\ LocalCSVMatchResults.check_timestamps fromisoformat self = no_data
    /\ LocalCSVMatchResults.detect_leakage fromisoformat now self = no_data
    /\ LocalCSVOdds.audit_data_quality float_lt_one self = no_data
    /\ LocalCSVOdds.check_timestamps fromisoformat self = no_data
    /\ LocalCSVOdds.detect_leakage fromisoformat self = no_data
    /\ (forall availability,
          availability = LocalCSVMatchResults.check_availability fs self
          \/ availability = LocalCSVOdds.check_availability fs self ->
          exists r, availability = Ok r
            /\ (as_text (csv_path self) = None ->
                status r = value NOT_AVAILABLE /\ issues r = ["No CSV path configured"])
            /\ (forall p, as_text (csv_path self) = Some p -> fs p = None ->
                status r = value NOT_AVAILABLE
                /\ issues r = ["CSV file not found: " +:+ p])
            /\ (forall p f, as_text (csv_path self) = Some p -> fs p = Some f ->
                status r = value PASS /\ issues r = [])).
Proof.
  intros fromisoformat now repr_set float_lt_one fs self Hdata no_data.
  unfold LocalCSVMatchResults.audit_data_quality, LocalCSVMatchResults.check_timestamps,
    LocalCSVMatchResults.detect_leakage, LocalCSVOdds.audit_data_quality,
    LocalCSVOdds.check_timestamps, LocalCSVOdds.detect_leakage.
  rewrite Hdata. cbn [nonempty negb].
  repeat (split; [reflexivity|]).
  intros availability [-> | ->];
    unfold LocalCSVMatchResults.check_availability, LocalCSVOdds.check_availability;
    (destruct (as_text (csv_path self)) as [p|];
     [destruct (fs p) as [f|] eqn:Hf|]); eexists; (split; [reflexivity|]);
    cbn [status issues]; repeat split; try congruence;
    try (intros ? [= <-]; congruence); try (intros ? ? [= <-]; congruence).
Qed.

(** No path configured, hence no record. *)
Lemma empty_dataset_checks_witness :
  LocalCSVOdds.detect_leakage fromisoformat_model (__init__ header_only_fs PNone)
  = Ok {| status := value NOT_AVAILABLE; issues := ["No data loaded"]; checks := ∅ |}.
Proof.
  exact (proj1 (proj2 (proj2 (proj2 (proj2 (proj2
    (empty_dataset_checks fromisoformat_model 0%Z (fun _ => "") (fun _ => None)
       header_only_fs (__init__ header_only_fs PNone) eq_refl))))))).
Defined.

(** C4, the input it fails on: a CSV file that exists and holds a header
    only.  The connector loads no record, and the availability check of
    either connector answers PASS with an empty issue list. *)
Lemma empty_file_is_available :
  data (__init__ header_only_fs (PStr "data/empty.csv")) = []
  /\ (exists r,
        LocalCSVMatchResults.check_availability header_only_fs
          (__init__ header_only_fs (PStr "data/empty.csv")) = Ok r
        /\ status r = value PASS /\ status r <> value NOT_AVAILABLE /\ issues r = [])
  /\ (exists r,
        LocalCSVOdds.check_availability header_only_fs
          (__init__ header_only_fs (PStr "data/empty.csv")) = Ok r
        /\ status r = value PASS /\ status r <> value NOT_AVAILABLE /\ issues r = []).
Proof.
  split; [reflexivity|].
  split; eexists; (split; [reflexivity|]); repeat split; discriminate.
Qed.

(** ** Timestamp validity *)

Section Timestamps.

Variable fromisoformat : string -> option datetime.

(** What [check_timestamps] of the match-results connector answers once
    the loop has produced its two lists: the ordering branch is the last to
    write the status. *)
Lemma match_results_status_after_loop (self : csv_connector)
    (invalid_timestamps out_of_order : list string) :
  data self <> [] ->
  LocalCSVMatchResults.timestamps_loop fromisoformat (data self) ([], [])
  = Ok (invalid_timestamps, out_of_order) ->
  exists r, LocalCSVMatchResults.check_timestamps fromisoformat self = Ok r
    /\ status r = (if nonempty out_of_order then value WARNING
                   else if nonempty invalid_timestamps then value FAIL
                   else value PASS).
Proof.
  intros Hdata Hloop. unfold LocalCSVMatchResults.check_timestamps.
  destruct (data self) as [|row rows] eqn:Hd; [done|].
  cbn [nonempty negb]. rewrite Hloop. cbn [mbind pyresult_bind].
  eexists. split; [reflexivity|]. cbn [status].
  destruct out_of_order, invalid_timestamps; reflexivity.
Qed.

(** The odds connector has no ordering branch: its status is FAIL exactly
    when some record holds a timestamp that does not parse. *)
Lemma odds_timestamps_fail_iff (self : csv_connector) :
  data self <> [] ->
  exists r, LocalCSVOdds.check_timestamps fromisoformat self = Ok r
    /\ (status r = value FAIL <->
        exists row, row ∈ data self
                    /\ LocalCSVOdds.format_errors fromisoformat row <> []).
Proof.
  intros Hdata. unfold LocalCSVOdds.check_timestamps.
  destruct (data self) as [|row0 rows] eqn:Hd; [done|].
  cbn [nonempty negb]. clear Hdata.
  set (l := row0 :: rows).
  assert (Hl : concat (map (LocalCSVOdds.format_errors fromisoformat) l) <> [] <->
               exists row, row ∈ l /\ LocalCSVOdds.format_errors fromisoformat row <> []).
  { clearbody l. clear Hd. induction l as [|x l IH]; simpl.
    - split; [done|]. intros (row & Hrow & _). by apply elem_of_nil in Hrow.
    - split.
      + intros Hne. destruct (LocalCSVOdds.format_errors fromisoformat x) eqn:Hx.
        * simpl in Hne. apply IH in Hne as (row & Hrow & Hr).
          exists row. split; [by apply list_elem_of_further|done].
        * exists x. split; [apply list_elem_of_here|]. by rewrite Hx.
      + intros (row & Hrow & Hr). apply elem_of_cons in Hrow as [->|Hrow].
        * destruct (LocalCSVOdds.format_errors fromisoformat x); [done|]. done.
        * intros Happ. apply app_eq_nil in Happ as [_ Happ].
          apply IH in Happ; [done|]. by exists row. }
  destruct (concat (map (LocalCSVOdds.format_errors fromisoformat) l)) as [|e es] eqn:Hc;
    cbn [nonempty]; eexists; (split; [reflexivity|]); cbn [status].
  - split; [discriminate|]. intros H. apply Hl in H. done.
  - split; [|done]. intros _. apply Hl. done.
Qed.

End Timestamps.

(** C3, at the input where the code departs from it: a match-results file
    with one record whose [available_at] does not parse and one record made
    available after its match started.  The invalid timestamp is counted
    and reported, yet the status returned is WARNING, because the ordering
    branch overwrites the FAIL set just before.  (The odds connector, which
    has no ordering branch, does answer FAIL on the same two records.) *)
Theorem invalid_timestamp_ends_as_warning :
  LocalCSVMatchResults.check_timestamps fromisoformat_model
    (with_rows [unreadable_row; late_row])
  = Ok {| status := value WARNING;
          issues := ["Found 1 invalid timestamps";
                     "Found 1 records with temporal ordering issues"];
          checks := <["temporal_ordering" :=
                        DOrdering 1 ["M2: available_at after match_start_time"]]>
                    (<["timestamp_format" :=
                        DInvalid 1 ["M1: invalid available_at"]]> ∅) |}
  /\ status <$> (match LocalCSVOdds.check_timestamps fromisoformat_model
                        (with_rows [unreadable_row; late_row])
                 with Ok r => Some r | Raise _ => None end)
     = Some (value FAIL).
Proof. split; vm_compute; reflexivity. Qed.

(** ** Temporal leakage (local_csv_odds.py) *)

Section Leakage.

Variable fromisoformat : string -> option datetime.

Lemma dt_ge_sub (a s : datetime) (b : bool) :
  dt_ge a s = Ok b -> exists d, dt_sub a s = Ok d /\ (b = true <-> (0 <= d)%Z).
Proof.
  unfold dt_ge, dt_sub, dt_compare.
  destruct (dt_utcoffset a) as [oa|], (dt_utcoffset s) as [os|];
    cbn [mbind pyresult_bind]; try discriminate; intros [= <-]; eexists;
    (split; [reflexivity|]).
  - destruct (Z.compare_spec (dt_wall a - oa) (dt_wall s - os)); split;
      intros; try done; lia.
  - destruct (Z.compare_spec (dt_wall a) (dt_wall s)); split;
      intros; try done; lia.
Qed.

Lemma dt_ge_only_type_error (a s : datetime) (e : pyexn) :
  dt_ge a s = Raise e -> e = TypeError.
Proof.
  unfold dt_ge, dt_compare.
  destruct (dt_utcoffset a), (dt_utcoffset s); cbn [mbind pyresult_bind];
    congruence.
Qed.

Lemma dt_compare_ge (a s : datetime) (c : comparison) :
  dt_compare a s = Ok c ->
  dt_ge a s = Ok (match c with Lt => false | _ => true end).
Proof. unfold dt_ge. by intros ->. Qed.

(** The first half of the [try] body on a row whose two timestamps parse. *)
Lemma post_match_entry_parsed (row : gmap string pyval) (sa ss : string)
    (a s : datetime) :
  as_text (get row "available_at") = Some sa ->
  as_text (get row "match_start_time") = Some ss ->
  fromisoformat (replace_Z sa) = Some a ->
  fromisoformat (replace_Z ss) = Some s ->
  LocalCSVOdds.post_match_entry fromisoformat row
  = (leaked ← dt_ge a s;
     if leaked : bool then
       delay ← dt_sub a s;
       Ok [ {| v_match_id := get row "match_id";
               v_available_at := sa;
               v_match_start_time := ss;
               v_snapshot_timestamp := get row "snapshot_timestamp";
               v_delay_seconds := total_seconds delay |} ]
     else Ok []).
Proof.
  intros Ha Hs Hpa Hps. unfold LocalCSVOdds.post_match_entry, LocalCSVOdds.parse.
  rewrite Ha, Hs, Hpa, Hps. reflexivity.
Qed.

(** What a violation found in a row says about that row. *)
Lemma row_post_inv (row : gmap string pyval) (v : violation) :
  v ∈ row_post fromisoformat row ->
  exists a s d,
    as_text (get row "available_at") = Some (v_available_at v)
    /\ as_text (get row "match_start_time") = Some (v_match_start_time v)
    /\ fromisoformat (replace_Z (v_available_at v)) = Some a
    /\ fromisoformat (replace_Z (v_match_start_time v)) = Some s
    /\ dt_ge a s = Ok true
    /\ dt_sub a s = Ok d
    /\ v_delay_seconds v = total_seconds d
    /\ v_match_id v = get row "match_id"
    /\ v_snapshot_timestamp v = get row "snapshot_timestamp".
Proof.
  unfold row_post, LocalCSVOdds.post_match_entry, LocalCSVOdds.parse.
  destruct (as_text (get row "available_at")) as [sa|];
    [|intros H; by apply elem_of_nil in H].
  destruct (as_text (get row "match_start_time")) as [ss|];
    [|intros H; by apply elem_of_nil in H].
  destruct (fromisoformat (replace_Z sa)) as [a|] eqn:Hpa;
    cbn [mbind pyresult_bind]; [|intros H; by apply elem_of_nil in H].
  destruct (fromisoformat (replace_Z ss)) as [s|] eqn:Hps;
    cbn [mbind pyresult_bind]; [|intros H; by apply elem_of_nil in H].
  destruct (dt_ge a s) as [[|]|e] eqn:Hge; cbn [mbind pyresult_bind];
    try (intros H; by apply elem_of_nil in H).
  destruct (dt_ge_sub a s true Hge) as (d & Hd & _). rewrite Hd.
  cbn [mbind pyresult_bind]. intros Hv. apply list_elem_of_singleton in Hv as ->.
  exists a, s, d. cbn. repeat split; done.
Qed.

Lemma leakage_row_spec (acc acc' : list violation * list late_snapshot)
    (row : gmap string pyval) :
  LocalCSVOdds.leakage_row fromisoformat acc row = Ok acc' ->
  acc' = (acc.1 ++ row_post fromisoformat row, acc.2 ++ row_late fromisoformat row)
  /\ LocalCSVOdds.post_match_entry fromisoformat row <> Raise TypeError.
Proof.
  unfold LocalCSVOdds.leakage_row, row_post, row_late. destruct acc as [p l].
  destruct (LocalCSVOdds.post_match_entry fromisoformat row) as [vs|[]];
    try discriminate.
  - destruct (LocalCSVOdds.late_entry fromisoformat row) as [ls|[]];
      try discriminate; intros [= <-]; cbn [fst snd]; by rewrite ?app_nil_r.
  - intros [= <-]. cbn [fst snd]. by rewrite !app_nil_r.
Qed.

Lemma leakage_row_no_value_error (acc : list violation * list late_snapshot)
    (row : gmap string pyval) :
  LocalCSVOdds.leakage_row fromisoformat acc row <> Raise ValueError.
Proof.
  unfold LocalCSVOdds.leakage_row. destruct acc as [p l].
  destruct (LocalCSVOdds.post_match_entry fromisoformat row) as [vs|[]];
    try discriminate.
  destruct (LocalCSVOdds.late_entry fromisoformat row) as [ls|[]]; discriminate.
Qed.

Lemma leakage_loop_spec (rows : list (gmap string pyval))
    (acc acc' : list violation * list late_snapshot) :
  LocalCSVOdds.leakage_loop fromisoformat rows acc = Ok acc' ->
  acc' = (acc.1 ++ flat_map (row_post fromisoformat) rows,
          acc.2 ++ flat_map (row_late fromisoformat) rows)
  /\ forall row, row ∈ rows ->
       LocalCSVOdds.post_match_entry fromisoformat row <> Raise TypeError.
Proof.
  revert acc. induction rows as [|row rows IH]; intros acc; cbn [LocalCSVOdds.leakage_loop].
  - intros [= <-]. cbn [flat_map]. rewrite !app_nil_r. destruct acc.
    split; [reflexivity|]. intros row Hrow. by apply elem_of_nil in Hrow.
  - destruct (LocalCSVOdds.leakage_row fromisoformat acc row) as [acc1|e] eqn:Hrow;
      [|discriminate].
    cbn [mbind pyresult_bind]. intros Hloop.
    apply leakage_row_spec in Hrow as [-> Hok].
    apply IH in Hloop as [-> Hall]. cbn [fst snd flat_map].
    rewrite <- !app_assoc. split; [reflexivity|].
    intros row' Hrow'. apply elem_of_cons in Hrow' as [->|Hrow']; [done|by apply Hall].
Qed.

Lemma leakage_loop_no_value_error (rows : list (gmap string pyval))
    (acc : list violation * list late_snapshot) :
  LocalCSVOdds.leakage_loop fromisoformat rows acc <> Raise ValueError.
Proof.
  revert acc. induction rows as [|row rows IH]; intros acc;
    cbn [LocalCSVOdds.leakage_loop]; [discriminate|].
  destruct (LocalCSVOdds.leakage_row fromisoformat acc row) as [acc1|e] eqn:Hrow;
    cbn [mbind pyresult_bind]; [apply IH|].
  intros [= ->]. by apply leakage_row_no_value_error in Hrow.
Qed.

(** [detect_leakage] on a connector that holds records, when it returns. *)
Lemma detect_leakage_spec (self : csv_connector) (res : check_result) :
  data self <> [] ->
  LocalCSVOdds.detect_leakage fromisoformat self = Ok res ->
  post_match_violations res = flat_map (row_post fromisoformat) (data self)
  /\ late_snapshot_count res = length (flat_map (row_late fromisoformat) (data self))
  /\ status res = (if nonempty (flat_map (row_post fromisoformat) (data self))
                      || nonempty (flat_map (row_late fromisoformat) (data self))
                   then value FAIL else value PASS)
  /\ (post_match_violations res = [] -> late_snapshot_count res = 0%nat ->
      issues res = [])
  /\ forall row, row ∈ data self ->
       LocalCSVOdds.post_match_entry fromisoformat row <> Raise TypeError.
Proof.
  intros Hdata. unfold LocalCSVOdds.detect_leakage.
  destruct (data self) as [|row0 rows] eqn:Hd; [done|]. cbn [nonempty negb].
  destruct (LocalCSVOdds.leakage_loop fromisoformat (row0 :: rows) ([], []))
    as [[p l]|e] eqn:Hloop; [|discriminate].
  cbn [mbind pyresult_bind]. intros [= <-].
  apply leakage_loop_spec in Hloop as [Heq Hall].
  remember (flat_map (row_post fromisoformat) (row0 :: rows)) as P eqn:HP.
  remember (flat_map (row_late fromisoformat) (row0 :: rows)) as L eqn:HL.
  cbn [fst snd app] in Heq. injection Heq as -> ->.
  unfold post_match_violations, late_snapshot_count. cbn [checks status issues].
  rewrite lookup_insert_ne by done. rewrite !lookup_insert_eq.
  split; [reflexivity|]. split; [reflexivity|]. split; [|split; [|exact Hall]].
  - destruct P, L; reflexivity.
  - destruct P, L; cbn; done.
Qed.

End Leakage.

Section LeakageTotal.

Variable fromisoformat : string -> option datetime.

Lemma dt_compare_same_kind (a s : datetime) :
  bool_decide (is_Some (dt_utcoffset a)) = bool_decide (is_Some (dt_utcoffset s)) ->
  exists c, dt_compare a s = Ok c.
Proof.
  unfold dt_compare.
  destruct (dt_utcoffset a), (dt_utcoffset s); intros H;
    first [ by vm_compute in H | by eexists ].
Qed.

Lemma leakage_row_total (rows : list (gmap string pyval)) (row : gmap string pyval)
    (acc : list violation * list late_snapshot) :
  uniform_awareness fromisoformat rows -> row ∈ rows ->
  exists acc', LocalCSVOdds.leakage_row fromisoformat acc row = Ok acc'.
Proof.
  intros [aware Hu] Hrow.
  assert (Hcmp : forall f1 f2 s1 s2 d1 d2,
             as_text (get row f1) = Some s1 -> as_text (get row f2) = Some s2 ->
             fromisoformat (replace_Z s1) = Some d1 ->
             fromisoformat (replace_Z s2) = Some d2 ->
             exists c, dt_compare d1 d2 = Ok c).
  { intros f1 f2 s1 s2 d1 d2 H1 H2 Hp1 Hp2. apply dt_compare_same_kind.
    rewrite (Hu row f1 s1 d1 Hrow H1 Hp1). by rewrite (Hu row f2 s2 d2 Hrow H2 Hp2). }
  unfold LocalCSVOdds.leakage_row. destruct acc as [p l].
  assert (Hpost : exists r, LocalCSVOdds.post_match_entry fromisoformat row = r
                            /\ r <> Raise TypeError /\ r <> Raise ZeroDivisionError).
  { eexists. split; [reflexivity|].
    unfold LocalCSVOdds.post_match_entry, LocalCSVOdds.parse.
    destruct (as_text (get row "available_at")) as [sa|] eqn:Ha; [|done].
    destruct (as_text (get row "match_start_time")) as [ss|] eqn:Hs; [|done].
    destruct (fromisoformat (replace_Z sa)) as [a|] eqn:Hpa;
      cbn [mbind pyresult_bind]; [|done].
    destruct (fromisoformat (replace_Z ss)) as [s|] eqn:Hps;
      cbn [mbind pyresult_bind]; [|done].
    destruct (Hcmp _ _ _ _ _ _ Ha Hs Hpa Hps) as [c Hc].
    rewrite (dt_compare_ge _ _ _ Hc). cbn [mbind pyresult_bind].
    destruct (dt_ge_sub _ _ _ (dt_compare_ge _ _ _ Hc)) as (d & -> & _).
    destruct c; done. }
  assert (Hlate : exists r, LocalCSVOdds.late_entry fromisoformat row = r
                            /\ r <> Raise TypeError /\ r <> Raise ZeroDivisionError).
  { eexists. split; [reflexivity|].
    unfold LocalCSVOdds.late_entry, LocalCSVOdds.parse.
    destruct (as_text (get row "snapshot_timestamp")) as [sn|] eqn:Hn; [|done].
    destruct (as_text (get row "match_start_time")) as [ss|] eqn:Hs; [|done].
    destruct (fromisoformat (replace_Z sn)) as [a|] eqn:Hpa;
      cbn [mbind pyresult_bind]; [|done].
    destruct (fromisoformat (replace_Z ss)) as [s|] eqn:Hps;
      cbn [mbind pyresult_bind]; [|done].
    destruct (Hcmp _ _ _ _ _ _ Hn Hs Hpa Hps) as [c Hc].
    rewrite (dt_compare_ge _ _ _ Hc). cbn [mbind pyresult_bind]. done. }
  destruct Hpost as (rp & -> & Hp1 & Hp2), Hlate as (rl & -> & Hl1 & Hl2).
  destruct rp as [vs|[]]; try done; [|by eexists].
  destruct rl as [ls|[]]; try done; by eexists.
Qed.

(** When no comparison can mix a naive with an aware timestamp, the
    leakage check returns. *)
Lemma detect_leakage_returns (self : csv_connector) :
  uniform_awareness fromisoformat (data self) ->
  exists res, LocalCSVOdds.detect_leakage fromisoformat self = Ok res.
Proof.
  intros Hu. unfold LocalCSVOdds.detect_leakage.
  destruct (nonempty (data self)); cbn [negb]; [|by eexists].
  assert (Hloop : forall rs acc,
             (forall row, row ∈ rs -> row ∈ data self) ->
             exists acc', LocalCSVOdds.leakage_loop fromisoformat rs acc = Ok acc').
  { intros rs. induction rs as [|row rs IH]; intros acc Hsub;
      cbn [LocalCSVOdds.leakage_loop]; [by eexists|].
    destruct (leakage_row_total (data self) row acc Hu) as [acc1 ->].
    { apply Hsub, list_elem_of_here. }
    cbn [mbind pyresult_bind]. apply IH.
    intros row' Hrow'. by apply Hsub, list_elem_of_further. }
  destruct (Hloop (data self) ([], [])) as [[p l] ->]; [done|].
  cbn [mbind pyresult_bind]. by eexists.
Qed.

End LeakageTotal.

(** The boundary of the leakage check of the odds connector, on the runs
    that return (by [detect_leakage_returns], all those whose timestamps are
    uniformly naive or uniformly aware).  Whenever the check returns, a
    record whose availability timestamp and reference time are both present
    and parse is reported among the post-match violations exactly when
    [available_at >= match_start_time].  Equality is a violation and makes
    the status FAIL, as does any later availability; a record available
    strictly before its reference time yields no violation; and with no
    violation of either kind the status is PASS, without any issue. *)
Theorem leakage_boundary :
  forall (fromisoformat : string -> option datetime) (self : csv_connector)
         (res : check_result),
    LocalCSVOdds.detect_leakage fromisoformat self = Ok res ->
    (forall row sa ss a s,
        row ∈ data self ->
        as_text (get row "available_at") = Some sa ->
        as_text (get row "match_start_time") = Some ss ->
        fromisoformat (replace_Z sa) = Some a ->
        fromisoformat (replace_Z ss) = Some s ->
        (exists c, dt_compare a s = Ok c)
        /\ ((exists v, v ∈ post_match_violations res
                       /\ v_match_id v = get row "match_id"
                       /\ v_available_at v = sa
                       /\ v_match_start_time v = ss
                       /\ v_snapshot_timestamp v = get row "snapshot_timestamp")
            <-> dt_ge a s = Ok true)
        /\ (dt_compare a s = Ok Eq -> status res = value FAIL)
        /\ (dt_compare a s = Ok Gt -> status res = value FAIL)
        /\ (dt_compare a s = Ok Lt ->
            ~ exists v, v ∈ post_match_violations res
                        /\ v_available_at v = sa /\ v_match_start_time v = ss))
    /\ (data self <> [] ->
        post_match_violations res = [] -> late_snapshot_count res = 0%nat ->
        status res = value PASS /\ issues res = []).
Proof.
  intros fromisoformat self res Hres.
  destruct (data self) as [|row0 rows0] eqn:Hd.
  { split; [|done]. intros row sa ss a s Hrow. by apply elem_of_nil in Hrow. }
  assert (Hne : data self <> []) by (rewrite Hd; done).
  destruct (detect_leakage_spec fromisoformat self res Hne Hres)
    as (Hpost & Hlate & Hstatus & Hissues & Hall).
  rewrite Hd in Hpost, Hlate, Hstatus, Hall.
  split.
  - intros row sa ss a s Hrow Ha Hs Hpa Hps.
    pose proof (post_match_entry_parsed fromisoformat row sa ss a s Ha Hs Hpa Hps)
      as Hentry.
    assert (Hcmp : exists c, dt_compare a s = Ok c).
    { destruct (dt_compare a s) as [c|e] eqn:Hc; [by eexists|].
      exfalso. apply (Hall row Hrow). rewrite Hentry. unfold dt_ge. rewrite Hc.
      cbn [mbind pyresult_bind]. f_equal.
      unfold dt_compare in Hc.
      destruct (dt_utcoffset a), (dt_utcoffset s); congruence. }
    assert (Hback : forall v, v ∈ post_match_violations res ->
                              v_available_at v = sa -> v_match_start_time v = ss ->
                              dt_ge a s = Ok true).
    { intros v Hv Hva Hvs. rewrite Hpost in Hv.
      apply list_elem_of_In, in_flat_map in Hv as (row' & _ & Hv).
      apply list_elem_of_In, row_post_inv in Hv
        as (a' & s' & d & _ & _ & Hpa' & Hps' & Hge & _).
      rewrite Hva, Hpa in Hpa'. rewrite Hvs, Hps in Hps'. congruence. }
    assert (Hforth : dt_ge a s = Ok true ->
                     exists v, v ∈ post_match_violations res
                               /\ v_match_id v = get row "match_id"
                               /\ v_available_at v = sa
                               /\ v_match_start_time v = ss
                               /\ v_snapshot_timestamp v = get row "snapshot_timestamp").
    { intros Hge. destruct (dt_ge_sub a s true Hge) as (d & Hsub & _).
      rewrite Hge, Hsub in Hentry. cbn [mbind pyresult_bind] in Hentry.
      exists {| v_match_id := get row "match_id";
                v_available_at := sa;
                v_match_start_time := ss;
                v_snapshot_timestamp := get row "snapshot_timestamp";
                v_delay_seconds := total_seconds d |}.
      split; [|repeat split; reflexivity].
      rewrite Hpost. apply list_elem_of_In, in_flat_map.
      exists row. split; [by apply list_elem_of_In|].
      unfold row_post. rewrite Hentry. apply list_elem_of_In, list_elem_of_here. }
    assert (Hfail : dt_ge a s = Ok true -> status res = value FAIL).
    { intros Hge. destruct (Hforth Hge) as (v & Hv & _). rewrite Hpost in Hv.
      rewrite Hstatus.
      destruct (flat_map (row_post fromisoformat) (row0 :: rows0));
        [by apply elem_of_nil in Hv|reflexivity]. }
    split; [exact Hcmp|]. split; [|split; [|split]].
    + split; [|exact Hforth]. intros (v & Hv & _ & Hva & Hvs & _). by eapply Hback.
    + intros Hc. apply Hfail. by rewrite (dt_compare_ge _ _ _ Hc).
    + intros Hc. apply Hfail. by rewrite (dt_compare_ge _ _ _ Hc).
    + intros Hc (v & Hv & Hva & Hvs).
      pose proof (Hback v Hv Hva Hvs) as Hge.
      rewrite (dt_compare_ge _ _ _ Hc) in Hge. discriminate.
  - intros _ Hnone Hzero. split; [|by apply Hissues].
    rewrite Hstatus. rewrite Hpost in Hnone. rewrite Hlate in Hzero.
    rewrite Hnone.
    destruct (flat_map (row_late fromisoformat) (row0 :: rows0)); [reflexivity|done].
Qed.

(** Two records with the same reference time: one available at that very
    second, one a second earlier.  The first is the only violation and the
    status is FAIL; the second alone passes. *)
Lemma leakage_boundary_witness :
  (exists res,
      LocalCSVOdds.detect_leakage fromisoformat_model
        (with_rows [on_the_start; one_second_early]) = Ok res
      /\ status res = value FAIL
      /\ map v_match_id (post_match_violations res) = [PStr "B0"])
  /\ (exists res,
        LocalCSVOdds.detect_leakage fromisoformat_model
          (with_rows [one_second_early]) = Ok res
        /\ status res = value PASS /\ issues res = []).
Proof.
  split.
  - eexists. split; [vm_compute; reflexivity|]. split; [|vm_compute; reflexivity].
    refine (proj1 (proj2 (proj2 (proj1
      (leakage_boundary fromisoformat_model
         (with_rows [on_the_start; one_second_early]) _ _)
      on_the_start "2024-01-01T12:00:00Z" "2024-01-01T12:00:00Z" _ _
      _ _ _ _ _))) _).
    + vm_compute; reflexivity.
    + apply list_elem_of_here.
    + vm_compute; reflexivity.
    + vm_compute; reflexivity.
    + vm_compute; reflexivity.
    + vm_compute; reflexivity.
    + vm_compute; reflexivity.
  - eexists. split; [vm_compute; reflexivity|].
    refine (proj2 (leakage_boundary fromisoformat_model
                     (with_rows [one_second_early]) _ _) _ _ _).
    + vm_compute; reflexivity.
    + discriminate.
    + vm_compute; reflexivity.
    + vm_compute; reflexivity.
Defined.

(** ** A naive timestamp compared with an aware one *)

Section MixedAwareness.

Variable fromisoformat : string -> option datetime.

Lemma post_match_entry_raises (row : gmap string pyval) (e : pyexn) :
  LocalCSVOdds.post_match_entry fromisoformat row = Raise e ->
  e = ValueError \/ e = TypeError.
Proof.
  unfold LocalCSVOdds.post_match_entry, LocalCSVOdds.parse.
  destruct (as_text (get row "available_at")) as [sa|]; [|discriminate].
  destruct (as_text (get row "match_start_time")) as [ss|]; [|discriminate].
  destruct (fromisoformat (replace_Z sa)) as [a|]; cbn [mbind pyresult_bind];
    [|intros [= <-]; by left].
  destruct (fromisoformat (replace_Z ss)) as [s|]; cbn [mbind pyresult_bind];
    [|intros [= <-]; by left].
  destruct (dt_ge a s) as [b|e'] eqn:Hge; cbn [mbind pyresult_bind].
  - destruct b; [|discriminate].
    destruct (dt_ge_sub a s true Hge) as (d & -> & _). discriminate.
  - intros [= <-]. right. by eapply dt_ge_only_type_error.
Qed.

Lemma late_entry_raises (row : gmap string pyval) (e : pyexn) :
  LocalCSVOdds.late_entry fromisoformat row = Raise e ->
  e = ValueError \/ e = TypeError.
Proof.
  unfold LocalCSVOdds.late_entry, LocalCSVOdds.parse.
  destruct (as_text (get row "snapshot_timestamp")) as [sn|]; [|discriminate].
  destruct (as_text (get row "match_start_time")) as [ss|]; [|discriminate].
  destruct (fromisoformat (replace_Z sn)) as [a|]; cbn [mbind pyresult_bind];
    [|intros [= <-]; by left].
  destruct (fromisoformat (replace_Z ss)) as [s|]; cbn [mbind pyresult_bind];
    [|intros [= <-]; by left].
  destruct (dt_ge a s) as [b|e'] eqn:Hge; cbn [mbind pyresult_bind]; [discriminate|].
  intros [= <-]. right. by eapply dt_ge_only_type_error.
Qed.

Lemma leakage_row_only_type_error (acc : list violation * list late_snapshot)
    (row : gmap string pyval) (e : pyexn) :
  LocalCSVOdds.leakage_row fromisoformat acc row = Raise e -> e = TypeError.
Proof.
  unfold LocalCSVOdds.leakage_row. destruct acc as [p l].
  destruct (LocalCSVOdds.post_match_entry fromisoformat row) as [vs|e1] eqn:Hp.
  - destruct (LocalCSVOdds.late_entry fromisoformat row) as [ls|e2] eqn:Hl;
      [discriminate|].
    destruct (late_entry_raises row e2 Hl) as [-> | ->]; [discriminate|].
    by intros [= <-].
  - destruct (post_match_entry_raises row e1 Hp) as [-> | ->]; [discriminate|].
    by intros [= <-].
Qed.

Lemma leakage_loop_only_type_error (rs : list (gmap string pyval))
    (acc : list violation * list late_snapshot) (e : pyexn) :
  LocalCSVOdds.leakage_loop fromisoformat rs acc = Raise e -> e = TypeError.
Proof.
  revert acc. induction rs as [|row rs IH]; intros acc;
    cbn [LocalCSVOdds.leakage_loop]; [discriminate|].
  destruct (LocalCSVOdds.leakage_row fromisoformat acc row) as [acc1|e1] eqn:Hrow;
    cbn [mbind pyresult_bind]; [apply IH|].
  intros [= <-]. by eapply leakage_row_only_type_error.
Qed.

(** The only exception that leaves the leakage check is [TypeError]. *)
Lemma detect_leakage_only_type_error (self : csv_connector) (e : pyexn) :
  LocalCSVOdds.detect_leakage fromisoformat self = Raise e -> e = TypeError.
Proof.
  unfold LocalCSVOdds.detect_leakage.
  destruct (nonempty (data self)); cbn [negb]; [|discriminate].
  destruct (LocalCSVOdds.leakage_loop fromisoformat (data self) ([], []))
    as [[p l]|e1] eqn:Hloop; cbn [mbind pyresult_bind]; [discriminate|].
  intros [= <-]. by eapply leakage_loop_only_type_error.
Qed.

(** One record that pairs a naive availability timestamp with an aware
    reference time, or the reverse, makes the whole check raise. *)
Lemma mixed_pair_raises (self : csv_connector) (row : gmap string pyval)
    (sa ss : string) (a s : datetime) :
  row ∈ data self ->
  as_text (get row "available_at") = Some sa ->
  as_text (get row "match_start_time") = Some ss ->
  fromisoformat (replace_Z sa) = Some a ->
  fromisoformat (replace_Z ss) = Some s ->
  dt_compare a s = Raise TypeError ->
  LocalCSVOdds.detect_leakage fromisoformat self = Raise TypeError.
Proof.
  intros Hrow Ha Hs Hpa Hps Hcmp.
  destruct (LocalCSVOdds.detect_leakage fromisoformat self) as [res|e] eqn:Hres.
  - exfalso.
    assert (Hne : data self <> []).
    { intros Hnil. rewrite Hnil in Hrow. by apply elem_of_nil in Hrow. }
    destruct (detect_leakage_spec fromisoformat self res Hne Hres)
      as (_ & _ & _ & _ & Hall).
    apply (Hall row Hrow).
    rewrite (post_match_entry_parsed fromisoformat row sa ss a s Ha Hs Hpa Hps).
    unfold dt_ge. by rewrite Hcmp.
  - f_equal. by eapply detect_leakage_only_type_error.
Qed.

End MixedAwareness.

(** C1, at the input where the code departs from it: the leaked record R2
    followed by a record whose availability timestamp is naive and whose
    reference time is aware.  Both timestamps of that record parse; their
    comparison raises [TypeError], which the handler of the loop does not
    catch, so the check raises and R2, which alone is classified as a
    violation with status FAIL, is not classified at all.  The same holds
    for every record set that holds such a pair. *)
Theorem mixed_awareness_loses_the_verdict :
  (exists a s,
      fromisoformat_model (replace_Z "2024-01-01T10:00:00") = Some a
      /\ fromisoformat_model (replace_Z "2024-01-01T12:00:00Z") = Some s
      /\ dt_utcoffset a = None /\ dt_utcoffset s = Some 0%Z
      /\ dt_compare a s = Raise TypeError)
  /\ (exists res,
        LocalCSVOdds.detect_leakage fromisoformat_model (with_rows [R2]) = Ok res
        /\ status res = value FAIL
        /\ map v_match_id (post_match_violations res) = [PStr "R2"])
  /\ LocalCSVOdds.detect_leakage fromisoformat_model (with_rows [R2; mixed_row])
     = Raise TypeError
  /\ LocalCSVOdds.detect_leakage fromisoformat_model (with_rows [mixed_row])
     = Raise TypeError
  /\ (forall (fromisoformat : string -> option datetime) (self : csv_connector)
             (row : gmap string pyval) (sa ss : string) (a s : datetime),
        row ∈ data self ->
        as_text (get row "available_at") = Some sa ->
        as_text (get row "match_start_time") = Some ss ->
        fromisoformat (replace_Z sa) = Some a ->
        fromisoformat (replace_Z ss) = Some s ->
        dt_utcoffset a = None /\ dt_utcoffset s <> None
        \/ dt_utcoffset a <> None /\ dt_utcoffset s = None ->
        LocalCSVOdds.detect_leakage fromisoformat self = Raise TypeError).
Proof.
  split; [|split; [|split; [|split]]].
  - eexists _, _. repeat split; vm_compute; reflexivity.
  - eexists. repeat split; vm_compute; reflexivity.
  - vm_compute; reflexivity.
  - vm_compute; reflexivity.
  - intros fromisoformat self row sa ss a s Hrow Ha Hs Hpa Hps Hmixed.
    apply (mixed_pair_raises fromisoformat self row sa ss a s Hrow Ha Hs Hpa Hps).
    unfold dt_compare.
    destruct (dt_utcoffset a), (dt_utcoffset s); try reflexivity;
      destruct Hmixed as [[? ?]|[? ?]]; congruence.
Qed.

Section Skipping.

Variable fromisoformat : string -> option datetime.

Lemma detect_leakage_no_value_error (self : csv_connector) :
  LocalCSVOdds.detect_leakage fromisoformat self <> Raise ValueError.
Proof.
  unfold LocalCSVOdds.detect_leakage.
  destruct (nonempty (data self)); cbn [negb]; [|discriminate].
  destruct (LocalCSVOdds.leakage_loop fromisoformat (data self) ([], []))
    as [[p l]|e] eqn:Hloop; cbn [mbind pyresult_bind]; [discriminate|].
  intros [= ->]. by apply leakage_loop_no_value_error in Hloop.
Qed.

(** A record whose availability timestamp or reference time does not parse
    adds nothing to either list. *)
Lemma malformed_pair_skipped (row : gmap string pyval) :
  malformed fromisoformat (get row "available_at")
  \/ malformed fromisoformat (get row "match_start_time") ->
  row_post fromisoformat row = [] /\ row_late fromisoformat row = [].
Proof.
  unfold malformed, row_post, row_late, LocalCSVOdds.post_match_entry,
    LocalCSVOdds.late_entry, LocalCSVOdds.parse.
  intros [(sa & Ha & Hpa) | (ss & Hs & Hps)].
  - rewrite Ha, Hpa.
    destruct (as_text (get row "match_start_time")) as [ss|];
      cbn [mbind pyresult_bind]; [done|].
    by destruct (as_text (get row "snapshot_timestamp")).
  - rewrite Hs, Hps.
    destruct (as_text (get row "available_at")) as [sa|].
    + destruct (fromisoformat (replace_Z sa)); cbn [mbind pyresult_bind]; done.
    + destruct (as_text (get row "snapshot_timestamp")) as [sn|]; [|done].
      destruct (fromisoformat (replace_Z sn)); cbn [mbind pyresult_bind]; done.
Qed.

(** A snapshot timestamp that does not parse adds no late-snapshot entry. *)
Lemma malformed_snapshot_not_late (row : gmap string pyval) :
  malformed fromisoformat (get row "snapshot_timestamp") ->
  row_late fromisoformat row = [].
Proof.
  unfold malformed, row_late, LocalCSVOdds.late_entry, LocalCSVOdds.parse.
  intros (sn & Hn & Hpn). rewrite Hn, Hpn.
  destruct (LocalCSVOdds.post_match_entry fromisoformat row); [|done].
  destruct (as_text (get row "match_start_time")); cbn [mbind pyresult_bind]; done.
Qed.

(** The delay of a reported violation is the difference of the two
    instants, and it is not negative. *)
Lemma violation_delay (self : csv_connector) (res : check_result) (v : violation) :
  LocalCSVOdds.detect_leakage fromisoformat self = Ok res ->
  v ∈ post_match_violations res ->
  exists a s d,
    fromisoformat (replace_Z (v_available_at v)) = Some a
    /\ fromisoformat (replace_Z (v_match_start_time v)) = Some s
    /\ dt_sub a s = Ok d
    /\ v_delay_seconds v = total_seconds d
    /\ (0 <= d)%Z.
Proof.
  intros Hres Hv.
  destruct (data self) as [|row0 rows0] eqn:Hd.
  { unfold LocalCSVOdds.detect_leakage in Hres. rewrite Hd in Hres.
    cbn [nonempty negb] in Hres. injection Hres as <-.
    by apply elem_of_nil in Hv. }
  assert (Hne : data self <> []) by (rewrite Hd; done).
  destruct (detect_leakage_spec fromisoformat self res Hne Hres) as (Hpost & _).
  rewrite Hpost in Hv.
  apply list_elem_of_In, in_flat_map in Hv as (row & _ & Hv).
  apply list_elem_of_In, row_post_inv in Hv
    as (a & s & d & _ & _ & Hpa & Hps & Hge & Hsub & Hdelay & _).
  exists a, s, d. repeat split; try done.
  destruct (dt_ge_sub a s true Hge) as (d' & Hsub' & Hpos).
  rewrite Hsub in Hsub'. injection Hsub' as <-. by apply Hpos.
Qed.

End Skipping.

(** C5, at the inputs where the code departs from its last clause.  The
    record R3 leaked and holds a snapshot timestamp that is not a
    timestamp.  It is not skipped: its availability was compared, and the
    violation appended, before the snapshot was parsed in the same [try]
    block, so R3 is reported and the status is FAIL, while the timestamp
    check reports the same record for its invalid snapshot timestamp.  A
    record whose availability timestamp is the malformed one is skipped
    whole, its late snapshot included.  And a record with a malformed
    snapshot timestamp that pairs a naive availability timestamp with an
    aware reference time makes the check raise [TypeError]. *)
Theorem malformed_record_is_not_skipped :
  malformed fromisoformat_model (get R3 "snapshot_timestamp")
  /\ (exists res,
        LocalCSVOdds.detect_leakage fromisoformat_model (with_rows [R3]) = Ok res
        /\ map v_match_id (post_match_violations res) = [PStr "R3"]
        /\ late_snapshot_count res = 0%nat
        /\ status res = value FAIL
        /\ issues res
           = ["CRITICAL LEAKAGE DETECTED: 1 odds snapshots have available_at >= match_start_time (look-ahead bias)"])
  /\ (exists res,
        LocalCSVOdds.check_timestamps fromisoformat_model (with_rows [R3]) = Ok res
        /\ status res = value FAIL
        /\ checks res !! "timestamp_format"
           = Some (DInvalid 1 ["R3: invalid snapshot_timestamp"]))
  /\ (malformed fromisoformat_model (get unreadable_availability_row "available_at")
      /\ LocalCSVOdds.detect_leakage fromisoformat_model
           (with_rows [unreadable_availability_row])
         = Ok {| status := value PASS; issues := [];
                 checks := <["late_snapshots" := DLate 0 []]>
                           (<["post_match_odds" := DPostMatch 0 []]> ∅) |})
  /\ (malformed fromisoformat_model (get mixed_malformed_row "snapshot_timestamp")
      /\ LocalCSVOdds.detect_leakage fromisoformat_model
           (with_rows [mixed_malformed_row])
         = Raise TypeError).
Proof.
  split; [|split; [|split; [|split]]].
  - exists "not-a-time". split; vm_compute; reflexivity.
  - eexists. split; [vm_compute; reflexivity|]. repeat split; vm_compute; reflexivity.
  - eexists. split; [vm_compute; reflexivity|]. split; vm_compute; reflexivity.
  - split; [exists "not-a-time"; split; vm_compute; reflexivity|].
    vm_compute; reflexivity.
  - split; [exists "not-a-time"; split; vm_compute; reflexivity|].
    vm_compute; reflexivity.
Qed.

(** The leakage scenario of the specification, and what the check does
    in general on the runs that return.  On the two records R1 (available
    two hours before the reference time) and R2 (available one hour after
    it) the leakage check returns FAIL with exactly one violation, R2,
    whose delay is 3600 seconds.  In general the delay of a violation is [available_at -
    reference_time] and is never negative; no [ValueError] ever leaves the
    check; a record whose [available_at] or [match_start_time] is malformed
    is skipped (it adds no entry of either kind); and a malformed
    [snapshot_timestamp] adds no late-snapshot entry, the verdict on
    [available_at] standing as it was reached. *)
Theorem leakage_scenario :
  (exists res v,
      LocalCSVOdds.detect_leakage fromisoformat_model (with_rows [R1; R2]) = Ok res
      /\ status res = value FAIL
      /\ issues res
         = ["CRITICAL LEAKAGE DETECTED: 1 odds snapshots have available_at >= match_start_time (look-ahead bias)"]
      /\ post_match_violations res = [v]
      /\ v_match_id v = PStr "R2"
      /\ v_available_at v = "2024-01-01T13:00:00Z"
      /\ v_match_start_time v = "2024-01-01T12:00:00Z"
      /\ (v_delay_seconds v == 3600)%Q
      /\ late_snapshot_count res = 0%nat)
  /\ (forall fromisoformat self,
        LocalCSVOdds.detect_leakage fromisoformat self <> Raise ValueError)
  /\ (forall fromisoformat self res v,
        LocalCSVOdds.detect_leakage fromisoformat self = Ok res ->
        v ∈ post_match_violations res ->
        exists a s d,
          fromisoformat (replace_Z (v_available_at v)) = Some a
          /\ fromisoformat (replace_Z (v_match_start_time v)) = Some s
          /\ dt_sub a s = Ok d
          /\ v_delay_seconds v = total_seconds d
          /\ (0 <= d)%Z)
  /\ (forall fromisoformat self res,
        data self <> [] ->
        LocalCSVOdds.detect_leakage fromisoformat self = Ok res ->
        post_match_violations res = flat_map (row_post fromisoformat) (data self)
        /\ late_snapshot_count res
           = length (flat_map (row_late fromisoformat) (data self)))
  /\ (forall fromisoformat row,
        malformed fromisoformat (get row "available_at")
        \/ malformed fromisoformat (get row "match_start_time") ->
        row_post fromisoformat row = [] /\ row_late fromisoformat row = [])
  /\ (forall fromisoformat row,
        malformed fromisoformat (get row "snapshot_timestamp") ->
        row_late fromisoformat row = []).
Proof.
  split; [|split; [|split; [|split; [|split]]]].
  - eexists _, _. split; [vm_compute; reflexivity|].
    split; [vm_compute; reflexivity|].
    split; [vm_compute; reflexivity|].
    split; [vm_compute; reflexivity|].
    repeat split; vm_compute; reflexivity.
  - apply detect_leakage_no_value_error.
  - intros fromisoformat self res v. apply violation_delay.
  - intros fromisoformat self res Hne Hres.
    destruct (detect_leakage_spec fromisoformat self res Hne Hres) as (Hp & Hl & _).
    by split.
  - apply malformed_pair_skipped.
  - apply malformed_snapshot_not_late.
Qed.

(** * Further properties of the code *)

(** ** The counters of the summary and the exit code *)

Section Counters.

Lemma step_counters (s : summary_t) (item : string * report) :
  let st := read_status item.2 in
  passed (summary_step s item) = (passed s + if String.eqb st "pass" then 1 else 0)%nat
  /\ failed (summary_step s item) = (failed s + if String.eqb st "fail" then 1 else 0)%nat
  /\ warnings (summary_step s item)
     = (warnings s + if String.eqb st "warning" then 1 else 0)%nat
  /\ not_available (summary_step s item)
     = (not_available s + if String.eqb st "not_available" then 1 else 0)%nat
  /\ total_connectors (summary_step s item) = total_connectors s.
Proof.
  destruct item as [src r]. unfold summary_step, read_status.
  cbv beta iota zeta. cbn [snd].
  generalize (default "unknown" (overall_status r)) as st. intros st.
  destruct (String.eqb_spec st "pass") as [->|H1];
    [simpl; repeat split; lia|].
  destruct (String.eqb_spec st "fail") as [->|H2];
    [simpl; repeat split; lia|].
  destruct (String.eqb_spec st "warning") as [->|H3];
    [simpl; repeat split; lia|].
  destruct (String.eqb_spec st "not_available") as [->|H4];
    simpl; repeat split; lia.
Qed.

Lemma fold_counters (l : list (string * report)) (s : summary_t) :
  passed (fold_left summary_step l s) = (passed s + count_status "pass" l)%nat
  /\ failed (fold_left summary_step l s) = (failed s + count_status "fail" l)%nat
  /\ warnings (fold_left summary_step l s) = (warnings s + count_status "warning" l)%nat
  /\ not_available (fold_left summary_step l s)
     = (not_available s + count_status "not_available" l)%nat
  /\ total_connectors (fold_left summary_step l s) = total_connectors s.
Proof.
  revert s. induction l as [|item l IH]; intros s.
  - unfold count_status. cbn. repeat split; lia.
  - cbn [fold_left]. destruct (IH (summary_step s item)) as (Hp & Hf & Hw & Hn & Ht).
    destruct (step_counters s item) as (Sp & Sf & Sw & Sn & St).
    rewrite Hp, Hf, Hw, Hn, Ht, Sp, Sf, Sw, Sn, St.
    unfold count_status. cbn [List.filter].
    repeat split; try reflexivity;
      match goal with |- context [String.eqb ?a ?b] => destruct (String.eqb a b) end;
      cbn [length]; lia.
Qed.

Lemma one_class (st : string) :
  (Nat.b2n (String.eqb st "pass") + Nat.b2n (String.eqb st "fail")
   + Nat.b2n (String.eqb st "warning") + Nat.b2n (String.eqb st "not_available")
   + Nat.b2n (negb (py_in st [value PASS; value FAIL; value WARNING;
                               value NOT_AVAILABLE])) = 1)%nat.
Proof.
  destruct (String.eqb_spec st "pass") as [->|H1]; [vm_compute; reflexivity|].
  destruct (String.eqb_spec st "fail") as [->|H2]; [vm_compute; reflexivity|].
  destruct (String.eqb_spec st "warning") as [->|H3]; [vm_compute; reflexivity|].
  destruct (String.eqb_spec st "not_available") as [->|H4]; [vm_compute; reflexivity|].
  unfold py_in. rewrite bool_decide_eq_false_2; [reflexivity|].
  cbn [value]. intros Hin.
  repeat (apply elem_of_cons in Hin as [Hin|Hin]; [congruence|]).
  by apply elem_of_nil in Hin.
Qed.

Lemma length_filter_cons {A : Type} (p : A -> bool) (x : A) (l : list A) :
  length (List.filter p (x :: l)) = (Nat.b2n (p x) + length (List.filter p l))%nat.
Proof. cbn [List.filter]. by destruct (p x). Qed.

(** Every source falls in one class: one of the four statuses, or none. *)
Lemma status_classes (l : list (string * report)) :
  (count_status "pass" l + count_status "fail" l + count_status "warning" l
   + count_status "not_available" l + count_unknown l = length l)%nat.
Proof.
  unfold count_status, count_unknown.
  induction l as [|item l IH]; [reflexivity|].
  rewrite !length_filter_cons. cbn [length].
  pose proof (one_class (read_status item.2)). lia.
Qed.

Lemma run_full_audit_status (c : DataConnector) (r : report) :
  run_full_audit c = Ok r ->
  exists st : AuditStatus, overall_status r = Some (value st).
Proof.
  unfold run_full_audit.
  destruct (check_availability c) as [a|]; [|discriminate].
  destruct (audit_data_quality c) as [q|]; [|discriminate].
  destruct (check_timestamps c) as [t|]; [|discriminate].
  destruct (detect_leakage c) as [l|]; [|discriminate].
  cbn [mbind pyresult_bind]. intros [= <-]. cbn [overall_status].
  unfold determine_overall_status.
  repeat (match goal with |- context [if ?b then _ else _] => destruct b end);
    by eexists.
Qed.

Lemma reports_of_status (cs : list DataConnector) (rs : list (string * report)) :
  reports_of cs = Ok rs ->
  forall item, item ∈ rs -> exists st : AuditStatus, overall_status item.2 = Some (value st).
Proof.
  revert rs. induction cs as [|c cs IH]; intros rs; cbn [reports_of].
  - intros [= <-] item Hin. by apply elem_of_nil in Hin.
  - destruct (run_full_audit c) as [r|] eqn:Hr; [|discriminate].
    cbn [mbind pyresult_bind].
    destruct (reports_of cs) as [rs'|]; [|discriminate].
    cbn [mbind pyresult_bind]. intros [= <-] item Hin.
    apply elem_of_cons in Hin as [->|Hin]; [by eapply run_full_audit_status|].
    by eapply IH.
Qed.

Lemma dict_set_elem {V : Type} (k : string) (v : V) (d : list (string * V))
    (item : string * V) :
  item ∈ dict_set k v d -> item = (k, v) \/ item ∈ d.
Proof.
  induction d as [|[k0 v0] d IH]; cbn [dict_set].
  - intros Hin. apply list_elem_of_singleton in Hin. by left.
  - destruct (String.eqb k0 k).
    + intros Hin. apply elem_of_cons in Hin as [->|Hin]; [by left|].
      right. by apply list_elem_of_further.
    + intros Hin. apply elem_of_cons in Hin as [->|Hin].
      * right. apply list_elem_of_here.
      * destruct (IH Hin) as [->|H]; [by left|]. right. by apply list_elem_of_further.
Qed.

Lemma dict_store_elem {V : Type} (items d : list (string * V)) (item : string * V) :
  item ∈ dict_store d items -> item ∈ d \/ item ∈ items.
Proof.
  unfold dict_store. revert d. induction items as [|[k v] items IH]; intros d; cbn [foldl].
  - by left.
  - intros Hin. destruct (IH _ Hin) as [H|H].
    + cbn [fst snd] in H. destruct (dict_set_elem _ _ _ _ H) as [->|H'].
      * right. apply list_elem_of_here.
      * by left.
    + right. by apply list_elem_of_further.
Qed.

End Counters.

Section CountersUse.

Lemma count_status_pos (s : string) (l : list (string * report)) :
  (0 < count_status s l)%nat <-> exists item, item ∈ l /\ read_status item.2 = s.
Proof.
  unfold count_status. induction l as [|item l IH].
  - cbn. split; [lia|]. intros (item & Hin & _). by apply elem_of_nil in Hin.
  - rewrite length_filter_cons.
    destruct (String.eqb_spec (read_status item.2) s) as [E|Hne]; cbn [Nat.b2n].
    + split; [|lia]. intros _. exists item. split; [apply list_elem_of_here|done].
    + rewrite Nat.add_0_l, IH. split.
      * intros (it & Hin & Hs). exists it. split; [by apply list_elem_of_further|done].
      * intros (it & Hin & Hs). apply elem_of_cons in Hin as [->|Hin]; [done|].
        by exists it.
Qed.

Lemma read_status_fail (r : report) :
  read_status r = value FAIL <-> overall_status r = Some (value FAIL).
Proof.
  unfold read_status. destruct (overall_status r); cbn; split; congruence.
Qed.

Lemma no_failure_no_critical (l : list (string * report)) :
  count_status "fail" l = 0%nat -> expected_critical_issues l = [].
Proof.
  unfold count_status, expected_critical_issues.
  induction l as [|[src r] l IH]; [reflexivity|].
  rewrite length_filter_cons. cbn [flat_map fst snd].
  change (is_failed r) with (String.eqb (read_status r) "fail").
  destruct (String.eqb (read_status r) "fail"); cbn [Nat.b2n]; [lia|].
  intros H. by rewrite IH.
Qed.

Lemma count_unknown_zero (l : list (string * report)) :
  (forall item, item ∈ l -> exists st : AuditStatus, overall_status item.2 = Some (value st)) ->
  count_unknown l = 0%nat.
Proof.
  unfold count_unknown. induction l as [|item l IH]; intros Hall; [reflexivity|].
  rewrite length_filter_cons, IH.
  - destruct (Hall item) as [st Hst]; [apply list_elem_of_here|].
    unfold read_status. rewrite Hst. by destruct st.
  - intros it Hin. apply Hall. by apply list_elem_of_further.
Qed.

Lemma length_dict_set {V : Type} (k : string) (v : V) (d : list (string * V)) :
  (length (dict_set k v d) <= S (length d))%nat.
Proof.
  induction d as [|[k0 v0] d IH]; cbn [dict_set length]; [lia|].
  destruct (String.eqb k0 k); cbn [length]; lia.
Qed.

Lemma length_dict_store {V : Type} (items d : list (string * V)) :
  (length (dict_store d items) <= length d + length items)%nat.
Proof.
  unfold dict_store. revert d. induction items as [|[k v] items IH]; intros d;
    cbn [foldl length]; [lia|].
  pose proof (IH (dict_set k v d)). pose proof (length_dict_set k v d).
  cbn [fst snd] in *. lia.
Qed.

(** The counters of the summary are the numbers of sources per status. *)
Lemma summary_counters (audit_results : list (string * report)) :
  let s := _generate_summary audit_results in
  passed s = count_status "pass" audit_results
  /\ failed s = count_status "fail" audit_results
  /\ warnings s = count_status "warning" audit_results
  /\ not_available s = count_status "not_available" audit_results
  /\ total_connectors s = length audit_results
  /\ (passed s + failed s + warnings s + not_available s
      + count_unknown audit_results = total_connectors s)%nat.
Proof.
  intros s. unfold s, _generate_summary.
  set (s0 := {| total_connectors := length audit_results; passed := 0; failed := 0;
                warnings := 0; not_available := 0; critical_issues := [];
                all_issues := [] |}).
  destruct (fold_counters audit_results s0) as (Hp & Hf & Hw & Hn & Ht).
  cbn [passed failed warnings not_available total_connectors s0] in Hp, Hf, Hw, Hn, Ht.
  rewrite Hp, Hf, Hw, Hn, Ht. cbn [Nat.add].
  repeat (split; [reflexivity|]). apply status_classes.
Qed.

End CountersUse.

(** X1. The summary tallies every source exactly once: each of the four
    counters is the number of sources with that overall status,
    [total_connectors] is the number of sources, and the four counters
    together with the sources whose status is none of the four (or is
    absent) add up to it.  When no source failed, [critical_issues] is
    empty. *)
Theorem summary_counts_each_source_once :
  forall audit_results : list (string * report),
    let s := _generate_summary audit_results in
    passed s = count_status "pass" audit_results
    /\ failed s = count_status "fail" audit_results
    /\ warnings s = count_status "warning" audit_results
    /\ not_available s = count_status "not_available" audit_results
    /\ total_connectors s = length audit_results
    /\ (passed s + failed s + warnings s + not_available s
        + count_unknown audit_results = total_connectors s)%nat
    /\ (failed s = 0%nat -> critical_issues s = []).
Proof.
  intros audit_results s. unfold s, _generate_summary.
  set (s0 := {| total_connectors := length audit_results; passed := 0; failed := 0;
                warnings := 0; not_available := 0; critical_issues := [];
                all_issues := [] |}).
  destruct (fold_counters audit_results s0) as (Hp & Hf & Hw & Hn & Ht).
  cbn [passed failed warnings not_available total_connectors s0] in Hp, Hf, Hw, Hn, Ht.
  rewrite Hp, Hf, Hw, Hn, Ht. cbn [Nat.add].
  repeat (split; [reflexivity|]). split.
  - apply status_classes.
  - intros Hzero. rewrite fold_critical_issues. cbn [critical_issues s0 app].
    by apply no_failure_no_critical.
Qed.

(** X2. In the result of [run_audit] the four counters of the summary add
    up to [total_connectors], which is the number of entries of [results]:
    every audited source has one of the four statuses.  That number never
    exceeds the number of names in [connectors_audited]. *)
Theorem run_audit_counters_add_up :
  forall (cs : list DataConnector) (connectors : option (list string))
         (out : audit_output),
    run_audit cs connectors = Ok out ->
    (passed (summary out) + failed (summary out) + warnings (summary out)
     + not_available (summary out) = total_connectors (summary out))%nat
    /\ total_connectors (summary out) = length (results out)
    /\ (length (results out) <= length (connectors_audited out))%nat.
Proof.
  intros cs connectors out. rewrite run_audit_spec.
  destruct (reports_of (kept connectors cs)) as [rs|] eqn:Hrs; [|discriminate].
  cbn [mbind pyresult_bind]. intros [= <-]. cbn [summary results connectors_audited].
  destruct (summary_counters (dict_store [] rs)) as (_ & _ & _ & _ & Ht & Hsum).
  rewrite count_unknown_zero in Hsum.
  - split; [lia|]. split; [exact Ht|].
    rewrite length_map. pose proof (length_dict_store rs []). cbn [length] in *. lia.
  - intros item Hin. apply dict_store_elem in Hin as [Hin|Hin];
      [by apply elem_of_nil in Hin|]. by eapply reports_of_status.
Qed.

(** Two sources audited without a selection. *)
Lemma run_audit_counters_witness :
  exists out, run_audit two_connectors None = Ok out
    /\ (passed (summary out) + failed (summary out) + warnings (summary out)
        + not_available (summary out) = total_connectors (summary out))%nat
    /\ total_connectors (summary out) = 2%nat.
Proof.
  eexists. split; [vm_compute; reflexivity|].
  split; [|vm_compute; reflexivity].
  refine (proj1 (run_audit_counters_add_up two_connectors None _ _)).
  vm_compute; reflexivity.
Defined.

(** The exit code from the run on: 1 when the run or the report
    generation raised, otherwise 1 exactly when some audited source
    failed. *)
Lemma audit_command_exit_code :
  forall (cs : list DataConnector) (names : list string),
    audit_command cs names false = 1%nat
    /\ match run_audit cs (cli_selection names) with
       | Raise _ => audit_command cs names true = 1%nat
       | Ok out =>
           (audit_command cs names true = 1%nat <->
            exists item, item ∈ results out
                         /\ overall_status item.2 = Some (value FAIL))
           /\ (audit_command cs names true = 0%nat <->
               forall item, item ∈ results out ->
                            overall_status item.2 <> Some (value FAIL))
       end.
Proof.
  intros cs names. unfold audit_command.
  destruct (run_audit cs (cli_selection names)) as [out|e] eqn:Hrun;
    [|split; reflexivity].
  split; [reflexivity|].
  assert (Hs : summary out = _generate_summary (results out)).
  { rewrite run_audit_spec in Hrun.
    destruct (reports_of (kept (cli_selection names) cs)); [|discriminate].
    cbn [mbind pyresult_bind] in Hrun. by injection Hrun as <-. }
  destruct (summary_counters (results out)) as (_ & Hf & _).
  rewrite <- Hs in Hf. unfold exit_code. rewrite Hf.
  pose proof (count_status_pos "fail" (results out)) as Hpos.
  assert (Hex : (exists item, item ∈ results out /\ read_status item.2 = "fail") <->
                exists item, item ∈ results out
                             /\ overall_status item.2 = Some (value FAIL)).
  { split; intros (item & Hin & H); exists item; (split; [done|]);
      by apply read_status_fail. }
  assert (Hcode : (if (0 <? count_status "fail" (results out))%nat then 1%nat
                   else if (0 <? warnings (summary out))%nat then 0%nat else 0%nat)
                  = if (0 <? count_status "fail" (results out))%nat then 1%nat else 0%nat).
  { by destruct (0 <? count_status "fail" (results out))%nat,
                (0 <? warnings (summary out))%nat. }
  rewrite Hcode. clear Hcode.
  destruct (Nat.ltb_spec 0 (count_status "fail" (results out))) as [Hlt|Hge].
  - split; split; try done.
    + intros _. by apply Hex, Hpos.
    + intros Hall. exfalso.
      apply Hpos, Hex in Hlt as (item & Hin & Hfail). by apply (Hall item).
  - split; split; try done.
    + intros Hex'. apply Hex, Hpos in Hex'. lia.
    + intros _ item Hin Hfail. assert (0 < count_status "fail" (results out))%nat; [|lia].
      apply Hpos, Hex. by exists item.
Qed.

(** X3. The [audit] command exits with 0 or 1.  It exits with 0 exactly
    when every step went through (the configuration was loaded, the
    framework was constructed, the run returned, the report formats were
    read and the reports were generated) and no audited source has overall
    status FAIL; in every other case it exits with 1.  When every step went
    through, it exits with 1 exactly when some audited source has overall
    status FAIL: warnings and unavailable sources do not change the exit
    code. *)
Theorem exit_code_reflects_failures :
  forall (config_loaded : bool) (framework : option (list DataConnector))
         (names : list string) (report_formats_read reports_generated : bool),
    let code :=
      audit config_loaded framework names report_formats_read reports_generated in
    (code = 0%nat \/ code = 1%nat)
    /\ (code = 0%nat <->
        config_loaded = true /\ report_formats_read = true
        /\ reports_generated = true
        /\ exists cs out,
             framework = Some cs
             /\ run_audit cs (cli_selection names) = Ok out
             /\ forall item, item ∈ results out ->
                             overall_status item.2 <> Some (value FAIL))
    /\ (forall cs out,
          config_loaded = true -> framework = Some cs ->
          run_audit cs (cli_selection names) = Ok out ->
          report_formats_read = true -> reports_generated = true ->
          (code = 1%nat <->
           exists item, item ∈ results out
                        /\ overall_status item.2 = Some (value FAIL)))
    /\ (forall cs,
          config_loaded = true -> framework = Some cs -> report_formats_read = true ->
          code = audit_command cs names reports_generated).
Proof.
  intros config_loaded framework names report_formats_read reports_generated code.
  assert (Hcode : code = if config_loaded then
                           match framework with
                           | None => 1%nat
                           | Some cs =>
                               if report_formats_read
                               then audit_command cs names reports_generated
                               else 1%nat
                           end
                         else 1%nat).
  { unfold code, audit, audit_command. destruct config_loaded; [|reflexivity].
    destruct framework as [cs|]; [|reflexivity].
    destruct (run_audit cs (cli_selection names)); [reflexivity|].
    by destruct report_formats_read. }
  clearbody code. subst code.
  destruct config_loaded.
  2: { split; [by right|]. split; [|split].
       - split; [done|]. by intros (? & _).
       - by intros cs out ?.
       - by intros cs ?. }
  destruct framework as [cs|].
  2: { split; [by right|]. split; [|split].
       - split; [done|]. by intros (_ & _ & _ & ? & ? & ? & _).
       - by intros cs out _ ?.
       - by intros cs _ ?. }
  destruct report_formats_read.
  2: { split; [by right|]. split; [|split].
       - split; [done|]. by intros (_ & ? & _).
       - by intros cs' out _ _ _ ?.
       - by intros cs' _ _ ?. }
  destruct (audit_command_exit_code cs names) as [Hfalse Hrun].
  destruct reports_generated.
  2: { rewrite Hfalse. split; [by right|]. split; [|split].
       - split; [done|]. by intros (_ & _ & ? & _).
       - by intros cs' out _ _ _ _ ?.
       - intros cs' _ [= <-] _. by rewrite Hfalse. }
  destruct (run_audit cs (cli_selection names)) as [out|e] eqn:Hout.
  2: { rewrite Hrun. split; [by right|]. split; [|split].
       - split; [done|].
         intros (_ & _ & _ & cs' & out' & [= <-] & Hout' & _).
         rewrite Hout in Hout'. discriminate.
       - intros cs' out' _ [= <-] Hout'. rewrite Hout in Hout'. discriminate.
       - intros cs' _ [= <-] _. by rewrite Hrun. }
  destruct Hrun as [Hone Hzero].
  split; [|split; [|split]].
  - destruct (audit_command cs names true) as [|[|n]] eqn:Hc; [by left|by right|].
    exfalso. unfold audit_command in Hc. rewrite Hout in Hc. unfold exit_code in Hc.
    by repeat (destruct (_ <? _)%nat in Hc).
  - rewrite Hzero. split.
    + intros Hall. repeat (split; [reflexivity|]). by exists cs, out.
    + intros (_ & _ & _ & cs' & out' & [= <-] & Hout' & Hall).
      rewrite Hout in Hout'. by injection Hout' as <-.
  - intros cs' out' _ [= <-] Hout' _ _. rewrite Hout in Hout'.
    injection Hout' as <-. exact Hone.
  - by intros cs' _ [= <-] _.
Qed.

(** ** The results mapping and the lookup of connectors *)

Section Dictionary.

Context {V : Type}.

Lemma dict_get_set (k k' : string) (v : V) (d : list (string * V)) :
  dict_get k (dict_set k' v d) = if String.eqb k' k then Some v else dict_get k d.
Proof.
  induction d as [|[k0 v0] d IH]; cbn [dict_set dict_get].
  - by destruct (String.eqb k' k).
  - destruct (String.eqb_spec k0 k') as [->|Hne]; cbn [dict_get].
    + by destruct (String.eqb k' k).
    + rewrite IH. destruct (String.eqb_spec k0 k) as [->|Hk]; [|reflexivity].
      destruct (String.eqb_spec k' k) as [->|]; [done|reflexivity].
Qed.

Lemma dict_get_app (k : string) (d1 d2 : list (string * V)) :
  dict_get k (d1 ++ d2)
  = match dict_get k d1 with Some v => Some v | None => dict_get k d2 end.
Proof.
  induction d1 as [|[k0 v0] d1 IH]; cbn [app dict_get]; [reflexivity|].
  by destruct (String.eqb k0 k).
Qed.

Lemma dict_get_store (k : string) (items d : list (string * V)) :
  dict_get k (dict_store d items)
  = match dict_get k (rev items) with Some v => Some v | None => dict_get k d end.
Proof.
  unfold dict_store. revert d. induction items as [|[k' v] items IH]; intros d;
    cbn [foldl rev]; [reflexivity|].
  rewrite IH, dict_get_app. cbn [fst snd dict_get].
  destruct (dict_get k (rev items)); [reflexivity|].
  rewrite dict_get_set. by destruct (String.eqb k' k).
Qed.

Lemma dict_set_new (k : string) (v : V) (d : list (string * V)) :
  k ∉ keys d -> dict_set k v d = d ++ [(k, v)].
Proof.
  unfold keys. induction d as [|[k0 v0] d IH]; cbn [dict_set map fst app]; [done|].
  intros Hnot. apply not_elem_of_cons in Hnot as [Hne Hnot].
  destruct (String.eqb_spec k0 k) as [->|_]; [done|]. by rewrite IH.
Qed.

Lemma NoDup_dict_set (k : string) (v : V) (d : list (string * V)) :
  NoDup (keys d) -> NoDup (keys (dict_set k v d)).
Proof.
  unfold keys. induction d as [|[k0 v0] d IH]; cbn [dict_set map fst].
  - intros _. apply NoDup_singleton.
  - intros Hnd. apply NoDup_cons in Hnd as [Hnot Hnd].
    destruct (String.eqb_spec k0 k) as [->|Hne]; cbn [map fst].
    + by apply NoDup_cons.
    + apply NoDup_cons. split; [|by apply IH].
      rewrite dict_set_keys. intros [->|Hin]; done.
Qed.

Lemma NoDup_dict_store (items d : list (string * V)) :
  NoDup (keys d) -> NoDup (keys (dict_store d items)).
Proof.
  unfold dict_store. revert d. induction items as [|[k v] items IH]; intros d Hnd;
    cbn [foldl]; [done|]. apply IH. by apply NoDup_dict_set.
Qed.

Lemma dict_store_fresh (items d : list (string * V)) :
  NoDup (keys d ++ keys items) -> dict_store d items = d ++ items.
Proof.
  unfold dict_store. revert d. induction items as [|[k v] items IH]; intros d Hnd;
    cbn [foldl fst snd]; [by rewrite app_nil_r|].
  unfold keys in Hnd. cbn [map fst] in Hnd.
  rewrite dict_set_new.
  - rewrite IH; [by rewrite <- app_assoc|].
    unfold keys. rewrite map_app. cbn [map fst]. by rewrite <- app_assoc.
  - apply NoDup_app in Hnd as (_ & Hdisj & _). intros Hin.
    apply (Hdisj k Hin). apply list_elem_of_here.
Qed.

End Dictionary.

(** X4. The [results] mapping of a run is a dictionary: its keys are
    pairwise distinct and are the names in [connectors_audited]; the report
    stored under a name is the one of the last audited connector bearing
    that name; and when the audited names are distinct the keys stand in
    the order of the audit. *)
Theorem results_is_a_dictionary :
  forall (cs : list DataConnector) (connectors : option (list string))
         (out : audit_output),
    run_audit cs connectors = Ok out ->
    NoDup (keys (results out))
    /\ (forall name, name ∈ keys (results out) <-> name ∈ connectors_audited out)
    /\ (NoDup (connectors_audited out) -> keys (results out) = connectors_audited out)
    /\ exists rs, reports_of (kept connectors cs) = Ok rs
         /\ connectors_audited out = keys rs
         /\ forall name, dict_get name (results out) = dict_get name (rev rs).
Proof.
  intros cs connectors out. rewrite run_audit_spec.
  destruct (reports_of (kept connectors cs)) as [rs|] eqn:Hrs; [|discriminate].
  cbn [mbind pyresult_bind]. intros [= <-]. cbn [results connectors_audited].
  split; [apply NoDup_dict_store, NoDup_nil_2|].
  split; [|split].
  - intros name. unfold keys. rewrite dict_store_keys. cbn [map].
    rewrite elem_of_nil. tauto.
  - intros Hnd. rewrite dict_store_fresh; [reflexivity|]. by cbn [keys map app].
  - exists rs. split; [reflexivity|]. split; [reflexivity|].
    intros name. rewrite dict_get_store. cbn [dict_get].
    by destruct (dict_get name (rev rs)).
Qed.

(** Two connectors of distinct names. *)
Lemma results_is_a_dictionary_witness :
  exists out, run_audit two_connectors None = Ok out
    /\ keys (results out) = ["match_results"; "pre_match_odds"].
Proof.
  eexists. split; [vm_compute; reflexivity|].
  refine (eq_trans
    (proj1 (proj2 (proj2 (results_is_a_dictionary two_connectors None _ _))) _) _).
  - vm_compute; reflexivity.
  - vm_compute. apply NoDup_cons. split; [|apply NoDup_singleton].
    intros Hin. apply list_elem_of_singleton in Hin. discriminate.
  - vm_compute; reflexivity.
Defined.

Section Lookup.

Lemma get_connector_none (cs : list DataConnector) (name : string) :
  get_connector cs name = None <-> name ∉ list_connectors cs.
Proof.
  unfold list_connectors. induction cs as [|c cs IH]; cbn [get_connector map].
  - split; [|done]. intros _ Hin. by apply elem_of_nil in Hin.
  - destruct (String.eqb_spec (get_source_name c) name) as [->|Hne].
    + split; [done|]. intros Hnot. exfalso. apply Hnot, list_elem_of_here.
    + rewrite IH, not_elem_of_cons. split; [by split|by intros [_ ?]].
Qed.

Lemma get_connector_some (cs : list DataConnector) (name : string) (c : DataConnector) :
  get_connector cs name = Some c ->
  get_source_name c = name
  /\ exists pre post, cs = pre ++ c :: post /\ name ∉ list_connectors pre.
Proof.
  unfold list_connectors. induction cs as [|c0 cs IH]; cbn [get_connector]; [done|].
  destruct (String.eqb_spec (get_source_name c0) name) as [E|Hne].
  - intros [= <-]. split; [done|]. exists [], cs. split; [reflexivity|].
    intros Hin. by apply elem_of_nil in Hin.
  - intros Hget. destruct (IH Hget) as (Hname & pre & post & -> & Hpre).
    split; [done|]. exists (c0 :: pre), post. split; [reflexivity|].
    cbn [map]. by apply not_elem_of_cons.
Qed.

End Lookup.

(** X5. [get_connector] answers [None] exactly for the names that
    [list_connectors] does not list; otherwise it answers the first
    connector of that name.  A run that selects one name audits the
    connectors of that name and no other: it lists the name when
    [get_connector] finds a connector, and audits nothing when it finds
    none. *)
Theorem get_connector_finds_first :
  forall (cs : list DataConnector) (name : string),
    (get_connector cs name = None <-> name ∉ list_connectors cs)
    /\ (forall c, get_connector cs name = Some c ->
          get_source_name c = name
          /\ exists pre post, cs = pre ++ c :: post /\ name ∉ list_connectors pre)
    /\ (forall out, run_audit cs (Some [name]) = Ok out ->
          (forall n, n ∈ connectors_audited out -> n = name)
          /\ (connectors_audited out = [] <-> get_connector cs name = None)).
Proof.
  intros cs name. split; [apply get_connector_none|].
  split; [intros c; apply get_connector_some|].
  intros out. rewrite run_audit_spec.
  destruct (reports_of (kept (Some [name]) cs)) as [rs|] eqn:Hrs; [|discriminate].
  cbn [mbind pyresult_bind]. intros [= <-]. cbn [connectors_audited].
  apply reports_of_names in Hrs. rewrite Hrs.
  rewrite kept_selection by done.
  rewrite (map_filter_names cs (fun n => py_in n [name])).
  split.
  - intros n Hn. apply list_elem_of_In, filter_In in Hn as [_ Hn].
    apply py_in_spec, list_elem_of_singleton in Hn. done.
  - rewrite get_connector_none. unfold list_connectors.
    induction (map get_source_name cs) as [|n l IH]; cbn [List.filter].
    + split; [|done]. intros _ Hin. by apply elem_of_nil in Hin.
    + destruct (py_in n [name]) eqn:Hn.
      * apply py_in_spec, list_elem_of_singleton in Hn as ->.
        split; [done|]. intros Hnot. exfalso. apply Hnot, list_elem_of_here.
      * rewrite IH, not_elem_of_cons. split; [|by intros [_ ?]].
        intros Hnot. split; [|done]. intros ->.
        assert (py_in n [n] = true) by (apply py_in_spec, list_elem_of_here).
        congruence.
Qed.

(** X6. The overall status is FAIL exactly when some check status is
    "fail", WARNING exactly when none is "fail" and one is "warning",
    NOT_AVAILABLE exactly when none is "fail" or "warning" and one is
    "not_available", and PASS in every other case: a status string outside
    the enumeration counts as a pass.  The order of the statuses does not
    matter. *)
Theorem overall_status_by_membership :
  forall statuses : list string,
    (determine_overall_status statuses = value FAIL <-> value FAIL ∈ statuses)
    /\ (determine_overall_status statuses = value WARNING <->
        (value FAIL ∉ statuses) /\ value WARNING ∈ statuses)
    /\ (determine_overall_status statuses = value NOT_AVAILABLE <->
        (value FAIL ∉ statuses) /\ (value WARNING ∉ statuses)
        /\ value NOT_AVAILABLE ∈ statuses)
    /\ (determine_overall_status statuses = value PASS <->
        (value FAIL ∉ statuses) /\ (value WARNING ∉ statuses)
        /\ (value NOT_AVAILABLE ∉ statuses))
    /\ (forall statuses', statuses ≡ₚ statuses' ->
          determine_overall_status statuses' = determine_overall_status statuses).
Proof.
  intros statuses.
  assert (Hin : forall x l, py_in x l = false <-> x ∉ l).
  { intros x l. unfold py_in. apply bool_decide_eq_false. }
  unfold determine_overall_status.
  repeat split;
    try (destruct (py_in (value FAIL) statuses) eqn:Hf,
                  (py_in (value WARNING) statuses) eqn:Hw,
                  (py_in (value NOT_AVAILABLE) statuses) eqn:Hn;
         rewrite ?py_in_spec, ?Hin in *; cbn [value] in *;
         first [ done | discriminate | tauto
               | intros; repeat split; done
               | intros (? & ?); done | intros (? & ? & ?); done ]).
  intros statuses' Hperm.
  assert (Hp : forall x, py_in x statuses' = py_in x statuses).
  { intros x. unfold py_in. apply bool_decide_ext. by rewrite Hperm. }
  by rewrite !Hp.
Qed.

(** ** The CSV report and the report files *)

Section Reports.

Lemma write_csv_rows (l : list (string * report)) (written : list (list string)) :
  fold_left (fun written item => written ++ [csv_row item]) l written
  = written ++ map csv_row l.
Proof.
  revert written. induction l as [|item l IH]; intros written; cbn [fold_left map].
  - by rewrite app_nil_r.
  - rewrite IH. by rewrite <- app_assoc.
Qed.

Lemma csv_issues_spec (r : report) : csv_issues r = issues_of (fun _ issue => issue) r.
Proof.
  unfold csv_issues, issues_of.
  assert (H : forall cts acc,
             fold_left (fun issues_acc check_type =>
                          match r_checks r !! check_type with
                          | Some c => issues_acc ++ issues c
                          | None => issues_acc
                          end) cts acc
             = acc ++ flat_map (fun check_type =>
                                  match r_checks r !! check_type with
                                  | Some c => map (fun issue => issue) (issues c)
                                  | None => []
                                  end) cts).
  { induction cts as [|ct cts IH]; intros acc; cbn [fold_left flat_map].
    - by rewrite app_nil_r.
    - rewrite IH. destruct (r_checks r !! ct); [|reflexivity].
      by rewrite map_id, <- app_assoc. }
  by rewrite H.
Qed.

Lemma issues_of_prefixed (src : string) (r : report) :
  issues_of (critical_entry src) r
  = map (fun issue => src +:+ ": " +:+ issue) (csv_issues r).
Proof.
  rewrite csv_issues_spec. unfold issues_of.
  induction check_types as [|ct cts IH]; cbn [flat_map]; [reflexivity|].
  rewrite map_app, IH. f_equal.
  destruct (r_checks r !! ct); [|reflexivity]. by rewrite map_map.
Qed.

End Reports.

(** X7. The CSV report has the header row followed by one row per entry
    of [results], in the order of [results]; every row has seven cells and
    the first cell of a source's row is its name. *)
Theorem csv_report_has_one_row_per_source :
  forall out : audit_output,
    _write_csv out = csv_header :: map csv_row (results out)
    /\ length (_write_csv out) = S (length (results out))
    /\ Forall (fun row : list string => length row = 7%nat) (_write_csv out)
    /\ map (fun row : list string => hd "" row) (tl (_write_csv out))
       = keys (results out).
Proof.
  intros out. unfold _write_csv. rewrite write_csv_rows. cbn [app].
  split; [reflexivity|]. split; [cbn [length]; by rewrite length_map|].
  split.
  - apply Forall_cons. split; [reflexivity|].
    apply Forall_forall. intros row Hrow.
    apply list_elem_of_In, in_map_iff in Hrow as ([src r] & <- & _). reflexivity.
  - cbn [tl]. rewrite map_map. unfold keys. apply map_ext. by intros [src r].
Qed.

(** X8. The Issues cell of a source holds the issues of its four checks
    in check-type order, joined by "; ", and "None" when no check reported
    an issue.  They are the issues the summary counts for that source, and
    the very issues that [critical_issues] lists, prefixed by the source
    name, when the source failed. *)
Theorem csv_issue_cell_matches_summary :
  forall (src : string) (r : report),
    last (csv_row (src, r))
    = Some (if nonempty (csv_issues r) then join "; " (csv_issues r) else "None")
    /\ length (csv_issues r) = issue_count r
    /\ (issue_count r = 0%nat -> last (csv_row (src, r)) = Some "None")
    /\ issues_of (critical_entry src) r
       = map (fun issue => src +:+ ": " +:+ issue) (csv_issues r)
    /\ (forall issue, issue ∈ csv_issues r <->
          exists check_type c, check_type ∈ check_types
                               /\ r_checks r !! check_type = Some c
                               /\ issue ∈ issues c).
Proof.
  intros src r. split; [reflexivity|].
  assert (Hlen : length (csv_issues r) = issue_count r).
  { rewrite csv_issues_spec. apply length_issues_of. }
  split; [exact Hlen|]. split; [|split; [apply issues_of_prefixed|]].
  - intros Hzero. cbn [csv_row last]. rewrite Hzero in Hlen.
    destruct (csv_issues r); [reflexivity|discriminate].
  - intros issue. rewrite csv_issues_spec, elem_of_issues_of. split.
    + intros (ct & c & i & Hct & Hc & Hi & ->). by exists ct, c.
    + intros (ct & c & Hct & Hc & Hi). by exists ct, c, issue.
Qed.

Section ReportFiles.

Variables output_dir timestamp : string.

(** One iteration of [for fmt in formats]. *)
Lemma generate_step (generated : list (string * string)) (fmt : string) :
  (if String.eqb fmt "json" then
     dict_set "json" (output_dir +:+ "/audit_summary.json") generated
   else if String.eqb fmt "csv" then
     dict_set "csv" (output_dir +:+ "/audit_report_" +:+ timestamp +:+ ".csv") generated
   else if String.eqb fmt "markdown" then
     dict_set "markdown" (output_dir +:+ "/audit_report.md") generated
   else generated)
  = if py_in fmt known_formats
    then dict_set fmt (report_path output_dir timestamp fmt) generated
    else generated.
Proof.
  unfold report_path.
  destruct (String.eqb_spec fmt "json") as [->|H1]; [reflexivity|].
  destruct (String.eqb_spec fmt "csv") as [->|H2]; [reflexivity|].
  destruct (String.eqb_spec fmt "markdown") as [->|H3]; [reflexivity|].
  unfold py_in, known_formats. rewrite bool_decide_eq_false_2; [reflexivity|].
  intros Hin. repeat (apply elem_of_cons in Hin as [Hin|Hin]; [congruence|]).
  by apply elem_of_nil in Hin.
Qed.

Lemma generate_fold (formats : list string) (generated : list (string * string)) :
  fold_left
    (fun generated_reports fmt =>
       if String.eqb fmt "json" then
         dict_set "json" (output_dir +:+ "/audit_summary.json") generated_reports
       else if String.eqb fmt "csv" then
         dict_set "csv" (output_dir +:+ "/audit_report_" +:+ timestamp +:+ ".csv")
                  generated_reports
       else if String.eqb fmt "markdown" then
         dict_set "markdown" (output_dir +:+ "/audit_report.md") generated_reports
       else generated_reports)
    formats generated
  = dict_store generated
      (map (fun fmt => (fmt, report_path output_dir timestamp fmt))
           (List.filter (fun fmt => py_in fmt known_formats) formats)).
Proof.
  unfold dict_store. revert generated.
  induction formats as [|fmt formats IH]; intros generated;
    cbn [fold_left List.filter]; [reflexivity|].
  rewrite generate_step, IH.
  destruct (py_in fmt known_formats); reflexivity.
Qed.

End ReportFiles.

(** X9. [generate_reports] returns one entry per requested format among
    json, csv and markdown, and none for any other format, which is skipped
    without an error; a format requested twice has one entry; each entry
    maps the format to its file under the output directory; and with no
    list of formats all three are generated, in that order. *)
Theorem generate_reports_known_formats_only :
  forall (output_dir timestamp : string) (formats : option (list string)),
    let generated := generate_reports output_dir formats timestamp in
    NoDup (keys generated)
    /\ (forall fmt, fmt ∈ keys generated <->
          fmt ∈ default known_formats formats /\ fmt ∈ known_formats)
    /\ (forall fmt path, dict_get fmt generated = Some path ->
          path = report_path output_dir timestamp fmt)
    /\ generate_reports output_dir None timestamp
       = [("json", output_dir +:+ "/audit_summary.json");
          ("csv", output_dir +:+ "/audit_report_" +:+ timestamp +:+ ".csv");
          ("markdown", output_dir +:+ "/audit_report.md")]
    /\ generate_reports output_dir (Some []) timestamp = [].
Proof.
  intros output_dir timestamp formats generated.
  unfold generated, generate_reports. rewrite generate_fold.
  fold known_formats.
  set (sel := List.filter (fun fmt => py_in fmt known_formats)
                          (default known_formats formats)).
  split; [apply NoDup_dict_store, NoDup_nil_2|].
  split; [|split; [|split; reflexivity]].
  - intros fmt. unfold keys. rewrite dict_store_keys. cbn [map].
    rewrite elem_of_nil, map_map. cbn [fst]. rewrite map_id.
    unfold sel. rewrite list_elem_of_In, filter_In, <- list_elem_of_In, py_in_spec.
    tauto.
  - intros fmt path. rewrite dict_get_store. cbn [dict_get].
    rewrite <- map_rev.
    induction (rev sel) as [|f l IH]; cbn [map dict_get]; [discriminate|].
    destruct (String.eqb_spec f fmt) as [->|Hne]; [by intros [= <-]|exact IH].
Qed.

(** ** Merging configurations (utils/config.py) *)

Section Merge.

Context {A : Type}.

(** The loop of [merge_configs], as the source writes it. *)
Lemma merge_configs_nil (base_config : list (string * config A)) :
  merge_configs base_config [] = base_config.
Proof. reflexivity. Qed.

Lemma merge_configs_cons (merged : list (string * config A)) (key : string)
    (value : config A) (rest : list (string * config A)) :
  merge_configs merged ((key, value) :: rest)
  = merge_configs (dict_set key (merged_value (dict_get key merged) value) merged) rest.
Proof.
  unfold merge_configs, merged_value. cbn [merge_value].
  destruct (dict_get key merged) as [[a|sub]|]; try reflexivity.
  destruct value as [a|value_items]; reflexivity.
Qed.

Lemma dict_get_absent {V : Type} (k : string) (d : list (string * V)) :
  k ∉ keys d -> dict_get k d = None.
Proof.
  unfold keys. induction d as [|[k0 v0] d IH]; cbn [map fst dict_get]; [done|].
  intros Hnot. apply not_elem_of_cons in Hnot as [Hne Hnot].
  destruct (String.eqb_spec k0 k) as [->|_]; [done|]. by apply IH.
Qed.

Lemma keys_dict_set {V : Type} (k : string) (v : V) (d : list (string * V)) :
  keys (dict_set k v d) = if bool_decide (k ∈ keys d) then keys d else keys d ++ [k].
Proof.
  unfold keys. induction d as [|[k0 v0] d IH]; cbn [dict_set map fst].
  - rewrite bool_decide_eq_false_2; [reflexivity|]. apply not_elem_of_nil.
  - destruct (String.eqb_spec k0 k) as [->|Hne]; cbn [map fst].
    + rewrite bool_decide_eq_true_2; [reflexivity|]. apply list_elem_of_here.
    + rewrite IH. destruct (decide (k ∈ map fst d)) as [Hin|Hnot].
      * rewrite !bool_decide_eq_true_2; [reflexivity| |done].
        by apply list_elem_of_further.
      * rewrite !bool_decide_eq_false_2; [reflexivity| |done].
        apply not_elem_of_cons. split; [congruence|done].
Qed.

Lemma merge_lookup (override_config base_config : list (string * config A))
    (k : string) :
  NoDup (keys override_config) ->
  dict_get k (merge_configs base_config override_config)
  = match dict_get k override_config with
    | Some value => Some (merged_value (dict_get k base_config) value)
    | None => dict_get k base_config
    end.
Proof.
  revert base_config. induction override_config as [|[key value] rest IH];
    intros base_config Hnd; [reflexivity|].
  unfold keys in Hnd. cbn [map fst] in Hnd. apply NoDup_cons in Hnd as [Hnot Hnd].
  rewrite merge_configs_cons, IH by done. cbn [dict_get]. rewrite dict_get_set.
  destruct (String.eqb_spec key k) as [->|Hne].
  - by rewrite dict_get_absent.
  - reflexivity.
Qed.

Lemma merge_keys (override_config base_config : list (string * config A)) :
  NoDup (keys override_config) ->
  keys (merge_configs base_config override_config)
  = keys base_config
    ++ List.filter (fun k => negb (bool_decide (k ∈ keys base_config)))
                   (keys override_config).
Proof.
  revert base_config. induction override_config as [|[key value] rest IH];
    intros base_config Hnd; [by rewrite merge_configs_nil, app_nil_r|].
  unfold keys in Hnd. cbn [map fst] in Hnd. apply NoDup_cons in Hnd as [Hnot Hnd].
  rewrite merge_configs_cons, IH by done. rewrite keys_dict_set.
  unfold keys. cbn [map fst List.filter].
  destruct (decide (key ∈ map fst base_config)) as [Hin|Hout].
  - rewrite !(bool_decide_eq_true_2 (key ∈ map fst base_config)) by done.
    reflexivity.
  - rewrite !(bool_decide_eq_false_2 (key ∈ map fst base_config)) by done.
    cbn [negb]. rewrite <- app_assoc.
    cbn [app]. do 2 f_equal. apply List.filter_ext_in. intros k Hk. f_equal.
    apply bool_decide_ext. rewrite elem_of_app, list_elem_of_singleton.
    split; [|tauto]. intros [?| ->]; [done|].
    exfalso. by apply Hnot, list_elem_of_In.
Qed.

Lemma merge_disjoint (override_config base_config : list (string * config A)) :
  NoDup (keys base_config ++ keys override_config) ->
  merge_configs base_config override_config = base_config ++ override_config.
Proof.
  revert base_config. induction override_config as [|[key value] rest IH];
    intros base_config Hnd; [by rewrite merge_configs_nil, app_nil_r|].
  rewrite merge_configs_cons.
  assert (Hkey : key ∉ keys base_config).
  { apply NoDup_app in Hnd as (_ & Hdisj & _). intros Hin.
    apply (Hdisj key Hin). apply list_elem_of_here. }
  rewrite (dict_get_absent key base_config Hkey). cbn [merged_value].
  rewrite dict_set_new by done. rewrite IH; [by rewrite <- app_assoc|].
  unfold keys in *. rewrite map_app. cbn [map fst] in *. by rewrite <- app_assoc.
Qed.

End Merge.

(** X10. [merge_configs] key by key, for an override whose keys are
    distinct: a key the override lacks keeps the value of the base; a key
    the override maps to a value that is not a dictionary takes that value;
    a key both map to dictionaries takes their merge; and a key the override
    maps to a dictionary while the base holds none there takes the
    override's dictionary as it is. *)
Theorem merge_configs_lookup :
  forall (A : Type) (base_config override_config : list (string * config A))
         (k : string),
    NoDup (keys override_config) ->
    let merged := merge_configs base_config override_config in
    (dict_get k override_config = None -> dict_get k merged = dict_get k base_config)
    /\ (forall a, dict_get k override_config = Some (CLeaf a) ->
          dict_get k merged = Some (CLeaf a))
    /\ (forall sub value_items,
          dict_get k override_config = Some (CDict value_items) ->
          dict_get k base_config = Some (CDict sub) ->
          dict_get k merged = Some (CDict (merge_configs sub value_items)))
    /\ (forall value_items,
          dict_get k override_config = Some (CDict value_items) ->
          (forall sub, dict_get k base_config <> Some (CDict sub)) ->
          dict_get k merged = Some (CDict value_items)).
Proof.
  intros A base_config override_config k Hnd merged. unfold merged.
  rewrite merge_lookup by done. repeat split.
  - by intros ->.
  - intros a ->. unfold merged_value. by destruct (dict_get k base_config) as [[]|].
  - by intros sub value_items -> ->.
  - intros value_items -> Hno. unfold merged_value.
    destruct (dict_get k base_config) as [[a|sub]|]; try reflexivity.
    by destruct (Hno sub).
Qed.

(** The project's merge test: the circuits are overridden, the data path
    of the base survives. *)
Lemma merge_configs_lookup_witness :
  dict_get "match_results" (merge_configs test_base test_override)
  = Some (CDict [("circuits", CLeaf (YList ["ATP"; "Challenger"]));
                 ("data_path", CLeaf YNone)]).
Proof.
  refine (eq_trans
    (proj1 (proj2 (proj2
       (merge_configs_lookup yaml_leaf test_base test_override "match_results" _)))
       _ _ eq_refl eq_refl) _).
  - vm_compute. apply NoDup_cons. split; [|apply NoDup_singleton].
    intros Hin. apply list_elem_of_singleton in Hin. discriminate.
  - vm_compute; reflexivity.
Defined.

(** X11. [merge_configs] keeps the keys of the base in their order and
    appends the keys only the override holds, in the override's order; the
    keys stay distinct when those of the base are.  Merging into an empty
    base gives the override, merging an empty override gives the base, and
    two configurations without a common key are put one after the other. *)
Theorem merge_configs_keys :
  forall (A : Type) (base_config override_config : list (string * config A)),
    NoDup (keys override_config) ->
    keys (merge_configs base_config override_config)
    = keys base_config
      ++ List.filter (fun k => negb (bool_decide (k ∈ keys base_config)))
                     (keys override_config)
    /\ (NoDup (keys base_config) ->
        NoDup (keys (merge_configs base_config override_config)))
    /\ merge_configs [] override_config = override_config
    /\ merge_configs base_config [] = base_config
    /\ (NoDup (keys base_config ++ keys override_config) ->
        merge_configs base_config override_config = base_config ++ override_config).
Proof.
  intros A base_config override_config Hnd.
  split; [by apply merge_keys|]. split; [|split; [|split]].
  - intros Hb. rewrite merge_keys by done. apply NoDup_app. split; [done|]. split.
    + intros k Hk Hf. apply list_elem_of_In, filter_In in Hf as [_ Hf].
      apply negb_true_iff, bool_decide_eq_false in Hf. done.
    + apply NoDup_ListNoDup, List.NoDup_filter, NoDup_ListNoDup. done.
  - by apply merge_disjoint.
  - apply merge_configs_nil.
  - apply merge_disjoint.
Qed.

(** The keys of the project's merge test. *)
Lemma merge_configs_keys_witness :
  keys (merge_configs test_base test_override) = ["match_results"; "odds"; "venue"].
Proof.
  refine (eq_trans
    (proj1 (merge_configs_keys yaml_leaf test_base test_override _)) _).
  - vm_compute. apply NoDup_cons. split; [|apply NoDup_singleton].
    intros Hin. apply list_elem_of_singleton in Hin. discriminate.
  - vm_compute; reflexivity.
Defined.

Section MergeTwice.

Context {A : Type}.

Lemma dict_set_same {V : Type} (k : string) (v : V) (d : list (string * V)) :
  dict_get k d = Some v -> dict_set k v d = d.
Proof.
  induction d as [|[k0 v0] d IH]; cbn [dict_get dict_set]; [done|].
  destruct (String.eqb_spec k0 k) as [->|Hne].
  - by intros [= ->].
  - intros H. by rewrite IH.
Qed.

Lemma in_dict_get {V : Type} (k : string) (v : V) (d : list (string * V)) :
  NoDup (keys d) -> (k, v) ∈ d -> dict_get k d = Some v.
Proof.
  unfold keys. induction d as [|[k0 v0] d IH]; cbn [map fst dict_get].
  - intros _ Hin. by apply elem_of_nil in Hin.
  - intros Hnd Hin. apply NoDup_cons in Hnd as [Hnot Hnd].
    apply elem_of_cons in Hin as [[= -> ->]|Hin].
    + by rewrite String.eqb_refl.
    + destruct (String.eqb_spec k0 k) as [->|Hne]; [|by apply IH].
      exfalso. apply Hnot. apply list_elem_of_fmap. by exists (k, v).
Qed.

(** An override every item of which is already merged in changes nothing. *)
Lemma merge_fixed (override_config merged : list (string * config A)) :
  (forall k v, (k, v) ∈ override_config ->
     exists w, dict_get k merged = Some w /\ merged_value (Some w) v = w) ->
  merge_configs merged override_config = merged.
Proof.
  induction override_config as [|[key value] rest IH]; intros Hall;
    [apply merge_configs_nil|].
  rewrite merge_configs_cons.
  destruct (Hall key value) as (w & Hw & Hfix); [apply list_elem_of_here|].
  rewrite Hw, Hfix, dict_set_same by done.
  apply IH. intros k v Hin. apply Hall. by apply list_elem_of_further.
Qed.

Lemma depth_item (k : string) (v : config A) (items : list (string * config A)) :
  (k, v) ∈ items -> (depth v < depth (CDict items))%nat.
Proof.
  cbn [depth]. induction items as [|[k0 v0] items IH]; cbn [fold_right].
  - intros Hin. by apply elem_of_nil in Hin.
  - intros Hin. apply elem_of_cons in Hin as [[= -> ->]|Hin]; cbn [snd].
    + lia.
    + specialize (IH Hin). lia.
Qed.

Lemma merged_value_settles (n : nat) :
  forall (value : config A) (old : option (config A)),
    (depth value <= n)%nat -> wf_config value ->
    merged_value (Some (merged_value old value)) value = merged_value old value.
Proof.
  induction n as [n IHn] using lt_wf_ind.
  intros value old Hdepth Hwf.
  destruct Hwf as [a|items Hnd Hitems].
  { by destruct old as [[]|]. }
  assert (Hsub : forall k v o, (k, v) ∈ items ->
                   merged_value (Some (merged_value o v)) v = merged_value o v).
  { intros k v o Hin. pose proof (depth_item k v items Hin) as Hlt.
    apply (IHn (depth v)); [lia|lia|].
    rewrite Forall_forall in Hitems. by apply (Hitems (k, v)). }
  assert (Hself : merge_configs items items = items).
  { apply merge_fixed. intros k v Hin. exists v.
    split; [by apply in_dict_get|]. apply (Hsub k v None Hin). }
  destruct old as [[a|sub]|]; cbn [merged_value].
  - by rewrite Hself.
  - f_equal. apply merge_fixed. intros k v Hin.
    exists (merged_value (dict_get k sub) v). split; [|by eapply Hsub].
    rewrite merge_lookup by done. by rewrite (in_dict_get k v items Hnd Hin).
  - by rewrite Hself.
Qed.

End MergeTwice.

(** X12. For an override whose dictionaries have distinct keys at every
    level, merging the override a second time changes nothing, whatever the
    base; and merging such a configuration with itself gives it back. *)
Theorem merge_configs_idempotent :
  forall (A : Type) (base_config override_config : list (string * config A)),
    wf_config (CDict override_config) ->
    merge_configs (merge_configs base_config override_config) override_config
    = merge_configs base_config override_config
    /\ merge_configs override_config override_config = override_config.
Proof.
  intros A base_config override_config Hwf. split.
  - pose proof (merged_value_settles (depth (CDict override_config))
                  (CDict override_config) (Some (CDict base_config))
                  (Nat.le_refl _) Hwf) as H.
    cbn [merged_value] in H. by injection H.
  - pose proof (merged_value_settles (depth (CDict override_config))
                  (CDict override_config) None (Nat.le_refl _) Hwf) as H.
    cbn [merged_value] in H. by injection H.
Qed.

(** The override of the project's merge test, merged in twice. *)
Lemma merge_configs_idempotent_witness :
  merge_configs (merge_configs test_base test_override) test_override
  = merge_configs test_base test_override.
Proof.
  refine (proj1 (merge_configs_idempotent yaml_leaf test_base test_override _)).
  assert (Hone : forall (k : string) (v : config yaml_leaf),
             wf_config v -> wf_config (CDict [(k, v)])).
  { intros k v Hv. apply wf_dict.
    - apply NoDup_singleton.
    - by apply Forall_cons. }
  apply wf_dict.
  - vm_compute. apply NoDup_cons. split; [|apply NoDup_singleton].
    intros Hin. apply list_elem_of_singleton in Hin. discriminate.
  - constructor; [apply Hone, wf_leaf|].
    constructor; [apply Hone, wf_leaf|]. constructor.
Defined.

(** ** Invariants of the check results *)

Section CheckResults.

Variable fromisoformat : string -> option datetime.
Variable now : Z.
Variable repr_set : list string -> string.
Variable float_lt_one : string -> option bool.
Variable fs : string -> option csv_file.

Ltac case_ifs :=
  repeat match goal with
         | |- context [if ?b then _ else _] => destruct b
         end.

Ltac settle :=
  cbn [when_returned status issues app];
  first [ exact I
        | split; intros H; first [ reflexivity | discriminate H | done ] ].

Lemma pass_iff_no_issue_availability (self : csv_connector) :
  when_returned (fun r => status r = value PASS <-> issues r = [])
                (LocalCSVMatchResults.check_availability fs self)
  /\ when_returned (fun r => status r = value PASS <-> issues r = [])
                   (LocalCSVOdds.check_availability fs self).
Proof.
  unfold LocalCSVMatchResults.check_availability, LocalCSVOdds.check_availability.
  destruct (as_text (csv_path self)) as [p|]; [destruct (fs p)|]; split; settle.
Qed.

Lemma pass_iff_no_issue_quality (self : csv_connector) :
  when_returned (fun r => status r = value PASS <-> issues r = [])
                (LocalCSVMatchResults.audit_data_quality repr_set self)
  /\ when_returned (fun r => status r = value PASS <-> issues r = [])
                   (LocalCSVOdds.audit_data_quality float_lt_one self).
Proof.
  unfold LocalCSVMatchResults.audit_data_quality, LocalCSVOdds.audit_data_quality.
  destruct (data self) as [|row0 rows0]; cbn [nonempty negb]; [split; settle|].
  split.
  - destruct (nonempty (LocalCSVMatchResults.missing_in _ row0)); [settle|].
    destruct (py_div _ _); cbn [mbind pyresult_bind]; [|exact I].
    case_ifs; settle.
  - destruct (nonempty (LocalCSVOdds.missing_in _ row0)); [settle|].
    destruct (py_div _ _); cbn [mbind pyresult_bind]; [|exact I].
    case_ifs; settle.
Qed.

Lemma pass_iff_no_issue_timestamps (self : csv_connector) :
  when_returned (fun r => status r = value PASS <-> issues r = [])
                (LocalCSVMatchResults.check_timestamps fromisoformat self)
  /\ when_returned (fun r => status r = value PASS <-> issues r = [])
                   (LocalCSVOdds.check_timestamps fromisoformat self).
Proof.
  unfold LocalCSVMatchResults.check_timestamps, LocalCSVOdds.check_timestamps.
  destruct (data self) as [|row0 rows0]; cbn [nonempty negb]; [split; settle|].
  split.
  - destruct (LocalCSVMatchResults.timestamps_loop _ _ _) as [[inv ooo]|];
      cbn [mbind pyresult_bind]; [|exact I].
    destruct inv, ooo; cbn [nonempty]; settle.
  - case_ifs; settle.
Qed.

Lemma pass_iff_no_issue_leakage (self : csv_connector) :
  when_returned (fun r => status r = value PASS <-> issues r = [])
                (LocalCSVMatchResults.detect_leakage fromisoformat now self)
  /\ when_returned (fun r => status r = value PASS <-> issues r = [])
                   (LocalCSVOdds.detect_leakage fromisoformat self).
Proof.
  unfold LocalCSVMatchResults.detect_leakage, LocalCSVOdds.detect_leakage.
  destruct (data self) as [|row0 rows0]; cbn [nonempty negb]; [split; settle|].
  split.
  - case_ifs; settle.
  - destruct (LocalCSVOdds.leakage_loop _ _ _) as [[post late]|];
      cbn [mbind pyresult_bind]; [|exact I].
    destruct post, late; cbn [nonempty]; settle.
Qed.

End CheckResults.

(** X13. Every check of the two CSV connectors keeps the invariant of a
    check result: whenever it returns, its status is PASS exactly when it
    lists no issue. *)
Theorem pass_iff_no_issue :
  forall (fromisoformat : string -> option datetime) (now : Z)
         (repr_set : list string -> string) (float_lt_one : string -> option bool)
         (fs : string -> option csv_file) (self : csv_connector),
    Forall (when_returned (fun r => status r = value PASS <-> issues r = []))
           (csv_checks fromisoformat now repr_set float_lt_one fs self).
Proof.
  intros fromisoformat now repr_set float_lt_one fs self. unfold csv_checks.
  destruct (pass_iff_no_issue_availability fs self) as [A1 A2].
  destruct (pass_iff_no_issue_quality repr_set float_lt_one self) as [Q1 Q2].
  destruct (pass_iff_no_issue_timestamps fromisoformat self) as [T1 T2].
  destruct (pass_iff_no_issue_leakage fromisoformat now self) as [L1 L2].
  repeat (constructor; [assumption|]). constructor.
Qed.

Section StatusRanges.

Variable fromisoformat : string -> option datetime.
Variable now : Z.
Variable repr_set : list string -> string.
Variable float_lt_one : string -> option bool.
Variable fs : string -> option csv_file.

Ltac case_ifs :=
  repeat match goal with
         | |- context [if ?b then _ else _] => destruct b
         end.

Ltac member :=
  cbn [when_returned status value];
  first [ exact I
        | apply list_elem_of_here
        | apply list_elem_of_further, list_elem_of_here
        | apply list_elem_of_further, list_elem_of_further, list_elem_of_here
        | apply list_elem_of_further, list_elem_of_further, list_elem_of_further,
            list_elem_of_here ].

Lemma availability_range (self : csv_connector) :
  when_returned (fun r => status r ∈ [value PASS; value NOT_AVAILABLE])
                (LocalCSVMatchResults.check_availability fs self)
  /\ when_returned (fun r => status r ∈ [value PASS; value NOT_AVAILABLE])
                   (LocalCSVOdds.check_availability fs self).
Proof.
  unfold LocalCSVMatchResults.check_availability, LocalCSVOdds.check_availability.
  destruct (as_text (csv_path self)) as [p|]; [destruct (fs p)|]; split; member.
Qed.

Lemma leakage_range (self : csv_connector) :
  when_returned (fun r => status r ∈ [value PASS; value FAIL; value NOT_AVAILABLE])
                (LocalCSVMatchResults.detect_leakage fromisoformat now self)
  /\ when_returned (fun r => status r ∈ [value PASS; value FAIL; value NOT_AVAILABLE])
                   (LocalCSVOdds.detect_leakage fromisoformat self)
  /\ when_returned (fun r => status r ∈ [value PASS; value FAIL; value NOT_AVAILABLE])
                   (LocalCSVOdds.check_timestamps fromisoformat self).
Proof.
  unfold LocalCSVMatchResults.detect_leakage, LocalCSVOdds.detect_leakage,
    LocalCSVOdds.check_timestamps.
  destruct (data self) as [|row0 rows0]; cbn [nonempty negb];
    [repeat split; member|].
  split; [case_ifs; member|]. split; [|case_ifs; member].
  destruct (LocalCSVOdds.leakage_loop _ _ _) as [[post late]|];
    cbn [mbind pyresult_bind]; [|exact I].
  destruct post, late; cbn [nonempty]; member.
Qed.

Lemma quality_range (self : csv_connector) :
  when_returned (fun r => status r ∈ [value PASS; value FAIL; value WARNING;
                                       value NOT_AVAILABLE])
                (LocalCSVMatchResults.audit_data_quality repr_set self)
  /\ when_returned (fun r => status r ∈ [value PASS; value FAIL; value WARNING;
                                          value NOT_AVAILABLE])
                   (LocalCSVOdds.audit_data_quality float_lt_one self)
  /\ when_returned (fun r => status r ∈ [value PASS; value FAIL; value WARNING;
                                          value NOT_AVAILABLE])
                   (LocalCSVMatchResults.check_timestamps fromisoformat self).
Proof.
  unfold LocalCSVMatchResults.audit_data_quality, LocalCSVOdds.audit_data_quality,
    LocalCSVMatchResults.check_timestamps.
  destruct (data self) as [|row0 rows0]; cbn [nonempty negb];
    [repeat split; member|].
  split; [|split].
  - destruct (nonempty (LocalCSVMatchResults.missing_in _ row0)); [member|].
    destruct (py_div _ _); cbn [mbind pyresult_bind]; [|exact I].
    case_ifs; member.
  - destruct (nonempty (LocalCSVOdds.missing_in _ row0)); [member|].
    destruct (py_div _ _); cbn [mbind pyresult_bind]; [|exact I].
    case_ifs; member.
  - destruct (LocalCSVMatchResults.timestamps_loop _ _ _) as [[inv ooo]|];
      cbn [mbind pyresult_bind]; [|exact I].
    destruct inv, ooo; cbn [nonempty]; member.
Qed.

End StatusRanges.

(** X14. The statuses a check of the CSV connectors can return: the
    availability checks answer PASS or NOT_AVAILABLE only, never FAIL or
    WARNING; the two leakage checks and the timestamp check of the odds
    connector answer PASS, FAIL or NOT_AVAILABLE, never WARNING; the
    data-quality checks and the timestamp check of the match-results
    connector answer one of the four statuses. *)
Theorem status_ranges :
  forall (fromisoformat : string -> option datetime) (now : Z)
         (repr_set : list string -> string) (float_lt_one : string -> option bool)
         (fs : string -> option csv_file) (self : csv_connector),
    Forall (when_returned (fun r => status r ∈ [value PASS; value NOT_AVAILABLE]))
           [LocalCSVMatchResults.check_availability fs self;
            LocalCSVOdds.check_availability fs self]
    /\ Forall (when_returned
                 (fun r => status r ∈ [value PASS; value FAIL; value NOT_AVAILABLE]))
              [LocalCSVMatchResults.detect_leakage fromisoformat now self;
               LocalCSVOdds.detect_leakage fromisoformat self;
               LocalCSVOdds.check_timestamps fromisoformat self]
    /\ Forall (when_returned
                 (fun r => status r ∈ [value PASS; value FAIL; value WARNING;
                                       value NOT_AVAILABLE]))
              [LocalCSVMatchResults.audit_data_quality repr_set self;
               LocalCSVOdds.audit_data_quality float_lt_one self;
               LocalCSVMatchResults.check_timestamps fromisoformat self].
Proof.
  intros fromisoformat now repr_set float_lt_one fs self.
  destruct (availability_range fs self) as [A1 A2].
  destruct (leakage_range fromisoformat now self) as (L1 & L2 & L3).
  destruct (quality_range fromisoformat repr_set float_lt_one self) as (Q1 & Q2 & Q3).
  repeat split; repeat (constructor; [assumption|]); constructor.
Qed.

(** ** The data-quality checks *)

Section Quality.

Variable repr_set : list string -> string.
Variable float_lt_one : string -> option bool.

Lemma length_filter_le {B : Type} (p : B -> bool) (l : list B) :
  (length (List.filter p l) <= length l)%nat.
Proof.
  induction l as [|x l IH]; [reflexivity|]. cbn [List.filter].
  destruct (p x); cbn [length]; lia.
Qed.

Lemma length_remove_dups {B : Type} `{EqDecision B} (l : list B) :
  (length (remove_dups l) <= length l)%nat
  /\ (length (remove_dups l) = length l <-> NoDup l).
Proof.
  induction l as [|x l [IHle IHeq]]; cbn [remove_dups length].
  - split; [lia|]. split; [intros _; apply NoDup_nil_2|done].
  - destruct (decide_rel elem_of x l) as [Hin|Hnot]; cbn [length].
    + split; [lia|]. split; [lia|].
      intros Hnd. apply NoDup_cons in Hnd as [Hx _]. done.
    + split; [lia|]. rewrite NoDup_cons. split.
      * intros H. split; [done|]. apply IHeq. lia.
      * intros [_ Hnd]. f_equal. by apply IHeq.
Qed.

Lemma match_results_quality_returns (self : csv_connector) :
  exists r, LocalCSVMatchResults.audit_data_quality repr_set self = Ok r.
Proof.
  unfold LocalCSVMatchResults.audit_data_quality.
  destruct (data self) as [|row0 rows0]; cbn [nonempty negb]; [by eexists|].
  destruct (nonempty (LocalCSVMatchResults.missing_in _ row0)); [by eexists|].
  cbn [length py_div mbind pyresult_bind]. by eexists.
Qed.

Lemma odds_quality_returns (self : csv_connector) :
  exists r, LocalCSVOdds.audit_data_quality float_lt_one self = Ok r.
Proof.
  unfold LocalCSVOdds.audit_data_quality.
  destruct (data self) as [|row0 rows0]; cbn [nonempty negb]; [by eexists|].
  destruct (nonempty (LocalCSVOdds.missing_in _ row0)); [by eexists|].
  cbn [length py_div mbind pyresult_bind]. by eexists.
Qed.

End Quality.

Section Completeness.

Lemma blank_not_truthy (row : gmap string pyval) (field : string) :
  negb (truthy (get row field)) = blank row field.
Proof.
  unfold get, blank. destruct (row !! field) as [[|s]|]; cbn; try reflexivity.
  rewrite negb_involutive.
  destruct (String.eqb_spec s "") as [->|Hne];
    [by rewrite bool_decide_eq_true_2|by rewrite bool_decide_eq_false_2].
Qed.

Lemma incomplete_blank (fields : list string) (row : gmap string pyval) :
  LocalCSVMatchResults.incomplete fields row = existsb (blank row) fields
  /\ LocalCSVOdds.incomplete fields row = existsb (blank row) fields.
Proof.
  unfold LocalCSVMatchResults.incomplete, LocalCSVOdds.incomplete.
  induction fields as [|f fields [IH1 IH2]]; cbn [existsb]; [done|].
  by rewrite blank_not_truthy, IH1.
Qed.

Lemma nothing_missing (fields : list string) (first_row : gmap string pyval) :
  (forall field, field ∈ fields -> is_Some (first_row !! field)) ->
  LocalCSVMatchResults.missing_in fields first_row = []
  /\ LocalCSVOdds.missing_in fields first_row = [].
Proof.
  intros Hall. destruct (missing_in_absent fields first_row) as [-> ->].
  assert (H : List.filter (fun f => bool_decide (first_row !! f = None)) fields = []).
  { induction fields as [|f fields IH]; [reflexivity|]. cbn [List.filter].
    destruct (Hall f) as [v Hv]; [apply list_elem_of_here|].
    rewrite bool_decide_eq_false_2 by congruence.
    apply IH. intros field Hin. apply Hall. by apply list_elem_of_further. }
  by rewrite H.
Qed.

End Completeness.

(** X15. The data-quality check of either CSV connector returns for every
    record set: the completeness rate is never divided by zero records.
    When the first record has every required column, the completeness entry
    counts all records and splits them into complete and incomplete ones, a
    record being incomplete when one of its required cells is absent, [None]
    or empty; and one incomplete record is enough for the status
    WARNING. *)
Theorem quality_check_always_returns :
  forall (repr_set : list string -> string) (float_lt_one : string -> option bool)
         (self : csv_connector),
    (exists r, LocalCSVMatchResults.audit_data_quality repr_set self = Ok r)
    /\ (exists r, LocalCSVOdds.audit_data_quality float_lt_one self = Ok r)
    /\ (forall first_row rest r,
          data self = first_row :: rest ->
          (forall field,
              field ∈ ["match_id"; "date"; "tournament"; "circuit"; "player1";
                        "player2"; "score"; "winner"; "match_start_time";
                        "available_at"] ->
              is_Some (first_row !! field)) ->
          LocalCSVMatchResults.audit_data_quality repr_set self = Ok r ->
          exists complete incomplete rate,
            checks r !! "completeness"
            = Some (DCompleteness (length (data self)) complete incomplete rate)
            /\ incomplete
               = length (List.filter
                           (fun row =>
                              existsb (blank row)
                                ["match_id"; "date"; "tournament"; "circuit";
                                 "player1"; "player2"; "score"; "winner";
                                 "match_start_time"; "available_at"])
                           (data self))
            /\ (complete + incomplete = length (data self))%nat
            /\ ((0 < incomplete)%nat -> status r = value WARNING))
    /\ (forall first_row rest r,
          data self = first_row :: rest ->
          (forall field,
              field ∈ ["match_id"; "snapshot_timestamp"; "player1_odds";
                        "player2_odds"; "bookmaker"; "available_at";
                        "match_start_time"] ->
              is_Some (first_row !! field)) ->
          LocalCSVOdds.audit_data_quality float_lt_one self = Ok r ->
          exists complete incomplete rate,
            checks r !! "completeness"
            = Some (DCompleteness (length (data self)) complete incomplete rate)
            /\ incomplete
               = length (List.filter
                           (fun row =>
                              existsb (blank row)
                                ["match_id"; "snapshot_timestamp"; "player1_odds";
                                 "player2_odds"; "bookmaker"; "available_at";
                                 "match_start_time"])
                           (data self))
            /\ (complete + incomplete = length (data self))%nat
            /\ ((0 < incomplete)%nat -> status r = value WARNING)).
Proof.
  intros repr_set float_lt_one self.
  split; [apply match_results_quality_returns|].
  split; [apply odds_quality_returns|].
  split.
  - intros first_row rest r Hdata Hpresent.
    destruct (nothing_missing LocalCSVMatchResults.required_fields first_row Hpresent)
      as [Hmissing _].
    assert (Hfilter : List.filter
                        (LocalCSVMatchResults.incomplete
                           LocalCSVMatchResults.required_fields) (first_row :: rest)
                      = List.filter
                          (fun row => existsb (blank row)
                                        LocalCSVMatchResults.required_fields)
                          (first_row :: rest)).
    { apply List.filter_ext. intros row. apply incomplete_blank. }
    unfold LocalCSVMatchResults.audit_data_quality. rewrite Hdata, Hmissing, Hfilter.
    change LocalCSVMatchResults.required_fields
      with ["match_id"; "date"; "tournament"; "circuit"; "player1"; "player2";
            "score"; "winner"; "match_start_time"; "available_at"].
    pose proof (length_filter_le
                  (fun row => existsb (blank row)
                     ["match_id"; "date"; "tournament"; "circuit"; "player1";
                      "player2"; "score"; "winner"; "match_start_time";
                      "available_at"])
                  (first_row :: rest)) as Hle.
    set (inc := length (List.filter _ (first_row :: rest))) in *.
    change (length (first_row :: rest)) with (S (length rest)) in *.
    cbn [nonempty negb py_div mbind pyresult_bind]. intros [= <-].
    cbn [checks status]. rewrite lookup_insert_ne by done. rewrite lookup_insert_eq.
    eexists _, _, _. split; [reflexivity|]. split; [reflexivity|].
    split; [lia|]. intros Hpos.
    destruct (Nat.ltb_spec 0 inc) as [_|Hge]; [|lia].
    by repeat match goal with |- context [if ?b then _ else _] => destruct b end.
  - intros first_row rest r Hdata Hpresent.
    destruct (nothing_missing LocalCSVOdds.required_fields first_row Hpresent)
      as [_ Hmissing].
    assert (Hfilter : List.filter
                        (LocalCSVOdds.incomplete LocalCSVOdds.required_fields)
                        (first_row :: rest)
                      = List.filter
                          (fun row => existsb (blank row) LocalCSVOdds.required_fields)
                          (first_row :: rest)).
    { apply List.filter_ext. intros row. apply incomplete_blank. }
    unfold LocalCSVOdds.audit_data_quality. rewrite Hdata, Hmissing, Hfilter.
    change LocalCSVOdds.required_fields
      with ["match_id"; "snapshot_timestamp"; "player1_odds"; "player2_odds";
            "bookmaker"; "available_at"; "match_start_time"].
    pose proof (length_filter_le
                  (fun row => existsb (blank row)
                     ["match_id"; "snapshot_timestamp"; "player1_odds";
                      "player2_odds"; "bookmaker"; "available_at";
                      "match_start_time"])
                  (first_row :: rest)) as Hle.
    set (inc := length (List.filter _ (first_row :: rest))) in *.
    change (length (first_row :: rest)) with (S (length rest)) in *.
    cbn [nonempty negb py_div mbind pyresult_bind]. intros [= <-].
    cbn [checks status]. rewrite lookup_insert_ne by done. rewrite lookup_insert_eq.
    eexists _, _, _. split; [reflexivity|]. split; [reflexivity|].
    split; [lia|]. intros Hpos.
    destruct (Nat.ltb_spec 0 inc) as [_|Hge]; [|lia].
    by repeat match goal with |- context [if ?b then _ else _] => destruct b end.
Qed.

(** X16. The duplicate count of the match-results quality check is the
    number of records minus the number of distinct match ids, a record
    without a match id carrying the id [None]; it is zero exactly when the
    match ids are pairwise distinct, and a positive count makes the status
    WARNING. *)
Theorem duplicates_iff_repeated_match_id :
  forall (repr_set : list string -> string) (self : csv_connector)
         (first_row : gmap string pyval) (rest : list (gmap string pyval)),
    data self = first_row :: rest ->
    LocalCSVMatchResults.missing_in LocalCSVMatchResults.required_fields first_row = [] ->
    exists r unique duplicate_count,
      LocalCSVMatchResults.audit_data_quality repr_set self = Ok r
      /\ checks r !! "duplicates"
         = Some (DDuplicates (length (data self)) unique duplicate_count)
      /\ unique = length (remove_dups (map (fun row => get row "match_id") (data self)))
      /\ (unique + duplicate_count = length (data self))%nat
      /\ (duplicate_count = 0%nat <->
          NoDup (map (fun row => get row "match_id") (data self)))
      /\ ((0 < duplicate_count)%nat -> status r = value WARNING).
Proof.
  intros repr_set self first_row rest Hdata Hmissing.
  unfold LocalCSVMatchResults.audit_data_quality. rewrite Hdata, Hmissing.
  cbn [nonempty negb length py_div mbind pyresult_bind].
  set (ids := map (fun row => get row "match_id") (first_row :: rest)).
  destruct (length_remove_dups ids) as [Hle Heq].
  assert (Hlen : length ids = S (length rest)).
  { unfold ids. by rewrite length_map. }
  eexists _, _, _. split; [reflexivity|]. cbn [checks status].
  rewrite lookup_insert_eq. split; [rewrite Hlen; reflexivity|].
  split; [reflexivity|]. split; [lia|]. split.
  - rewrite <- Heq. lia.
  - intros Hpos. rewrite <- Hlen in Hpos. apply Nat.ltb_lt in Hpos. rewrite Hpos.
    by destruct (nonempty _).
Qed.

(** Two records that share one match id. *)
Lemma duplicates_witness :
  exists r,
    LocalCSVMatchResults.audit_data_quality (fun _ => "")
      (with_rows [full_row; full_row]) = Ok r
    /\ checks r !! "duplicates" = Some (DDuplicates 2 1 1)
    /\ status r = value WARNING.
Proof.
  destruct (duplicates_iff_repeated_match_id (fun _ => "")
              (with_rows [full_row; full_row]) full_row [full_row] eq_refl)
    as (r & u & d & Hr & Hd & Hu & Hsum & Hnd & Hw).
  { vm_compute; reflexivity. }
  exists r. split; [exact Hr|].
  assert (Hu' : u = 1%nat) by (rewrite Hu; vm_compute; reflexivity).
  assert (Hd' : d = 1%nat) by (cbn [data with_rows length] in Hsum; lia).
  subst u d. split; [exact Hd|]. apply Hw. lia.
Defined.

(** ** Future-dated matches (local_csv_match_results.py) *)

Section FutureDates.

Lemma omap_nonempty {B C : Type} (f : B -> option C) (l : list B) :
  nonempty (omap f l) = true <-> exists x, x ∈ l /\ f x <> None.
Proof.
  induction l as [|x l IH]; cbn [omap list_omap].
  - split; [done|]. intros (x & Hin & _). by apply elem_of_nil in Hin.
  - destruct (f x) as [y|] eqn:Hfx.
    + split; [|done]. intros _. exists x. split; [apply list_elem_of_here|congruence].
    + rewrite IH. split.
      * intros (z & Hin & Hz). exists z. split; [by apply list_elem_of_further|done].
      * intros (z & Hin & Hz). apply elem_of_cons in Hin as [->|Hin]; [done|].
        by exists z.
Qed.

Lemma future_row_spec (fromisoformat : string -> option datetime) (now : Z)
    (row : gmap string pyval) :
  LocalCSVMatchResults.future_row fromisoformat now row <> None <->
  exists s d, as_text (get row "match_start_time") = Some s
              /\ fromisoformat (replace_Z s) = Some d /\ (now < dt_wall d)%Z.
Proof.
  unfold LocalCSVMatchResults.future_row, LocalCSVMatchResults.parse.
  destruct (as_text (get row "match_start_time")) as [s|].
  - destruct (fromisoformat (replace_Z s)) as [d|] eqn:Hp.
    + destruct (Z.ltb_spec now (dt_wall d)) as [Hlt|Hge].
      * split; [|discriminate]. intros _. by exists s, d.
      * split; [intros H; by destruct H|].
        intros (s' & d' & Hs & Hd & Hlt). injection Hs as <-.
        rewrite Hp in Hd. injection Hd as <-. lia.
    + split; [intros H; by destruct H|].
      intros (s' & d' & Hs & Hd & _). injection Hs as <-. congruence.
  - split; [intros H; by destruct H|].
    intros (s' & d' & Hs & _). discriminate.
Qed.

Lemma future_status (fromisoformat : string -> option datetime) (now : Z)
    (self : csv_connector) :
  data self <> [] ->
  exists r, LocalCSVMatchResults.detect_leakage fromisoformat now self = Ok r
    /\ status r = (if nonempty (omap (LocalCSVMatchResults.future_row fromisoformat now)
                                     (data self))
                   then value FAIL else value PASS).
Proof.
  intros Hdata. unfold LocalCSVMatchResults.detect_leakage.
  destruct (data self) as [|row0 rows0]; [done|]. cbn [nonempty negb].
  destruct (omap _ (row0 :: rows0)); cbn [nonempty]; by eexists.
Qed.

End FutureDates.

(** X17. On a connector that holds records, the leakage check of the
    match-results connector returns, and answers FAIL exactly when some
    record has a match start time that parses and whose wall-clock reading
    lies after the current time.  A later clock never turns a PASS into a
    FAIL.  The UTC offset of the timestamp plays no part: two parsers that
    agree on the wall-clock readings give the same result. *)
Theorem future_dated_matches_fail :
  forall (fromisoformat : string -> option datetime) (now : Z) (self : csv_connector),
    data self <> [] ->
    (exists r, LocalCSVMatchResults.detect_leakage fromisoformat now self = Ok r
       /\ (status r = value FAIL <->
           exists row s d, row ∈ data self
                           /\ as_text (get row "match_start_time") = Some s
                           /\ fromisoformat (replace_Z s) = Some d
                           /\ (now < dt_wall d)%Z))
    /\ (forall now' r r',
          (now <= now')%Z ->
          LocalCSVMatchResults.detect_leakage fromisoformat now self = Ok r ->
          LocalCSVMatchResults.detect_leakage fromisoformat now' self = Ok r' ->
          status r = value PASS -> status r' = value PASS)
    /\ (forall fromisoformat' : string -> option datetime,
          (forall s, dt_wall <$> fromisoformat' s = dt_wall <$> fromisoformat s) ->
          LocalCSVMatchResults.detect_leakage fromisoformat' now self
          = LocalCSVMatchResults.detect_leakage fromisoformat now self).
Proof.
  intros fromisoformat now self Hdata.
  assert (Hiff : forall n,
             nonempty (omap (LocalCSVMatchResults.future_row fromisoformat n)
                            (data self)) = true <->
             exists row s d, row ∈ data self
                             /\ as_text (get row "match_start_time") = Some s
                             /\ fromisoformat (replace_Z s) = Some d
                             /\ (n < dt_wall d)%Z).
  { intros n. rewrite omap_nonempty. split.
    - intros (row & Hin & Hf). apply future_row_spec in Hf as (s & d & H).
      by exists row, s, d.
    - intros (row & s & d & Hin & H). exists row. split; [done|].
      apply future_row_spec. by exists s, d. }
  split; [|split].
  - destruct (future_status fromisoformat now self Hdata) as (r & Hr & Hs).
    exists r. split; [exact Hr|]. rewrite Hs, <- Hiff.
    by destruct (nonempty _).
  - intros now' r r' Hle Hr Hr' Hpass.
    destruct (future_status fromisoformat now self Hdata) as (r0 & Hr0 & Hs).
    destruct (future_status fromisoformat now' self Hdata) as (r1 & Hr1 & Hs').
    rewrite Hr in Hr0. injection Hr0 as <-. rewrite Hr' in Hr1. injection Hr1 as <-.
    rewrite Hs'.
    destruct (nonempty (omap (LocalCSVMatchResults.future_row fromisoformat now') _))
      eqn:Hn'; [|reflexivity].
    apply Hiff in Hn' as (row & s & d & Hin & Ha & Hp & Hlt).
    assert (Hn : nonempty (omap (LocalCSVMatchResults.future_row fromisoformat now)
                                (data self)) = true).
    { apply Hiff. exists row, s, d. repeat split; try done. lia. }
    rewrite Hs, Hn in Hpass. discriminate.
  - intros fromisoformat' Hagree.
    unfold LocalCSVMatchResults.detect_leakage.
    assert (Hrow : forall row,
               LocalCSVMatchResults.future_row fromisoformat' now row
               = LocalCSVMatchResults.future_row fromisoformat now row).
    { intros row. unfold LocalCSVMatchResults.future_row, LocalCSVMatchResults.parse.
      destruct (as_text (get row "match_start_time")) as [s|]; [|reflexivity].
      specialize (Hagree (replace_Z s)).
      destruct (fromisoformat' (replace_Z s)), (fromisoformat (replace_Z s));
        cbn in Hagree; try congruence.
      injection Hagree as ->. reflexivity. }
    assert (Hmap : forall l : list (gmap string pyval),
               omap (LocalCSVMatchResults.future_row fromisoformat' now) l
               = omap (LocalCSVMatchResults.future_row fromisoformat now) l).
    { clear -Hrow. intros l. induction l as [|row l IH]; cbn [omap list_omap];
        [reflexivity|]. by rewrite Hrow, IH. }
    by rewrite Hmap.
Qed.

(** One record whose match starts on 2024-01-01, read at the first
    microsecond of the calendar. *)
Lemma future_dated_matches_witness :
  exists r, LocalCSVMatchResults.detect_leakage fromisoformat_model 0
              (with_rows [full_row]) = Ok r
    /\ status r = value FAIL.
Proof.
  destruct (proj1 (future_dated_matches_fail fromisoformat_model 0
                     (with_rows [full_row]) ltac:(discriminate)))
    as (r & Hr & Hs).
  exists r. split; [exact Hr|]. apply Hs.
  exists full_row, "2024-01-01T12:00:00Z".
  eexists. split; [apply list_elem_of_here|].
  split; [vm_compute; reflexivity|]. split; [vm_compute; reflexivity|].
  vm_compute; reflexivity.
Defined.

(** ** A CSV connector without records, audited in full *)

Section NoRecords.

Lemma load_data_empty (fs : string -> option csv_file) (path : pyval) :
  data (__init__ fs path) = [] <->
  as_text path = None
  \/ exists p, as_text path = Some p
               /\ (fs p = None \/ exists f, fs p = Some f /\ rows f = []).
Proof.
  unfold __init__, _load_data. cbn [data].
  destruct (as_text path) as [p|]; [|split; [by left|done]].
  destruct (fs p) as [f|] eqn:Hf.
  - split.
    + intros Hrows. right. exists p. split; [done|]. right. by exists f.
    + intros [?|(p' & [= <-] & [Hnone|(f' & Hf' & Hrows)])]; [done|congruence|].
      rewrite Hf in Hf'. by injection Hf' as <-.
  - split; [|done]. intros _. right. exists p. split; [done|]. by left.
Qed.

End NoRecords.

(** X18. A CSV connector holds no record exactly when no path is
    configured, the file is missing, or the file has no record.  The full
    audit of such a connector returns with overall status NOT_AVAILABLE,
    never PASS and never FAIL: the three checks on the records answer
    NOT_AVAILABLE with "No data loaded", and the report carries three
    issues when the file exists and four when it does not. *)
Theorem no_records_no_verdict :
  forall (fromisoformat : string -> option datetime) (now : Z)
         (repr_set : list string -> string) (float_lt_one : string -> option bool)
         (fs : string -> option csv_file),
    (forall path,
        data (__init__ fs path) = [] <->
        as_text path = None
        \/ exists p, as_text path = Some p
                     /\ (fs p = None \/ exists f, fs p = Some f /\ rows f = []))
    /\ (forall self c,
          data self = [] ->
          c ∈ [local_csv_match_results fromisoformat now repr_set fs self;
                local_csv_odds fromisoformat float_lt_one fs self] ->
          exists r, run_full_audit c = Ok r
            /\ source r = get_source_name c
            /\ overall_status r = Some (value NOT_AVAILABLE)
            /\ (forall check_type,
                  check_type ∈ ["data_quality"; "timestamps"; "leakage_check"] ->
                  r_checks r !! check_type
                  = Some {| status := value NOT_AVAILABLE;
                            issues := ["No data loaded"]; checks := ∅ |})
            /\ (issue_count r = 3%nat \/ issue_count r = 4%nat)
            /\ (issue_count r = 3%nat <->
                exists p f, as_text (csv_path self) = Some p /\ fs p = Some f)).
Proof.
  intros fromisoformat now repr_set float_lt_one fs. split; [apply load_data_empty|].
  intros self c Hdata Hc.
  assert (Hchecks : forall check_type r,
             check_type ∈ ["data_quality"; "timestamps"; "leakage_check"] ->
             forall a : check_result,
               (<["leakage_check" := r]> (<["timestamps" := r]>
                 (<["data_quality" := r]> (<["availability" := a]> ∅))) : gmap string check_result)
               !! check_type = Some r).
  { intros check_type r Hin a.
    repeat (apply elem_of_cons in Hin as [->|Hin]); [..|by apply elem_of_nil in Hin];
      reflexivity. }
  apply elem_of_cons in Hc as [->|Hc];
    [|apply list_elem_of_singleton in Hc as ->];
    unfold run_full_audit, local_csv_match_results, local_csv_odds;
    cbn [check_availability audit_data_quality check_timestamps detect_leakage
         get_source_name];
    unfold LocalCSVMatchResults.audit_data_quality, LocalCSVMatchResults.check_timestamps,
      LocalCSVMatchResults.detect_leakage, LocalCSVOdds.audit_data_quality,
      LocalCSVOdds.check_timestamps, LocalCSVOdds.detect_leakage,
      LocalCSVMatchResults.check_availability, LocalCSVOdds.check_availability;
    rewrite Hdata; cbn [nonempty negb];
    (destruct (as_text (csv_path self)) as [p|]; [destruct (fs p) as [f|] eqn:Hf|]);
    cbn [mbind pyresult_bind status]; eexists; (split; [reflexivity|]);
    cbn [source overall_status r_checks];
    (split; [reflexivity|]); (split; [reflexivity|]);
    (split; [intros check_type Hin; by apply Hchecks|]).
  all: split; [first [by left | by right]|].
  all: split; [first [intros _; by exists p, f | discriminate]|].
  all: first [reflexivity
             | intros (p' & f' & Hp' & Hf'); first [discriminate | congruence]].
Qed.

(** ** Timestamp formats of the odds connector (local_csv_odds.py) *)

Section OddsTimestamps.

Variable fromisoformat : string -> option datetime.

Lemma concat_map_nonempty {B C : Type} (g : B -> list C) (l : list B) :
  concat (map g l) <> [] <-> exists x, x ∈ l /\ g x <> [].
Proof.
  induction l as [|x l IH]; cbn [map concat].
  - split; [done|]. intros (x & Hin & _). by apply elem_of_nil in Hin.
  - split.
    + intros Hne. destruct (g x) as [|y ys] eqn:Hx.
      * apply IH in Hne as (z & Hin & Hz). exists z.
        split; [by apply list_elem_of_further|done].
      * exists x. split; [apply list_elem_of_here|]. by rewrite Hx.
    + intros (z & Hin & Hz) Happ. apply app_eq_nil in Happ as [Hx Hl].
      apply elem_of_cons in Hin as [->|Hin]; [done|].
      apply IH in Hl; [done|]. by exists z.
Qed.

Lemma length_concat_map_le {B C : Type} (g : B -> list C) (k : nat) (l : list B) :
  (forall x, length (g x) <= k)%nat ->
  (length (concat (map g l)) <= k * length l)%nat.
Proof.
  intros Hg. induction l as [|x l IH]; cbn [map concat length]; [lia|].
  rewrite length_app. specialize (Hg x). lia.
Qed.

Lemma format_errors_length (row : gmap string pyval) :
  (length (LocalCSVOdds.format_errors fromisoformat row) <= 3)%nat.
Proof.
  unfold LocalCSVOdds.format_errors.
  apply (length_concat_map_le _ 1%nat
           [("snapshot_timestamp", get row "snapshot_timestamp");
            ("available_at", get row "available_at");
            ("match_start_time", get row "match_start_time")]).
  intros [field v]. destruct (as_text v) as [s|]; [|cbn; lia].
  destruct (LocalCSVOdds.parse fromisoformat s); cbn; lia.
Qed.

Lemma format_errors_spec (row : gmap string pyval) :
  LocalCSVOdds.format_errors fromisoformat row <> [] <->
  exists field s,
    field ∈ ["snapshot_timestamp"; "available_at"; "match_start_time"]
    /\ as_text (get row field) = Some s
    /\ fromisoformat (replace_Z s) = None.
Proof.
  unfold LocalCSVOdds.format_errors. rewrite concat_map_nonempty. split.
  - intros ([field v] & Hin & Hne).
    assert (Hv : v = get row field
                 /\ field ∈ ["snapshot_timestamp"; "available_at"; "match_start_time"]).
    { repeat (apply elem_of_cons in Hin as [[= -> ->]|Hin]);
        [..|by apply elem_of_nil in Hin]; (split; [reflexivity|]);
        repeat first [apply list_elem_of_here | apply list_elem_of_further]. }
    destruct Hv as [-> Hfield]. exists field.
    destruct (as_text (get row field)) as [s|]; [|done].
    exists s. split; [done|]. split; [done|].
    unfold LocalCSVOdds.parse in Hne.
    by destruct (fromisoformat (replace_Z s)).
  - intros (field & s & Hin & Hs & Hp). exists (field, get row field). split.
    + repeat (apply elem_of_cons in Hin as [->|Hin]);
        [..|by apply elem_of_nil in Hin];
        repeat first [apply list_elem_of_here | apply list_elem_of_further].
    + rewrite Hs. unfold LocalCSVOdds.parse. rewrite Hp. done.
Qed.

End OddsTimestamps.

(** X19. On a connector that holds records, the timestamp check of the
    odds connector returns, and answers FAIL exactly when some record
    holds, in one of its three timestamp columns, a non-empty cell that
    does not parse; in every other case it answers PASS.  An empty or
    absent cell is never an error.  The count of invalid timestamps is at
    most three per record, and at most five examples are kept. *)
Theorem odds_invalid_timestamp_always_fails :
  forall (fromisoformat : string -> option datetime) (self : csv_connector),
    data self <> [] ->
    exists r invalid_count examples,
      LocalCSVOdds.check_timestamps fromisoformat self = Ok r
      /\ checks r !! "timestamp_format" = Some (DInvalid invalid_count examples)
      /\ (invalid_count <= 3 * length (data self))%nat
      /\ length examples = Nat.min 5 invalid_count
      /\ (status r = value FAIL <-> (0 < invalid_count)%nat)
      /\ (status r = value PASS <-> invalid_count = 0%nat)
      /\ (status r = value FAIL <->
          exists row field s,
            row ∈ data self
            /\ field ∈ ["snapshot_timestamp"; "available_at"; "match_start_time"]
            /\ as_text (get row field) = Some s
            /\ fromisoformat (replace_Z s) = None).
Proof.
  intros fromisoformat self Hdata.
  assert (Hsome : concat (map (LocalCSVOdds.format_errors fromisoformat) (data self)) <> []
                  <-> exists row field s,
                        row ∈ data self
                        /\ field ∈ ["snapshot_timestamp"; "available_at"; "match_start_time"]
                        /\ as_text (get row field) = Some s
                        /\ fromisoformat (replace_Z s) = None).
  { rewrite concat_map_nonempty. split.
    - intros (row & Hin & Hne). apply format_errors_spec in Hne as (field & s & H).
      by exists row, field, s.
    - intros (row & field & s & Hin & H). exists row. split; [done|].
      apply format_errors_spec. by exists field, s. }
  pose proof (length_concat_map_le (LocalCSVOdds.format_errors fromisoformat) 3
                (data self) (format_errors_length fromisoformat)) as Hbound.
  unfold LocalCSVOdds.check_timestamps.
  destruct (data self) as [|row0 rows0] eqn:Hd; [done|]. cbn [nonempty negb].
  destruct (concat (map (LocalCSVOdds.format_errors fromisoformat) (row0 :: rows0)))
    as [|e es] eqn:Hc; cbn [nonempty];
    eexists; eexists; eexists; (split; [reflexivity|]); cbn [status checks];
    (split; [apply lookup_insert_eq|]); (split; [exact Hbound|]);
    (split; [rewrite length_take; reflexivity|]).
  - split; [split; [discriminate|cbn; lia]|]. split; [done|].
    split; [discriminate|]. intros H. by apply Hsome in H.
  - split; [split; [cbn; lia|done]|]. split; [split; [discriminate|cbn; lia]|].
    split; [|done]. intros _. by apply Hsome.
Qed.

(** The record [R3] of the leakage scenario, whose snapshot timestamp is
    unreadable. *)
Lemma odds_invalid_timestamp_witness :
  exists r, LocalCSVOdds.check_timestamps fromisoformat_model (with_rows [R3]) = Ok r
    /\ status r = value FAIL.
Proof.
  destruct (odds_invalid_timestamp_always_fails fromisoformat_model (with_rows [R3])
              ltac:(discriminate))
    as (r & n & ex & Hr & _ & _ & _ & Hfail & _).
  exists r. split; [exact Hr|].
  vm_compute in Hr. injection Hr as <-. reflexivity.
Defined.

(** ** Exceptions of the checks, through the run *)

Section Exceptions.

Lemma run_full_audit_returns (c : DataConnector) :
  (exists r, run_full_audit c = Ok r) <->
  exists a q t l, check_availability c = Ok a /\ audit_data_quality c = Ok q
                  /\ check_timestamps c = Ok t /\ detect_leakage c = Ok l.
Proof.
  unfold run_full_audit.
  destruct (check_availability c) as [a|]; cbn [mbind pyresult_bind];
    [|split; [intros [? ?]; discriminate|intros (? & ? & ? & ? & ? & _); discriminate]].
  destruct (audit_data_quality c) as [q|]; cbn [mbind pyresult_bind];
    [|split; [intros [? ?]; discriminate|intros (? & ? & ? & ? & _ & ? & _); discriminate]].
  destruct (check_timestamps c) as [t|]; cbn [mbind pyresult_bind];
    [|split; [intros [? ?]; discriminate
             |intros (? & ? & ? & ? & _ & _ & ? & _); discriminate]].
  destruct (detect_leakage c) as [l|]; cbn [mbind pyresult_bind];
    [|split; [intros [? ?]; discriminate
             |intros (? & ? & ? & ? & _ & _ & _ & ?); discriminate]].
  split; [intros _; by exists a, q, t, l|intros _; by eexists].
Qed.

Lemma reports_of_returns (cs : list DataConnector) :
  (exists rs, reports_of cs = Ok rs) <->
  forall c, c ∈ cs -> exists r, run_full_audit c = Ok r.
Proof.
  split; [|apply reports_of_total].
  induction cs as [|c cs IH]; intros [rs Hrs] c' Hin; [by apply elem_of_nil in Hin|].
  cbn [reports_of] in Hrs.
  destruct (run_full_audit c) as [r|] eqn:Hr; [|discriminate].
  cbn [mbind pyresult_bind] in Hrs.
  destruct (reports_of cs) as [rs'|]; [|discriminate].
  apply elem_of_cons in Hin as [->|Hin]; [by exists r|].
  apply IH; [by exists rs'|done].
Qed.

Lemma reports_of_first_exception (pre post : list DataConnector) (c : DataConnector)
    (e : pyexn) :
  (forall c', c' ∈ pre -> exists r, run_full_audit c' = Ok r) ->
  run_full_audit c = Raise e ->
  reports_of (pre ++ c :: post) = Raise e.
Proof.
  intros Hpre Hc. induction pre as [|c0 pre IH]; cbn [app reports_of].
  - by rewrite Hc.
  - destruct (Hpre c0) as [r ->]; [apply list_elem_of_here|].
    cbn [mbind pyresult_bind]. rewrite IH; [reflexivity|].
    intros c' Hin. apply Hpre. by apply list_elem_of_further.
Qed.

End Exceptions.

(** X20. [run_audit] returns exactly when the four checks of every
    connector it keeps return: the checks of a connector the selection
    leaves out are not run and cannot make the run fail.  An exception of a
    check is not caught: the run raises the exception of the first kept
    connector whose audit raises, and gives no partial result; the [audit]
    command then exits with 1. *)
Theorem one_raising_check_aborts_the_run :
  forall (cs : list DataConnector) (connectors : option (list string)),
    ((exists out, run_audit cs connectors = Ok out) <->
     forall c, c ∈ kept connectors cs ->
       exists a q t l, check_availability c = Ok a /\ audit_data_quality c = Ok q
                       /\ check_timestamps c = Ok t /\ detect_leakage c = Ok l)
    /\ (forall pre c post e,
          kept connectors cs = pre ++ c :: post ->
          (forall c', c' ∈ pre -> exists r, run_full_audit c' = Ok r) ->
          run_full_audit c = Raise e ->
          run_audit cs connectors = Raise e)
    /\ (forall names e reports_generated,
          run_audit cs (cli_selection names) = Raise e ->
          audit_command cs names reports_generated = 1%nat).
Proof.
  intros cs connectors. split; [|split].
  - rewrite run_audit_spec. split.
    + intros [out Hout] c Hin. apply run_full_audit_returns.
      destruct (reports_of (kept connectors cs)) as [rs|] eqn:Hrs; [|discriminate].
      apply (proj1 (reports_of_returns (kept connectors cs))); [by exists rs|done].
    + intros Hall.
      destruct (proj2 (reports_of_returns (kept connectors cs))) as [rs ->];
        [|by eexists].
      intros c Hin. apply run_full_audit_returns. by apply Hall.
  - intros pre c post e Hkept Hpre Hc. rewrite run_audit_spec, Hkept.
    by rewrite (reports_of_first_exception pre post c e Hpre Hc).
  - intros names e reports_generated Hrun. unfold audit_command. by rewrite Hrun.
Qed.
